(** * nado_db: a shallow embedding of the parameter substitution, the query
    builder, the pagination helper, the Snowflake generator, the synchronous
    driver's context and transaction stack, and the repository factory's
    [save].

    Python values are modelled by [Value]; Python exceptions by [Exn]; a
    fallible computation returns [Result]. *)

From Stdlib Require Import ZArith Lia List Bool Ascii String.
From Stdlib Require Import Numbers.DecimalString Sorting.Sorted.
Import ListNotations.
Open Scope string_scope.

(** ** Python values and exceptions *)

(** A naive [datetime.datetime] (no tzinfo). *)
Record DateTime := mkDateTime {
  dt_year : Z; dt_month : Z; dt_day : Z;
  dt_hour : Z; dt_minute : Z; dt_second : Z; dt_microsecond : Z
}.

(** A [datetime.date]. *)
Record Date := mkDate { d_year : Z; d_month : Z; d_day : Z }.

(** The values that reach [sql_params] and [QueryWrapper._format_value]:
    [None], [int], [bool], [str], [datetime.datetime], [datetime.date] and
    members of an [Enum] (class name, member name, underlying value).
    [float] and [decimal.Decimal] are not modelled. *)
Inductive Value :=
| VNone
| VInt (z : Z)
| VBool (b : bool)
| VStr (s : string)
| VDateTime (d : DateTime)
| VDate (d : Date)
| VEnum (cls name : string) (v : Value).

Inductive Exn :=
| IndexError
| ValueError
| KeyError
| TypeError
| AttributeError
| ModuleNotFoundError
| DriverError (msg : string).

Inductive Result (A : Type) :=
| Ok (a : A)
| Exc (e : Exn).
Arguments Ok {A} a.
Arguments Exc {A} e.

Definition rbind {A B} (r : Result A) (k : A -> Result B) : Result B :=
  match r with Ok a => k a | Exc e => Exc e end.

Notation "x <-? r ;; k" := (rbind r (fun x => k))
  (at level 61, r at next level, right associativity).

(** ** Python's [str] on the modelled values *)

Definition z_str (z : Z) : string := NilEmpty.string_of_int (Z.to_int z).

Fixpoint zeros (n : nat) : string :=
  match n with O => EmptyString | S k => String "0" (zeros k) end.

(** [format(z, '0<w>d')] for [z >= 0]: left-pad with zeros to width [w]. *)
Definition zpad (w : nat) (z : Z) : string :=
  let s := z_str z in zeros (w - String.length s) ++ s.

(** [datetime.strftime('%Y-%m-%d %H:%M:%S')]. *)
Definition strftime_ymdhms (d : DateTime) : string :=
  zpad 4 (dt_year d) ++ "-" ++ zpad 2 (dt_month d) ++ "-" ++ zpad 2 (dt_day d)
  ++ " " ++ zpad 2 (dt_hour d) ++ ":" ++ zpad 2 (dt_minute d) ++ ":"
  ++ zpad 2 (dt_second d).

(** [str(datetime)] is [isoformat(' ')]: the microseconds are appended as
    [.ffffff] when they are non-zero. *)
Definition datetime_str (d : DateTime) : string :=
  strftime_ymdhms d
  ++ (if Z.eqb (dt_microsecond d) 0 then EmptyString
      else "." ++ zpad 6 (dt_microsecond d)).

Definition date_str (d : Date) : string :=
  zpad 4 (d_year d) ++ "-" ++ zpad 2 (d_month d) ++ "-" ++ zpad 2 (d_day d).

Definition py_str (v : Value) : string :=
  match v with
  | VNone => "None"
  | VInt z => z_str z
  | VBool true => "True"
  | VBool false => "False"
  | VStr s => s
  | VDateTime d => datetime_str d
  | VDate d => date_str d
  | VEnum cls name _ => cls ++ "." ++ name
  end.

(** Python truthiness. *)
Definition truthy (v : Value) : bool :=
  match v with
  | VNone => false
  | VInt z => negb (Z.eqb z 0)
  | VBool b => b
  | VStr s => negb (String.eqb s EmptyString)
  | _ => true
  end.

(** [s.replace(c, r)] for a one-character pattern [c]. *)
Fixpoint replace_char (c : ascii) (r : string) (s : string) : string :=
  match s with
  | EmptyString => EmptyString
  | String x s' =>
      if Ascii.eqb x c then r ++ replace_char c r s'
      else String x (replace_char c r s')
  end.

(** [sep.join(xs)]. *)
Definition join (sep : string) (xs : list string) : string := String.concat sep xs.

(** ** [str.format] with positional fields

    Fields are [{}] (automatic numbering) or [{<digits>}] (manual
    numbering); [{{] and [}}] are literal braces. A named field raises
    [KeyError]. Conversions, format specs, attribute and index access inside
    a field are not modelled and raise [ValueError] here. *)

Inductive fmode := FNone | FAuto | FManual.
Inductive lexst := LNormal | LOpen | LField (acc : string) | LClose.

Definition is_digit (c : ascii) : bool :=
  (Nat.leb 48 (nat_of_ascii c)) && (Nat.leb (nat_of_ascii c) 57).

Definition field_char (c : ascii) : bool :=
  negb (existsb (Ascii.eqb c) ["{"; "}"; ":"; "!"; "."; "["; "]"]%char).

Fixpoint all_digits (s : string) : bool :=
  match s with
  | EmptyString => true
  | String c s' => is_digit c && all_digits s'
  end.

Fixpoint digits_val (s : string) (acc : nat) : nat :=
  match s with
  | EmptyString => acc
  | String c s' => digits_val s' (acc * 10 + (nat_of_ascii c - 48))
  end.

(** Resolve a field name to an argument index and the new numbering state. *)
Definition resolve_field (acc : string) (auto : nat) (md : fmode)
  : Result (nat * nat * fmode) :=
  match acc with
  | EmptyString =>
      match md with FManual => Exc ValueError | _ => Ok (auto, S auto, FAuto) end
  | _ =>
      if all_digits acc then
        match md with
        | FAuto => Exc ValueError
        | _ => Ok (digits_val acc 0, auto, FManual)
        end
      else Exc KeyError
  end.

Fixpoint fmt_go (s : string) (ls : lexst) (auto : nat) (md : fmode)
  (args : list string) : Result string :=
  match s with
  | EmptyString =>
      match ls with LNormal => Ok EmptyString | _ => Exc ValueError end
  | String c s' =>
      match ls with
      | LNormal =>
          if Ascii.eqb c "{" then fmt_go s' LOpen auto md args
          else if Ascii.eqb c "}" then fmt_go s' LClose auto md args
          else r <-? fmt_go s' LNormal auto md args ;; Ok (String c r)
      | LClose =>
          if Ascii.eqb c "}" then
            r <-? fmt_go s' LNormal auto md args ;; Ok (String "}" r)
          else Exc ValueError
      | LOpen =>
          if Ascii.eqb c "{" then
            r <-? fmt_go s' LNormal auto md args ;; Ok (String "{" r)
          else if Ascii.eqb c "}" then
            x <-? resolve_field EmptyString auto md ;;
            let '(i, auto', md') := x in
            match nth_error args i with
            | None => Exc IndexError
            | Some a => r <-? fmt_go s' LNormal auto' md' args ;; Ok (a ++ r)
            end
          else if field_char c then fmt_go s' (LField (String c EmptyString)) auto md args
          else Exc ValueError
      | LField acc =>
          if Ascii.eqb c "}" then
            x <-? resolve_field acc auto md ;;
            let '(i, auto', md') := x in
            match nth_error args i with
            | None => Exc IndexError
            | Some a => r <-? fmt_go s' LNormal auto' md' args ;; Ok (a ++ r)
            end
          else if field_char c then
            fmt_go s' (LField (acc ++ String c EmptyString)) auto md args
          else Exc ValueError
      end
  end.

(** [template.format( *args)]. *)
Definition py_format (template : string) (args : list string) : Result string :=
  fmt_go template LNormal 0 FNone args.

(** ** [driver.sql_params] *)

(** The body of the loop of [sql_params]: the rendering of one argument.
    [type(p) in (int, float, decimal.Decimal)] is an exact type test, so a
    [bool] (and an [IntEnum] member) falls through to the last branch. *)
Definition sql_param (p : Value) : string :=
  match p with
  | VNone => "NULL"
  | VInt z => z_str z
  | VDateTime d => "'" ++ py_str p ++ "'"
  | _ => "'" ++ replace_char "'" "''" (py_str p) ++ "'"
  end.

Definition sql_params (sql : string) (args : list Value) : Result string :=
  let params := map sql_param args in
  if Nat.ltb 0 (List.length params) then py_format sql params else Ok sql.

(** ** [utils.QueryWrapper] *)

Module QueryWrapper.

Record QueryWrapper := mkQW {
  _condition : list string;
  _order : list string;
  _last : string
}.

Definition QueryWrapper_new : QueryWrapper := mkQW ["1=1"] [] EmptyString.

Definition str_startswith (pre s : string) : bool := String.prefix pre s.

(** [value.replace("%", r"\%").replace("_", r"\_")]. *)
Definition escape_wildcards (s : string) : string :=
  replace_char "_" "\_" (replace_char "%" "\%" s).

Definition _like_filter (value : Value) (op : string) : Value * string :=
  if str_startswith "like" op then
    let value := replace_char "'" "''" (py_str value) in
    if String.eqb op "like" || String.eqb op "not like" then
      (VStr ("%" ++ escape_wildcards value ++ "%"), op)
    else if String.eqb op "like_left" then
      (VStr ("%" ++ escape_wildcards value), "like")
    else if String.eqb op "like_right" then
      (VStr (escape_wildcards value ++ "%"), "like")
    else (VStr value, op)
  else (value, op).

Definition _format_value (v : Value) : string :=
  let value_wrapper := fun s => "'" ++ s ++ "'" in
  match v with
  | VNone => "NULL"
  | VInt z => z_str z
  | VEnum _ _ u => value_wrapper (py_str u)
  | VDateTime d => value_wrapper (strftime_ymdhms d)
  | _ => value_wrapper (replace_char "\" "\\" (replace_char "'" "''" (py_str v)))
  end.

Definition qualify (column_name alias : string) : string :=
  if String.eqb alias EmptyString then column_name else alias ++ "." ++ column_name.

Definition append_condition (q : QueryWrapper) (c : string) : QueryWrapper :=
  mkQW (_condition q ++ [c]) (_order q) (_last q).

Definition _base_op (q : QueryWrapper) (column_name : string) (value : Value)
  (op alias : string) : QueryWrapper :=
  let '(value, op) := _like_filter value op in
  let column_name := qualify column_name alias in
  match value with
  | VDateTime d =>
      let value := strftime_ymdhms d in
      if String.eqb op ">" || String.eqb op ">=" then
        append_condition q (column_name ++ " " ++ op ++ " '" ++ value ++ ".000000'")
      else if String.eqb op "<" || String.eqb op "<=" then
        append_condition q (column_name ++ " " ++ op ++ " '" ++ value ++ ".999999'")
      else append_condition q (column_name ++ " " ++ op ++ " '" ++ value ++ "'")
  | VDate d =>
      let value := date_str d in
      if String.eqb op ">" || String.eqb op ">=" then
        append_condition q (column_name ++ " " ++ op ++ " '" ++ value ++ " 00:00:00.000000'")
      else if String.eqb op "<" || String.eqb op "<=" then
        append_condition q (column_name ++ " " ++ op ++ " '" ++ value ++ " 23:59:59.999999'")
      else append_condition q (column_name ++ " " ++ op ++ " '" ++ value ++ "'")
  | _ =>
      let value := _format_value value in
      append_condition q (column_name ++ " " ++ op ++ " " ++ value)
  end.

Definition eq (q : QueryWrapper) c v (alias : string) := _base_op q c v "=" alias.
Definition ne (q : QueryWrapper) c v (alias : string) := _base_op q c v "<>" alias.
Definition lt (q : QueryWrapper) c v (alias : string) := _base_op q c v "<" alias.
Definition le (q : QueryWrapper) c v (alias : string) := _base_op q c v "<=" alias.
Definition gt (q : QueryWrapper) c v (alias : string) := _base_op q c v ">" alias.
Definition ge (q : QueryWrapper) c v (alias : string) := _base_op q c v ">=" alias.
Definition like (q : QueryWrapper) c v (alias : string) := _base_op q c v "like" alias.
Definition not_like (q : QueryWrapper) c v (alias : string) := _base_op q c v "not like" alias.
Definition like_left (q : QueryWrapper) c v (alias : string) := _base_op q c v "like_left" alias.
Definition like_right (q : QueryWrapper) c v (alias : string) := _base_op q c v "like_right" alias.

(** [include(column_name, *values, alias)]: raises [IndexError] when no
    value is given. *)
Definition include (q : QueryWrapper) (column_name : string) (values : list Value)
  (alias : string) : Result QueryWrapper :=
  match values with
  | [] => Exc IndexError
  | _ =>
      let format_value := map _format_value values in
      let column_name := qualify column_name alias in
      Ok (append_condition q (column_name ++ " in (" ++ join "," format_value ++ ")"))
  end.

Definition last (q : QueryWrapper) (sql : string) : QueryWrapper :=
  mkQW (_condition q) (_order q) sql.

Definition add_order (q : QueryWrapper) (order : string) (asc : bool) : QueryWrapper :=
  mkQW (_condition q) (_order q ++ [order ++ " " ++ (if asc then "asc" else "desc")]) (_last q).

Definition order (q : QueryWrapper) : string :=
  match _order q with
  | [] => EmptyString
  | os => " ORDER BY " ++ join "," os ++ " "
  end.

Definition sql_segment (q : QueryWrapper) : string :=
  join " and " (_condition q) ++ " " ++ order q ++ " " ++ _last q.

(** [xor(query_wrapper)]: the new state of [self], which is returned. *)
Definition xor (self query_wrapper : QueryWrapper) : QueryWrapper :=
  let upper_condition := join " and " (_condition self) in
  let lower_condition := join " and " (_condition query_wrapper) in
  mkQW ["((" ++ upper_condition ++ ") or (" ++ lower_condition ++ "))"] (_order self) (_last self).

(** Builders are objects: a heap maps each reference to the state of its
    builder. [A.xor(B)] updates [A]'s object and returns the reference [A]. *)
Definition Heap := nat -> QueryWrapper.

Definition xor_at (h : Heap) (a b : nat) : Heap * nat :=
  let v := xor (h a) (h b) in
  ((fun r => if Nat.eqb r a then v else h r), a).

End QueryWrapper.
Import QueryWrapper (QueryWrapper, mkQW, _condition, _order, _last, sql_segment).

(** ** [utils.Page] *)

Module Page.
Local Open Scope Z_scope.

(** The rows of a page are caller-populated; their content does not matter
    here. *)
Record Page := mkPage {
  offset : Z;
  size : Z;
  total : Z;
  record : list Value;
  wrapper : QueryWrapper
}.

Definition _structure (p : Page) : Page :=
  mkPage (offset p) (size p) (total p) (record p)
    (QueryWrapper.last (wrapper p)
       ("LIMIT " ++ z_str (size p) ++ " OFFSET " ++ z_str (offset p))).

(** [Page(query_wrapper, offset, size)]: the wrapper is a copy of the
    caller's one. *)
Definition Page_new (query_wrapper : QueryWrapper) (offset size : Z) : Page :=
  _structure (mkPage offset size 0 [] query_wrapper).

(** The caller sets [page.total]. *)
Definition set_total (p : Page) (t : Z) : Page :=
  mkPage (offset p) (size p) t (record p) (wrapper p).

Definition next (p : Page) : Page :=
  if Z.leb (offset p + size p) (total p) then
    _structure (mkPage (offset p + size p) (size p) (total p) [] (wrapper p))
  else p.

Definition prev (p : Page) : Page :=
  _structure (mkPage (Z.max 0 (offset p - size p)) (size p) (total p) [] (wrapper p)).

End Page.

(** ** [sequence.flake]: the Snowflake generator

    The module globals [_last_point] and [_last_sequence] are the state.
    The tick [point = int((time.time() - _start_point) * 100)] is computed
    from the floating-point clock; it is taken here as the input of each
    call. *)

Module Snowflake.
Local Open Scope Z_scope.

Record FlakeState := mkFlake { _last_point : Z; _last_sequence : Z }.

Definition init : FlakeState := mkFlake 0 0.

Definition _sequence_length : Z := 10.

(** [_machine_id = (int(host_octet) << 4) + (os.getpid() % 16)]. *)
Definition _machine_id (host_octet pid : Z) : Z := Z.shiftl host_octet 4 + pid mod 16.

(** [(_last_point << _sequence_length + 12) + (_machine_id << _sequence_length) + count]. *)
Definition pack (machine_id lp count : Z) : Z :=
  Z.shiftl lp (_sequence_length + 12) + Z.shiftl machine_id _sequence_length + count.

Definition flake (machine_id point : Z) (st : FlakeState) : Z * FlakeState :=
  let pack := pack machine_id in
  if Z.eqb (_last_point st) point then
    let count := _last_sequence st + 1 in
    if Z.ltb (Z.shiftl 1 _sequence_length) count then (0, st)
    else (pack (_last_point st) count, mkFlake (_last_point st) count)
  else (pack point 0, mkFlake point 0).

(** Successive calls at the given ticks. *)
Fixpoint run (machine_id : Z) (st : FlakeState) (ticks : list Z) : list Z * FlakeState :=
  match ticks with
  | [] => ([], st)
  | p :: ps =>
      let '(v, st1) := flake machine_id p st in
      let '(vs, st2) := run machine_id st1 ps in
      (v :: vs, st2)
  end.

Fixpoint nondecreasing (ticks : list Z) : bool :=
  match ticks with
  | p :: ((q :: _) as ps) => Z.leb p q && nondecreasing ps
  | _ => true
  end.

End Snowflake.

(** ** [driver.Driver] and [driver.Transaction]: the synchronous driver

    The thread-local [Store] behind [Driver.ctx] holds the attributes the
    code reads and writes: [db] (a connection, here its number), the stack
    [transactions], and [config], which no code of the repository ever sets
    on the store. An absent attribute is [None]; reading it raises
    [AttributeError]. The closures [ctx.commit], [ctx.rollback] and
    [ctx.execute] installed by [_load_context] are the functions
    [ctx_commit], [ctx_rollback] and [execute] below. The underlying
    DB-API cursor is the parameter [backend]: it either returns a row count
    or raises. *)

Module Driver.

Inductive Engine := base_engine | sub_engine | dummy_engine.

(** A [Transaction] object: the depth recorded at construction and the
    engine chosen then. *)
Record Transaction := mkTransaction { transaction_count : nat; engine : Engine }.

Record Store := mkStore {
  st_db : option nat;
  st_transactions : option (list Transaction);
  st_config : option bool
}.

Definition empty_store : Store := mkStore None None None.

(** The observable effects: the store taking a connection (newly opened,
    or handed out by the pool), statements sent to a cursor of a
    connection, commits and rollbacks of a connection, and the lines
    written by [self.logger.error]. *)
Inductive Event :=
| EvConnect (c : nat)
| EvExecute (c : nat) (sql : string)
| EvCommit (c : nat)
| EvRollback (c : nat)
| EvLogError (msg : string).

Inductive Outcome := Rows (n : Z) | Raises (msg : string).

Record DState := mkDState {
  d_ctx : Store;
  d_cursor : option nat;          (* self._cursor *)
  d_has_pooling : bool;           (* self.has_pooling *)
  d_config_ignore : bool;         (* self.config['ignore_nested_transactions'] *)
  d_next_conn : nat;              (* connections ever opened *)
  d_idle : list nat;              (* the pool's idle connections, oldest first *)
  d_log : list Event
}.

(** [Driver(...)]: [config['ignore_nested_transactions']] defaults to
    [True]; it can be overridden by a keyword argument. *)
Definition init_state (has_pooling ignore_nested : bool) : DState :=
  mkDState empty_store None has_pooling ignore_nested 0 [] [].

(** A state and exception monad. *)
Definition M (A : Type) := DState -> Result A * DState.

Definition ret {A} (a : A) : M A := fun s => (Ok a, s).
Definition bind {A B} (m : M A) (k : A -> M B) : M B :=
  fun s => match m s with
           | (Ok a, s') => k a s'
           | (Exc e, s') => (Exc e, s')
           end.
Definition throw {A} (e : Exn) : M A := fun s => (Exc e, s).
Definition lift {A} (r : Result A) : M A := fun s => (r, s).
Definition catch {A} (m : M A) (h : Exn -> M A) : M A :=
  fun s => match m s with
           | (Exc e, s') => h e s'
           | r => r
           end.
Definition get : M DState := fun s => (Ok s, s).
Definition modify (f : DState -> DState) : M unit := fun s => (Ok tt, f s).

Notation "x <- m ;; k" := (bind m (fun x => k))
  (at level 61, m at next level, right associativity).
Notation "m ;;; k" := (bind m (fun _ => k))
  (at level 61, right associativity).

Definition set_store (st : Store) : M unit :=
  modify (fun s => mkDState st (d_cursor s) (d_has_pooling s) (d_config_ignore s)
                     (d_next_conn s) (d_idle s) (d_log s)).

Definition emit (ev : Event) : M unit :=
  modify (fun s => mkDState (d_ctx s) (d_cursor s) (d_has_pooling s) (d_config_ignore s)
                     (d_next_conn s) (d_idle s) (d_log s ++ [ev])).

Definition set_cursor (c : nat) : M unit :=
  modify (fun s => mkDState (d_ctx s) (Some c) (d_has_pooling s) (d_config_ignore s)
                     (d_next_conn s) (d_idle s) (d_log s)).

Definition read_db : M nat :=
  s <- get ;; match st_db (d_ctx s) with None => throw AttributeError | Some c => ret c end.

Definition read_transactions : M (list Transaction) :=
  s <- get ;;
  match st_transactions (d_ctx s) with None => throw AttributeError | Some t => ret t end.

Definition read_config : M bool :=
  s <- get ;; match st_config (d_ctx s) with None => throw AttributeError | Some b => ret b end.

Definition set_transactions (t : list Transaction) : M unit :=
  s <- get ;; let st := d_ctx s in set_store (mkStore (st_db st) (Some t) (st_config st)).

(** [_unload_context]: [del ctx.db]. It is called only with pooling, where
    [ctx.db] is the pool's wrapper object: dropping its last reference
    closes it, and closing hands the connection back to the pool's idle
    cache ([PooledDB.cache] appends it). The cursor kept in [self._cursor]
    is a cursor of the underlying connection and stays usable. *)
Definition _unload_context : M unit :=
  c <- read_db ;;
  s <- get ;; let st := d_ctx s in
  modify (fun s => mkDState (mkStore None (st_transactions st) (st_config st)) (d_cursor s)
                     (d_has_pooling s) (d_config_ignore s) (d_next_conn s)
                     (if d_has_pooling s then d_idle s ++ [c] else d_idle s) (d_log s)).

(** [_load_context]: reset the stack, connect, and take a cursor of the
    connection. [_connect] opens a new connection; [_connect_with_pooling]
    returns [self._pool.connection()], which hands out the oldest idle
    connection ([self._idle_cache.pop(0)]) and opens a new one only when
    none is idle. *)
Definition _load_context : M unit :=
  s <- get ;;
  let st := d_ctx s in
  let '(c, nx, idle) :=
    match d_has_pooling s, d_idle s with
    | true, c :: rest => (c, d_next_conn s, rest)
    | _, _ => (d_next_conn s, S (d_next_conn s), d_idle s)
    end in
  modify (fun s => mkDState (mkStore (Some c) (Some []) (st_config st)) (Some c)
                     (d_has_pooling s) (d_config_ignore s) nx idle (d_log s ++ [EvConnect c])).

(** The property [Driver.ctx]. *)
Definition _get_ctx : M unit :=
  s <- get ;; match st_db (d_ctx s) with None => _load_context | Some _ => ret tt end.

(** The closure [ctx.commit(unload=True)]. *)
Definition ctx_commit (unload : bool) : M unit :=
  c <- read_db ;; emit (EvCommit c) ;;;
  s <- get ;; if unload && d_has_pooling s then _unload_context else ret tt.

(** The closure [ctx.rollback()]. *)
Definition ctx_rollback : M unit :=
  c <- read_db ;; emit (EvRollback c) ;;;
  s <- get ;; if d_has_pooling s then _unload_context else ret tt.

Section WithBackend.

Variable backend : string -> Outcome.

(** The property [Driver.cursor]. *)
Definition cursor : M nat :=
  s <- get ;;
  match d_cursor s with
  | Some c => ret c
  | None => _get_ctx ;;; c <- read_db ;; set_cursor c ;;; ret c
  end.

Definition _execute (sql : string) : M Z :=
  c <- cursor ;;
  emit (EvExecute c sql) ;;;
  match backend sql with
  | Rows n => ret n
  | Raises msg => emit (EvLogError ("ERR: " ++ sql)) ;;; throw (DriverError msg)
  end.

(** [Driver.execute(sql, params, transaction)]; [transaction] is its
    truthiness, and [None] is Python's implicit [return None]. *)
Definition execute (sql : string) (params : list Value) (transaction : bool)
  : M (option Z) :=
  sql <- lift (sql_params sql params) ;;
  if transaction then
    res <- _execute sql ;; ret (Some res)
  else
    catch (res <- _execute sql ;; _get_ctx ;;; ctx_commit true ;;; ret (Some res))
          (fun _ => _get_ctx ;;; ctx_rollback ;;; ret None).

(** [sub_engine.query]: [self.ctx.execute(sql_params(q, transaction_count))]. *)
Definition engine_query (transaction_count : nat) (q : string) : M unit :=
  q <- lift (sql_params q [VInt (Z.of_nat transaction_count)]) ;;
  execute q [] false ;;; ret tt.

Definition engine_transact (e : Engine) (transaction_count : nat) : M unit :=
  match e with
  | base_engine => ctx_commit false
  | sub_engine => engine_query transaction_count "SAVEPOINT NADO_{}"
  | dummy_engine => ret tt
  end.

Definition engine_commit (e : Engine) (transaction_count : nat) : M unit :=
  match e with
  | base_engine => ctx_commit true
  | sub_engine => engine_query transaction_count "RELEASE SAVEPOINT NADO_{}"
  | dummy_engine => ret tt
  end.

Definition engine_rollback (e : Engine) (transaction_count : nat) : M unit :=
  match e with
  | base_engine => ctx_rollback
  | sub_engine => engine_query transaction_count "ROLLBACK TO SAVEPOINT NADO_{}"
  | dummy_engine => ret tt
  end.

(** [Transaction.__init__(ctx)]: [self.ctx.config['ignore_nested_transactions']]
    is read from the store. *)
Definition Transaction_init : M Transaction :=
  t <- read_transactions ;;
  let transaction_count := List.length t in
  e <- (if Nat.eqb transaction_count 0 then ret base_engine
        else ign <- read_config ;; ret (if ign then dummy_engine else sub_engine)) ;;
  let self := mkTransaction transaction_count e in
  engine_transact e transaction_count ;;;
  t <- read_transactions ;;
  set_transactions (t ++ [self]) ;;;
  ret self.

(** [Driver.transaction()]: [Transaction(self.ctx)]. *)
Definition transaction : M Transaction := _get_ctx ;;; Transaction_init.

Definition commit (self : Transaction) : M unit :=
  t <- read_transactions ;;
  if Nat.ltb (transaction_count self) (List.length t) then
    engine_commit (engine self) (transaction_count self) ;;;
    t <- read_transactions ;;
    set_transactions (firstn (transaction_count self) t)
  else ret tt.

Definition rollback (self : Transaction) : M unit :=
  t <- read_transactions ;;
  if Nat.ltb (transaction_count self) (List.length t) then
    engine_rollback (engine self) (transaction_count self) ;;;
    t <- read_transactions ;;
    set_transactions (firstn (transaction_count self) t)
  else ret tt.

(** A client's calls on one driver, each run from the state the previous
    one left, an exception included. *)
Inductive Op :=
| OExecute (sql : string) (params : list Value) (transaction : bool)
| OTransaction
| OCommit (t : Transaction)
| ORollback (t : Transaction).

Definition run_op (o : Op) : M unit :=
  match o with
  | OExecute sql params tr => execute sql params tr ;;; ret tt
  | OTransaction => transaction ;;; ret tt
  | OCommit t => commit t
  | ORollback t => rollback t
  end.

Fixpoint run_ops (os : list Op) (s : DState) : DState :=
  match os with
  | [] => s
  | o :: os' => run_ops os' (snd (run_op o s))
  end.

End WithBackend.

End Driver.

(** ** [model.BaseModel] and [factory.RepositoryFactory.save]

    A record is its dataclass fields in declaration order, each with its
    declared type and the metadata of [data_field], and the class
    attributes [table] and [primary] set by the decorators. *)

Module Factory.

Inductive FType := TStr | TBool | TInt | TFloat | TDateTime | TOther.

Record Field := mkField {
  f_name : string;
  f_type : FType;
  f_value : Value;
  f_required : bool;
  f_length : Z;
  f_exists : bool
}.

Record Model := mkModel {
  table : option string;
  primary : option string;
  fields : list Field
}.

(** The fields declared by [BaseModel], with the given values. *)
Definition base_fields (id version deleted create_time modify_time : Value) : list Field :=
  [mkField "id" TInt id false 20 true;
   mkField "version" TInt version true 11 true;
   mkField "deleted" TInt deleted true 4 true;
   mkField "create_time" TDateTime create_time false 20 true;
   mkField "modify_time" TDateTime modify_time false 20 true].

(** A [dict] keyed by strings, in insertion order. *)
Definition Dict := list (string * Value).

Fixpoint dict_get (k : string) (d : Dict) : option Value :=
  match d with
  | [] => None
  | (k', v) :: d' => if String.eqb k k' then Some v else dict_get k d'
  end.

(** [d[k] = v]: an existing key keeps its position. *)
Fixpoint dict_set (k : string) (v : Value) (d : Dict) : Dict :=
  match d with
  | [] => [(k, v)]
  | (k', v') :: d' => if String.eqb k k' then (k, v) :: d' else (k', v') :: dict_set k v d'
  end.

Definition dict_index (d : Dict) (k : string) : Result Value :=
  match dict_get k d with Some v => Ok v | None => Exc KeyError end.

(** [getattr(obj, name, None)] for a field. *)
Definition getattr (obj : Model) (name : string) : Value :=
  match find (fun f => String.eqb (f_name f) name) (fields obj) with
  | Some f => f_value f
  | None => VNone
  end.

(** [setattr(obj, name, v)] for a field. *)
Definition setattr (obj : Model) (name : string) (v : Value) : Model :=
  mkModel (table obj) (primary obj)
    (map (fun f => if String.eqb (f_name f) name
                   then mkField (f_name f) (f_type f) v (f_required f) (f_length f) (f_exists f)
                   else f) (fields obj)).

Definition length_checked (t : FType) : bool :=
  match t with TStr | TBool | TInt | TFloat => true | _ => false end.

Definition check_data (obj : Model) : Result unit :=
  fold_left (fun r f =>
    r <-? r ;;
    let data := f_value f in
    if truthy data && length_checked (f_type f)
       && Z.ltb (f_length f) (Z.of_nat (String.length (py_str data)))
    then Exc ValueError else Ok tt) (fields obj) (Ok tt).

(** [RepositoryFactory.check]; the record is a [BaseModel] by its type. *)
Definition check (obj : Model) : Result unit :=
  match table obj with
  | None => Exc TypeError
  | Some t => if String.eqb t EmptyString then Exc TypeError else check_data obj
  end.

Definition to_table (obj : Model) : Result Dict :=
  fold_left (fun r f =>
    data <-? r ;;
    if negb (f_exists f) then Ok data
    else let data := dict_set (f_name f) (f_value f) data in
         if f_required f && match f_value f with VNone => true | _ => false end
         then Exc ValueError else Ok data) (fields obj) (Ok []).

(** [BaseModel.next_val]: [while (index := flake()) == 0: continue], one
    tick per call of [flake]. [None]: the ticks ran out while the loop was
    still waiting for a non-zero id. *)
Fixpoint spin_flake (machine_id : Z) (fs : Snowflake.FlakeState) (ticks : list Z)
  : option (Z * Snowflake.FlakeState * list Z) :=
  match ticks with
  | [] => None
  | p :: ps =>
      let '(index, fs') := Snowflake.flake machine_id p fs in
      if Z.eqb index 0 then spin_flake machine_id fs' ps else Some (index, fs', ps)
  end.

(** [from sequence import flake], the first statement of [next_val]: an
    absolute import. The modules of this package import each other
    relatively ([from .model import BaseModel]); the package provides no
    top-level module [sequence], so inside the package the import raises
    [ModuleNotFoundError]. *)
Definition import_sequence : Result unit := Exc ModuleNotFoundError.

Definition next_val (machine_id : Z) (fs : Snowflake.FlakeState) (ticks : list Z)
  (obj : Model) : option (Result (Model * Snowflake.FlakeState)) :=
  match import_sequence with
  | Exc e => Some (Exc e)
  | Ok _ =>
      if truthy (getattr obj "id") then Some (Ok (obj, fs))
      else match spin_flake machine_id fs ticks with
           | None => None
           | Some (index, fs', _) => Some (Ok (setattr obj "id" (VInt index), fs'))
           end
  end.

(** Keyword arguments that collide with a named parameter raise
    [TypeError]. *)
Definition kwargs_ok (reserved : list string) (d : Dict) : Result unit :=
  if existsb (fun kv => existsb (String.eqb (fst kv)) reserved) d then Exc TypeError else Ok tt.

(** [AsyncDriver.update]: the statements handed to [execute], after
    [sql_params]. *)
Definition db_update (table : string) (where_ : string) (values : Dict) : Result (list string) :=
  _ <-? kwargs_ok ["table"; "where"; "cursor"; "_test"] values ;;
  match values with
  | [] => Ok []
  | _ =>
      let columns := map (fun kv => fst kv ++ " = {}") values in
      let sql := "update " ++ table ++ " set " ++ join "," columns ++ " where "
                 ++ (if String.eqb where_ EmptyString then "1=1" else where_) in
      sql <-? sql_params sql (map snd values) ;;
      Ok [sql]
  end.

Definition column_format (v : string) : string := "`" ++ v ++ "`".

(** [AsyncDriver._process_insert_query(sql, seq_name, table_name)], called
    as [(sql, table, _seq)]. *)
Definition _process_insert_query (sql seq_name table_name : string) : string :=
  sql ++ ";SELECT MAX(" ++ seq_name ++ ") FROM " ++ table_name.

(** [AsyncDriver.insert] with [_last = '']. *)
Definition db_insert (table : string) (_seq : option string) (values : Dict)
  : Result (list string) :=
  _ <-? kwargs_ok ["table"; "cursor"; "_last"; "_seq"; "_test"] values ;;
  match values with
  | [] => Ok []
  | _ =>
      let columns := map fst values in
      let sql := "insert into " ++ table ++ " (" ++ join "," (map column_format columns)
                 ++ ") values (" ++ join "," (map (fun _ => "{}") columns) ++ ") " in
      let sql := match _seq with
                 | Some seq => _process_insert_query sql table seq
                 | None => sql
                 end in
      sql <-? sql_params sql (map snd values) ;;
      Ok [sql]
  end.

(** [updates['version'] += 1]. *)
Definition incr (v : Value) : Result Value :=
  match v with
  | VInt z => Ok (VInt (z + 1)%Z)
  | VBool b => Ok (VInt (Z.b2z b + 1)%Z)
  | _ => Exc TypeError
  end.

(** [RepositoryFactory.save(obj)]: the statements issued, the record
    afterwards and the Snowflake state afterwards. [now] is
    [datetime.datetime.now()]; [ticks] feeds [flake]. The outer [None] is
    [spin_flake]'s. *)
Definition save (auto_increment : bool) (now : DateTime) (machine_id : Z)
  (fs : Snowflake.FlakeState) (ticks : list Z) (obj : Model)
  : option (Result (list string * Model * Snowflake.FlakeState)) :=
  match check obj with
  | Exc e => Some (Exc e)
  | Ok _ =>
  let table := match table obj with Some t => t | None => EmptyString end in
  let seq := match primary obj with Some p => p | None => "id" end in
  match to_table obj with
  | Exc e => Some (Exc e)
  | Ok params =>
  if truthy (getattr obj seq) then
    Some (
      let updates := filter (fun kv => negb (String.eqb (fst kv) seq)) params in
      v <-? dict_index updates "version" ;;
      v <-? incr v ;;
      let updates := dict_set "version" v updates in
      let updates := dict_set "modify_time" (VDateTime now) updates in
      pk <-? dict_index params seq ;;
      ver <-? dict_index params "version" ;;
      stmts <-? db_update table
                  (seq ++ " = " ++ py_str pk ++ " and deleted = 0 and version = " ++ py_str ver)
                  updates ;;
      Ok (stmts, obj, fs))
  else
    let step := if auto_increment then Some (Ok (obj, fs)) else next_val machine_id fs ticks obj in
    match step with
    | None => None
    | Some (Exc e) => Some (Exc e)
    | Some (Ok (obj', fs')) =>
        let seq := if auto_increment then Some seq else None in
        let params := dict_set "create_time" (VDateTime now) params in
        Some (stmts <-? db_insert table seq params ;; Ok (stmts, obj', fs'))
    end
  end
  end.

End Factory.

(** * Reading the generated SQL back *)

(** The number of occurrences of a character. *)
Fixpoint cnt (c : ascii) (s : string) : nat :=
  match s with
  | EmptyString => 0
  | String x s' => (if Ascii.eqb x c then 1 else 0) + cnt c s'
  end.

(** The body of a single-quoted SQL string literal as the server reads it:
    [''] stands for one quote and, when [bs] is set (MySQL's default mode),
    [\\] stands for one backslash. [None]: the body is not a well-formed
    literal of that kind (a lone quote ends the literal early). *)
Fixpoint unquote (bs : bool) (s : string) : option string :=
  match s with
  | EmptyString => Some EmptyString
  | String c s' =>
      if Ascii.eqb c "'" then
        match s' with
        | String c' s'' =>
            if Ascii.eqb c' "'" then option_map (String "'") (unquote bs s'') else None
        | EmptyString => None
        end
      else if bs && Ascii.eqb c "\" then
        match s' with
        | String c' s'' =>
            if Ascii.eqb c' "\" then option_map (String "\") (unquote bs s'') else None
        | EmptyString => None
        end
      else option_map (String c) (unquote bs s')
  end.

Definition is_brace (c : ascii) : bool := Ascii.eqb c "{" || Ascii.eqb c "}".

(** A string with no [{] and no [}]: [str.format] copies it verbatim. *)
Fixpoint brace_free (s : string) : bool :=
  match s with
  | EmptyString => true
  | String c s' => negb (is_brace c) && brace_free s'
  end.

(** A template made of literal pieces [l0], [l1], ..., [ln] separated by
    [n] automatic fields [{}]. *)
Fixpoint holes (l0 : string) (ls : list string) : string :=
  match ls with
  | [] => l0
  | l :: ls' => l0 ++ "{}" ++ holes l ls'
  end.

(** The pieces with the fields replaced by the given strings, in order. *)
Fixpoint fill (l0 : string) (ls : list string) (args : list string) : string :=
  match ls, args with
  | l :: ls', a :: args' => l0 ++ a ++ fill l ls' args'
  | _, _ => l0
  end.

Definition is_none (v : Value) : bool := match v with VNone => true | _ => false end.

(** The literal pieces of [update T set k1 = {},k2 = {},... <post>] after
    the first field. *)
Fixpoint assign_pieces (ks : list string) (post : string) : list string :=
  match ks with
  | [] => [post]
  | k :: ks' => ("," ++ k ++ " = ") :: assign_pieces ks' post
  end.

(** The literal pieces of [... values ({},{},...) <post>] after the first
    field. *)
Fixpoint value_pieces (cs : list string) (post : string) : list string :=
  match cs with
  | [] => [post]
  | _ :: cs' => "," :: value_pieces cs' post
  end.

(** ** [RepositoryFactory.destroy], [delete] and [get] *)

Module Repository.
Import Factory.

(** [AsyncDriver.delete(table, where)]: the statement handed on by
    [execute(sql)], which calls [sql_params(sql)] with no parameters. *)
Definition db_delete (table where_ : string) : Result string :=
  let sql := "delete from " ++ table ++ " where "
             ++ (if String.eqb where_ EmptyString then "1=1" else where_) in
  sql_params sql [].

Definition table_of (obj : Model) : string :=
  match table obj with Some t => t | None => EmptyString end.

(** [getattr(obj, 'primary', 'id')]. *)
Definition seq_of (obj : Model) : string :=
  match primary obj with Some p => p | None => "id" end.

(** [RepositoryFactory.destroy(obj)]: [None] is [return 0]. *)
Definition destroy (obj : Model) : Result (option string) :=
  _ <-? check obj ;;
  let table := table_of obj in
  let seq := seq_of obj in
  let key := getattr obj seq in
  if truthy key then
    where_ <-? sql_params (seq ++ " = {}") [key] ;;
    sql <-? db_delete table where_ ;;
    Ok (Some sql)
  else Ok None.

(** [RepositoryFactory.delete(obj)]: [update(table, where=..., deleted=1)];
    [None] is [return 0]. *)
Definition delete (obj : Model) : Result (option (list string)) :=
  _ <-? check obj ;;
  let table := table_of obj in
  let seq := seq_of obj in
  let key := getattr obj seq in
  if truthy key then
    where_ <-? sql_params (seq ++ " = {}") [key] ;;
    stmts <-? db_update table where_ [("deleted", VInt 1)] ;;
    Ok (Some stmts)
  else Ok None.

(** [RepositoryFactory.get(obj)]: the statement [query] hands to
    [execute(sql, params=[])]. [properties(obj)] lists every dataclass
    field. *)
Definition get (obj : Model) : Result string :=
  _ <-? check obj ;;
  let table := table_of obj in
  let seq := seq_of obj in
  let params := map f_name (fields obj) in
  let key := getattr obj seq in
  if truthy key then
    w <-? sql_params (seq ++ " = {}") [key] ;;
    let sql := "select " ++ join "," params ++ " from " ++ table ++ " where " ++ w in
    sql_params sql []
  else Exc ValueError.

End Repository.

(** ** [AsyncDriver.insert_many] and the rows of [AsyncDriver.query] *)

Module AsyncRows.
Import Factory.

(** Evaluating [[f(x) for x in xs]]: the first exception propagates. *)
Fixpoint rmap {A B} (f : A -> Result B) (xs : list A) : Result (list B) :=
  match xs with
  | [] => Ok []
  | x :: xs' => y <-? f x ;; ys <-? rmap f xs' ;; Ok (y :: ys)
  end.

(** The local function [value_format] of [insert_many]. *)
Definition value_format (args : list Value) : Result string :=
  s <-? sql_params (join "," (map (fun _ => "{}") args)) args ;;
  Ok ("(" ++ s ++ ")").

(** [AsyncDriver.insert_many(table, _last, rows=rows)]: the statement handed
    on by [execute(sql)]; [None] is [return 0]. The [len(rows) > 0] test
    inside repeats the outer one, so its [else] branch is dead. *)
Definition insert_many (table _last : string) (rows : list Dict) : Result (option string) :=
  match rows with
  | [] => Ok None
  | r0 :: _ =>
      let columns := map fst r0 in
      vals <-? rmap (fun r => args <-? rmap (fun x => dict_index r x) columns ;;
                              value_format args) rows ;;
      let sql := "insert into " ++ table ++ " (" ++ join "," (map column_format columns)
                 ++ ") values " ++ join "," vals ++ " " ++ _last in
      sql <-? sql_params sql [] ;;
      Ok (Some sql)
  end.

(** The rows [query] returns when the cursor has a description:
    [obj[prop] = val] for [(prop, val)] in [zip(cols, row)]. *)
Definition json_row (cols : list string) (row : list Value) : Dict :=
  fold_left (fun obj pv => dict_set (fst pv) (snd pv) obj) (combine cols row) [].

Definition json_rows (cols : list string) (rows : list (list Value)) : list Dict :=
  match rows with
  | [] => []
  | _ => map (json_row cols) rows
  end.

End AsyncRows.

(** ** Builder objects sharing their lists

    [copy(query_wrapper)] in [Page.__init__] is a shallow copy: the copy
    gets its own attributes but shares the [_condition] and [_order] list
    objects. Here list objects live in a store, and a builder object holds
    references to them. *)

Module QWAlias.

Record Mem := mkMem { lists : nat -> list string; next_ref : nat }.

Record QWObj := mkQWObj { cond_ref : nat; order_ref : nat; last_s : string }.

Definition read (m : Mem) (r : nat) : list string := lists m r.

(** In-place update of the list object [r]. *)
Definition write (m : Mem) (r : nat) (l : list string) : Mem :=
  mkMem (fun r' => if Nat.eqb r' r then l else lists m r') (next_ref m).

(** A new list object. *)
Definition alloc (m : Mem) (l : list string) : nat * Mem :=
  (next_ref m, mkMem (fun r' => if Nat.eqb r' (next_ref m) then l else lists m r') (S (next_ref m))).

(** The builder's state as the value-level [QueryWrapper] reads it. *)
Definition view (m : Mem) (o : QWObj) : QueryWrapper.QueryWrapper :=
  QueryWrapper.mkQW (read m (cond_ref o)) (read m (order_ref o)) (last_s o).

Definition QueryWrapper_init (m : Mem) : QWObj * Mem :=
  let '(c, m1) := alloc m ["1=1"] in
  let '(od, m2) := alloc m1 [] in
  (mkQWObj c od EmptyString, m2).

(** [_base_op] appends to the list object [self._condition]. *)
Definition _base_op (m : Mem) (o : QWObj) (column_name : string) (value : Value)
  (op alias : string) : Mem :=
  write m (cond_ref o)
    (QueryWrapper._condition (QueryWrapper._base_op (view m o) column_name value op alias)).

Definition add_order (m : Mem) (o : QWObj) (order : string) (asc : bool) : Mem :=
  write m (order_ref o) (QueryWrapper._order (QueryWrapper.add_order (view m o) order asc)).

(** [last(sql)] rebinds the object's own [_last]. *)
Definition last (o : QWObj) (sql : string) : QWObj := mkQWObj (cond_ref o) (order_ref o) sql.

(** [copy.copy]: a new object with the same attribute values. *)
Definition copy (o : QWObj) : QWObj := mkQWObj (cond_ref o) (order_ref o) (last_s o).

(** [clear()]: a new [_condition] list, [self._order.clear()] in place,
    [_last] rebound. *)
Definition clear (m : Mem) (o : QWObj) : QWObj * Mem :=
  let '(c, m1) := alloc m ["1=1"] in
  (mkQWObj c (order_ref o) EmptyString, write m1 (order_ref o) []).

(** The wrapper of [Page(query_wrapper, offset, size)]: the copy, then
    [_structure]. *)
Definition page_wrapper (o : QWObj) (offset size : Z) : QWObj :=
  last (copy o) ("LIMIT " ++ z_str size ++ " OFFSET " ++ z_str offset).

End QWAlias.

(** ** [RepositoryFactory.update_batch], [create_batch] and [save_batch] *)

Module Batch.
Import Factory.

(** The keys of a dict comprehension over [names]: a repeated key keeps
    its first position. *)
Definition dict_keys (names : list string) : list string :=
  fold_left (fun ks n => if existsb (String.eqb n) ks then ks else List.app ks [n]) names [].

(** [updates[k].append(x)] on a dict of lists; [k] is always a key. *)
Fixpoint ld_append {A} (k : string) (x : A) (d : list (string * list A))
  : list (string * list A) :=
  match d with
  | [] => []
  | (k', l) :: d' => if String.eqb k k' then (k', List.app l [x]) :: d' else (k', l) :: ld_append k x d'
  end.

(** The keys of [updates]: the existing fields of the first record other
    than [version] and the key column. *)
Definition update_columns (obj : Model) (seq : string) : list string :=
  dict_keys (map f_name (filter (fun f => negb (String.eqb (f_name f) "version")
                                          && negb (String.eqb (f_name f) seq) && f_exists f)
                                (fields obj))).

Record BState := mkB {
  b_updates : list (string * list string);
  b_values : list (string * list Value);
  b_ids : list string;
  b_versions : list string;
  b_items : list Model
}.

(** [for k in updates: updates[k].append(when); values[k].append(params[k])]. *)
Fixpoint key_loop (keys : list string) (when : string) (params : Dict)
  (u : list (string * list string)) (vs : list (string * list Value))
  : Result (list (string * list string) * list (string * list Value)) :=
  match keys with
  | [] => Ok (u, vs)
  | k :: ks =>
      v <-? dict_index params k ;;
      key_loop ks when params (ld_append k when u) (ld_append k v vs)
  end.

(** The body of [for item in args]; [b_items] collects the records as the
    loop leaves them, [modify_time] set. The records declare [id] and
    [version] ([BaseModel]), read here with [getattr]. *)
Fixpoint item_loop (now : DateTime) (seq : string) (keys : list string)
  (items : list Model) (st : BState) : Result BState :=
  match items with
  | [] => Ok st
  | item :: rest =>
      _ <-? check item ;;
      let item := setattr item "modify_time" (VDateTime now) in
      params <-? to_table item ;;
      let when := "WHEN " ++ seq ++ " = " ++ py_str (getattr item "id") ++ " AND version = "
                  ++ py_str (getattr item "version") ++ " THEN " ++ "{}" ++ "
" in
      uv <-? key_loop keys when params (b_updates st) (b_values st) ;;
      let ids := List.app (b_ids st) [py_str (getattr item seq)] in
      v1 <-? incr (getattr item "version") ;;
      let versions := List.app (b_versions st)
                      ["WHEN " ++ seq ++ " = " ++ py_str (getattr item "id") ++ " AND version = "
                          ++ py_str (getattr item "version") ++ " THEN " ++ py_str v1 ++ "
"] in
      item_loop now seq keys rest (mkB (fst uv) (snd uv) ids versions (List.app (b_items st) [item]))
  end.

(** [RepositoryFactory.update_batch( *args)]: the statement handed to
    [execute(sql, params)] (the same string [_test] returns) and the records
    afterwards. [now] is [datetime.datetime.now()]. *)
Definition update_batch (now : DateTime) (args : list Model) : Result (string * list Model) :=
  match args with
  | [] => Exc IndexError
  | a0 :: _ =>
      _ <-? check a0 ;;
      let table := Repository.table_of a0 in
      let seq := Repository.seq_of a0 in
      let keys := update_columns a0 seq in
      let updates := map (fun k => (k, [])) keys in
      let values := map (fun k => (k, [])) keys in
      st <-? item_loop now seq keys args (mkB updates values [] [] []) ;;
      let setter := map (fun xl => "
" ++ fst xl ++ " = CASE
" ++ join EmptyString (snd xl) ++ " ELSE "
                                   ++ fst xl ++ " END") (b_updates st) in
      let versions := ["
version = CASE
" ++ join EmptyString (b_versions st) ++ " ELSE version END"] in
      let sql := "UPDATE " ++ table ++ " SET " ++ join ", " (List.app setter versions)
                 ++ " WHERE id IN (" ++ join "," (b_ids st) ++ ")" in
      let params := List.concat (map snd (b_values st)) in
      sql <-? sql_params sql params ;;
      Ok (sql, b_items st)
  end.

End Batch.

(** ** Formatting a template piece by piece

    [Fmt T B E]: wherever [T] starts a template, in automatic numbering,
    [str.format] turns it into [E] and consumes the arguments [B] at the
    current position; the rest of the template carries on after them. *)

Module FmtStream.

Definition md_after (md : fmode) (B : list string) : fmode :=
  match B with [] => md | _ => FAuto end.

Definition Fmt (T : string) (B : list string) (E : string) : Prop :=
  forall (pre post : list string) (r : string) (md : fmode), md <> FManual ->
    fmt_go (T ++ r) LNormal (List.length pre) md (List.app pre (List.app B post))
    = (x <-? fmt_go r LNormal (List.length pre + List.length B) (md_after md B)
                    (List.app pre (List.app B post)) ;;
       Ok (E ++ x)).

End FmtStream.

(** ** The statement [update_batch] is expected to send

    Every [{}] of the template replaced by the rendered value of its
    record and column. *)

Module BatchSpec.
Import Factory.

(** [item.modify_time = now]. *)
Definition stamp (now : DateTime) (it : Model) : Model :=
  setattr it "modify_time" (VDateTime now).

(** [item.to_table()[k]] of the stamped record. *)
Definition cell (now : DateTime) (it : Model) (k : string) : Value :=
  match to_table (stamp now it) with
  | Ok d => match dict_get k d with Some v => v | None => VNone end
  | Exc _ => VNone
  end.

Definition next_version (now : DateTime) (it : Model) : string :=
  match getattr (stamp now it) "version" with VInt z => z_str (z + 1) | _ => EmptyString end.

Definition when_prefix (now : DateTime) (seq : string) (it : Model) : string :=
  "WHEN " ++ seq ++ " = " ++ py_str (getattr (stamp now it) "id") ++ " AND version = "
  ++ py_str (getattr (stamp now it) "version") ++ " THEN ".

(** A record [update_batch] goes through: it passes [check], its stamped
    [to_table()] has every column of [keys], and its version is an [int]. *)
Definition item_ok (now : DateTime) (keys : list string) (it : Model) : Prop :=
  check it = Ok tt
  /\ (exists d, to_table (stamp now it) = Ok d /\ Forall (fun k => dict_get k d <> None) keys)
  /\ (exists z, getattr (stamp now it) "version" = VInt z).

Definition update_batch_sql (now : DateTime) (a0 : Model) (args : list Model) : string :=
  let seq := Repository.seq_of a0 in
  let keys := Batch.update_columns a0 seq in
  "UPDATE " ++ Repository.table_of a0 ++ " SET "
  ++ join ", " (List.app
       (map (fun k => "
" ++ k ++ " = CASE
"
                      ++ join EmptyString (map (fun it => when_prefix now seq it
                                                  ++ sql_param (cell now it k) ++ "
") args)
                      ++ " ELSE " ++ k ++ " END") keys)
       ["
version = CASE
" ++ join EmptyString (map (fun it => when_prefix now seq it ++ next_version now it ++ "
") args)
        ++ " ELSE version END"])
  ++ " WHERE id IN (" ++ join "," (map (fun it => py_str (getattr (stamp now it) seq)) args) ++ ")".

End BatchSpec.

(** [create_batch] and [save_batch]: the statements sent; [None] is
    [spin_flake]'s, as for [save]. *)

Module BatchInsert.
Import Factory.

Definition insert_rows (table _last : string) (args : list Model) : Result (list string) :=
  items <-? AsyncRows.rmap to_table args ;;
  r <-? AsyncRows.insert_many table _last items ;;
  Ok (match r with Some s => [s] | None => [] end).

Definition save_stmts (auto_increment : bool) (now : DateTime) (machine_id : Z)
  (fs : Snowflake.FlakeState) (ticks : list Z) (obj : Model) : option (Result (list string)) :=
  option_map (fun r => x <-? r ;; let '(stmts, _, _) := x in Ok stmts)
    (save auto_increment now machine_id fs ticks obj).

(** [RepositoryFactory.create_batch( *args)]. *)
Definition create_batch (auto_increment : bool) (now : DateTime) (machine_id : Z)
  (fs : Snowflake.FlakeState) (ticks : list Z) (args : list Model) : option (Result (list string)) :=
  match args with
  | [] => Some (Exc IndexError)
  | a0 :: rest =>
      match check a0 with
      | Exc e => Some (Exc e)
      | Ok _ =>
          let table := Repository.table_of a0 in
          match rest with
          | _ :: _ => Some (insert_rows table EmptyString args)
          | [] => save_stmts auto_increment now machine_id fs ticks a0
          end
      end
  end.

(** The [ON DUPLICATE KEY UPDATE] assignments of [save_batch]. *)
Definition upsert_updates (obj : Model) (seq : string) : list string :=
  map (fun f => f_name f ++ "=values(" ++ f_name f ++ ")")
    (filter (fun f => negb (String.eqb (f_name f) seq) && f_exists f) (fields obj)).

(** [RepositoryFactory.save_batch( *args)]. *)
Definition save_batch (auto_increment : bool) (now : DateTime) (machine_id : Z)
  (fs : Snowflake.FlakeState) (ticks : list Z) (args : list Model) : option (Result (list string)) :=
  match args with
  | [] => Some (Exc IndexError)
  | a0 :: rest =>
      match check a0 with
      | Exc e => Some (Exc e)
      | Ok _ =>
          let table := Repository.table_of a0 in
          let seq := Repository.seq_of a0 in
          let updates := upsert_updates a0 seq in
          match rest with
          | _ :: _ => Some (insert_rows table ("ON DUPLICATE KEY UPDATE " ++ join "," updates) args)
          | [] => save_stmts auto_increment now machine_id fs ticks a0
          end
      end
  end.

End BatchInsert.

(** * Concrete inputs *)

Definition claimed_segment : string := "1=1 and status = 1 and name like '%O''Brien%'  ".

(** Two builders: [A] (reference 0) built by [eq('a', 1)] and [B]
    (reference 1) by [eq('b', 2)]. *)
Definition heap0 : QueryWrapper.Heap := fun r =>
  match r with
  | 0 => QueryWrapper.eq QueryWrapper.QueryWrapper_new "a" (VInt 1) EmptyString
  | _ => QueryWrapper.eq QueryWrapper.QueryWrapper_new "b" (VInt 2) EmptyString
  end.

Definition dt_with_micros : DateTime := mkDateTime 2024 1 2 3 4 5 678.

Definition backend_fail : string -> Driver.Outcome := fun _ => Driver.Raises "syntax error".

Definition now0 : DateTime := mkDateTime 2026 10 14 12 0 0 0.

(** A fresh [BaseModel] record of table [user] with no id, and a stored one
    with id 42 at version 3. *)
Definition fresh_user : Factory.Model :=
  Factory.mkModel (Some "user") None (Factory.base_fields VNone (VInt 0) (VInt 0) VNone VNone).

Definition stored_user : Factory.Model :=
  Factory.mkModel (Some "user") None (Factory.base_fields (VInt 42) (VInt 3) (VInt 0) VNone VNone).

(** * Theorems *)

(** ** Query builder *)

(** C4 (code_bug): [QueryWrapper().eq('status', 1).like('name', "O'Brien")]
    renders its segment with the quote of [O'Brien] doubled twice, once by
    [_like_filter] and again by [_format_value]: the pattern is
    [%O''''Brien%], not the [%O''Brien%] the claim states. *)
Theorem like_quote_escaped_twice :
  sql_segment
    (QueryWrapper.like
       (QueryWrapper.eq QueryWrapper.QueryWrapper_new "status" (VInt 1) EmptyString)
       "name" (VStr "O'Brien") EmptyString)
  = "1=1 and status = 1 and name like '%O''''Brien%'  "
  /\ sql_segment
    (QueryWrapper.like
       (QueryWrapper.eq QueryWrapper.QueryWrapper_new "status" (VInt 1) EmptyString)
       "name" (VStr "O'Brien") EmptyString) <> claimed_segment.
Proof.
  split; vm_compute; [reflexivity | discriminate].
Qed.

(** C10: [include] with no value raises [IndexError] and leaves the builder
    alone; with at least one value it appends exactly one [<column> in (...)]
    predicate and changes nothing else. *)
Theorem include_empty_raises_nonempty_appends :
  forall (q : QueryWrapper) (column_name alias : string),
    QueryWrapper.include q column_name [] alias = Exc IndexError
    /\ forall (v : Value) (vs : list Value),
      QueryWrapper.include q column_name (v :: vs) alias
      = Ok (mkQW (_condition q ++
                  [QueryWrapper.qualify column_name alias ++ " in ("
                   ++ join "," (map QueryWrapper._format_value (v :: vs)) ++ ")"])
                 (_order q) (_last q)).
Proof.
  intros q column_name alias; split; [reflexivity | intros v vs; reflexivity].
Qed.

(** C5 (counterexample): [A.xor(B)] mutates [A]: [A]'s condition list is
    [['1=1', 'a = 1']] before and [['((1=1 and a = 1) or (1=1 and b = 2))']]
    after. *)
Lemma xor_mutates_receiver :
  _condition (fst (QueryWrapper.xor_at heap0 0 1) 0) <> _condition (heap0 0)
  /\ _condition (fst (QueryWrapper.xor_at heap0 0 1) 0)
     = ["((1=1 and a = 1) or (1=1 and b = 2))"].
Proof.
  split; vm_compute; [discriminate | reflexivity].
Qed.

(** C5 (amended): [A.xor(B)] returns [A] itself after replacing [A]'s
    condition list by the single predicate [((A) or (B))] (the two lists
    joined by [and]); [A]'s ordering and trailing clause are kept, and every
    other builder, [B] included when it is a different object, is unchanged. *)
Theorem xor_rebinds_receiver_only :
  forall (h : QueryWrapper.Heap) (a b : nat),
    snd (QueryWrapper.xor_at h a b) = a
    /\ forall r : nat,
      fst (QueryWrapper.xor_at h a b) r
      = if Nat.eqb r a
        then mkQW ["((" ++ join " and " (_condition (h a)) ++ ") or ("
                   ++ join " and " (_condition (h b)) ++ "))"]
                  (_order (h a)) (_last (h a))
        else h r.
Proof.
  intros h a b; split; [reflexivity | intro r; reflexivity].
Qed.

(** ** Parameter substitution *)

(** C9: a [bool] argument is not rendered as a number: [sql_params] quotes
    its [str], [True] as ['True'] and [False] as ['False']. *)
Theorem sql_params_bool_quoted :
  forall b : bool,
    sql_param (VBool b) = (if b then "'True'" else "'False'")
    /\ sql_params "{}" [VBool b] = Ok (if b then "'True'" else "'False'").
Proof.
  intros []; split; reflexivity.
Qed.

(** C7 (code_bug): [sql_params] renders a [datetime.datetime] as
    ['str(p)'], and [str] appends the microseconds when they are non-zero:
    [datetime(2024, 1, 2, 3, 4, 5, 678)] becomes
    ['2024-01-02 03:04:05.000678'], not ['YYYY-MM-DD HH:MM:SS']. *)
Theorem sql_params_datetime_keeps_micros :
  sql_params "{}" [VDateTime dt_with_micros] = Ok "'2024-01-02 03:04:05.000678'"
  /\ sql_params "{}" [VDateTime dt_with_micros]
     <> Ok ("'" ++ strftime_ymdhms dt_with_micros ++ "'").
Proof.
  split; vm_compute; [reflexivity | discriminate].
Qed.

Lemma append_EmptyString_r : forall s : string, s ++ EmptyString = s.
Proof. induction s as [|c s IH]; simpl; [reflexivity | now rewrite IH]. Qed.

(** Without microseconds the literal is exactly ['YYYY-MM-DD HH:MM:SS'],
    the form [QueryWrapper._format_value] always uses. *)
Lemma sql_param_datetime_no_micros :
  forall d : DateTime, dt_microsecond d = 0%Z ->
    sql_param (VDateTime d) = "'" ++ strftime_ymdhms d ++ "'"
    /\ sql_param (VDateTime d) = QueryWrapper._format_value (VDateTime d).
Proof.
  intros d Hd. unfold sql_param, py_str, datetime_str. rewrite Hd. simpl.
  rewrite append_EmptyString_r. split; reflexivity.
Qed.

(** ** Pagination *)

(** C8: from [Page(wrapper, offset=0, size=10)] with [total = 25], [next()]
    moves the offset to 10, then 20, then leaves it at 20; in general
    [next()] adds [size] to the offset exactly when
    [total >= offset + size], rebuilding the trailing clause as
    [LIMIT <size> OFFSET <offset>], and otherwise changes nothing. *)
Theorem page_next_spec :
  (let p := Page.set_total (Page.Page_new QueryWrapper.QueryWrapper_new 0 10) 25 in
   Page.offset (Page.next p) = 10%Z
   /\ Page.offset (Page.next (Page.next p)) = 20%Z
   /\ Page.offset (Page.next (Page.next (Page.next p))) = 20%Z)
  /\ forall p : Page.Page,
    if Z.leb (Page.offset p + Page.size p) (Page.total p) then
      Page.offset (Page.next p) = (Page.offset p + Page.size p)%Z
      /\ Page.size (Page.next p) = Page.size p
      /\ _last (Page.wrapper (Page.next p))
         = "LIMIT " ++ z_str (Page.size p) ++ " OFFSET " ++ z_str (Page.offset p + Page.size p)
    else Page.next p = p.
Proof.
  split.
  - vm_compute. repeat split.
  - intro p. unfold Page.next.
    destruct (Z.leb (Page.offset p + Page.size p) (Page.total p)); repeat split.
Qed.

(** ** Snowflake identifiers *)

Module SnowflakeFacts.
Import Snowflake.
Local Open Scope Z_scope.

Definition nonzero (v : Z) : bool := negb (Z.eqb v 0).

(** Reachable sequence numbers stay in [0, 2^10]. *)
Definition seq_ok (st : FlakeState) : Prop := 0 <= _last_sequence st <= 1024.

Lemma pack_spec : forall m lp c, pack m lp c = lp * 4194304 + m * 1024 + c.
Proof.
  intros m lp c. unfold pack, _sequence_length.
  rewrite !Z.shiftl_mul_pow2 by lia. reflexivity.
Qed.

(** A later tick, or the same tick with a larger sequence number, gives a
    larger identifier. *)
Lemma pack_lt : forall m p1 c1 p2 c2,
  0 <= c1 <= 1024 -> 0 <= c2 ->
  (p1 < p2 \/ (p1 = p2 /\ c1 < c2)) -> pack m p1 c1 < pack m p2 c2.
Proof.
  intros m p1 c1 p2 c2 H1 H2 [Hp | [Hp Hc]]; rewrite !pack_spec; nia.
Qed.

(** One call from a reachable state at a tick no earlier than the recorded
    one: either the sequence is exhausted ([0], state unchanged) or the
    identifier is the packed value of the new state and exceeds the packed
    value of the old one. *)
Lemma flake_step : forall m p st,
  seq_ok st -> _last_point st <= p ->
  let '(v, st') := flake m p st in
  seq_ok st' /\ _last_point st' = p
  /\ ((v = 0 /\ st' = st)
      \/ (v = pack m (_last_point st') (_last_sequence st')
          /\ pack m (_last_point st) (_last_sequence st) < v)).
Proof.
  intros m p [lp ls] Hok Hp. unfold seq_ok in *; simpl in *.
  unfold flake; simpl.
  destruct (Z.eqb_spec lp p) as [<- | Hne].
  - destruct (Z.ltb_spec 1024 (ls + 1)) as [Hx | Hx]; simpl.
    + repeat split; try lia. left; split; reflexivity.
    + repeat split; try lia. right; split; [reflexivity|].
      apply pack_lt; lia.
  - simpl. repeat split; try lia. right; split; [reflexivity|].
    apply pack_lt; lia.
Qed.

Lemma nondecreasing_cons : forall p ps,
  nondecreasing (p :: ps) = true -> nondecreasing ps = true /\ Forall (fun q => p <= q) ps.
Proof.
  intros p ps. revert p. induction ps as [|q ps IH]; intros p H.
  - split; [reflexivity | constructor].
  - simpl in H. apply andb_prop in H as [Hpq Hrest]. apply Z.leb_le in Hpq.
    split; [exact Hrest|].
    destruct (IH q Hrest) as [_ Hq]. constructor; [lia|].
    eapply Forall_impl; [|exact Hq]. intros x Hx; simpl in Hx; lia.
Qed.

(** Over a non-decreasing run from a reachable state, every output is
    [0] or exceeds the packed value of the starting state, and the non-zero
    outputs are strictly increasing. *)
Lemma run_increasing : forall m ticks st,
  seq_ok st -> nondecreasing ticks = true ->
  Forall (fun q => _last_point st <= q) ticks ->
  Forall (fun v => v = 0 \/ pack m (_last_point st) (_last_sequence st) < v)
         (fst (run m st ticks))
  /\ StronglySorted Z.lt (filter nonzero (fst (run m st ticks))).
Proof.
  intros m ticks. induction ticks as [|p ps IH]; intros st Hok Hnd Hge.
  - simpl. split; constructor.
  - inversion Hge as [|x y Hp Hps]; subst.
    destruct (nondecreasing_cons p ps Hnd) as [Hnd' Hge'].
    simpl. pose proof (flake_step m p st Hok Hp) as Hstep.
    destruct (flake m p st) as [v st1] eqn:Hf.
    destruct Hstep as [Hok1 [Hlp1 Hcase]].
    assert (Hge1 : Forall (fun q => _last_point st1 <= q) ps) by (rewrite Hlp1; exact Hge').
    destruct (IH st1 Hok1 Hnd' Hge1) as [Hall Hsorted].
    destruct (run m st1 ps) as [vs st2] eqn:Hr. simpl in *.
    destruct Hcase as [[Hv Hst] | [Hv Hlt]].
    + subst v st1. split.
      * constructor; [left; reflexivity | exact Hall].
      * exact Hsorted.
    + split.
      * constructor; [right; exact Hlt|].
        eapply Forall_impl; [|exact Hall]. intros x [Hx | Hx]; [left; exact Hx | right; lia].
      * unfold nonzero at 1. destruct (Z.eqb_spec v 0) as [Hz | Hz]; simpl; [exact Hsorted|].
        constructor; [exact Hsorted|].
        apply Forall_forall. intros x Hx. apply filter_In in Hx as [Hx Hnz].
        rewrite Forall_forall in Hall. destruct (Hall x Hx) as [H0 | H0].
        -- subst x. discriminate Hnz.
        -- lia.
Qed.

Lemma StronglySorted_lt_NoDup : forall l : list Z, StronglySorted Z.lt l -> NoDup l.
Proof.
  induction l as [|x l IH]; intro H; constructor.
  - inversion H as [|y k Hs Hf]; subst. intro Hin.
    rewrite Forall_forall in Hf. specialize (Hf x Hin). lia.
  - inversion H; subst. apply IH; assumption.
Qed.

End SnowflakeFacts.

(** C6: for a machine id [m]:
    (1) a call in the recorded tick that does not exhaust the sequence
        ([_last_sequence + 1 <= 2^10]) returns the packed value with the
        sequence number increased by one;
    (2) a call in a later tick resets the sequence to [0] and records the
        new, larger tick, the prefix of the packed value;
    (3) over any non-decreasing sequence of ticks from the process start,
        no two calls return the same non-zero value (indeed the non-zero
        values are strictly increasing). *)
Theorem flake_sequence_and_uniqueness : forall m : Z,
  (forall (st : Snowflake.FlakeState) (p : Z),
     Z.eqb (Snowflake._last_point st) p = true ->
     Z.leb (Snowflake._last_sequence st + 1) (2 ^ 10) = true ->
     let '(v, st') := Snowflake.flake m p st in
     Snowflake._last_point st' = p
     /\ Snowflake._last_sequence st' = (Snowflake._last_sequence st + 1)%Z
     /\ (Snowflake._last_sequence st < Snowflake._last_sequence st')%Z
     /\ v = Snowflake.pack m p (Snowflake._last_sequence st'))
  /\ (forall (st : Snowflake.FlakeState) (p : Z),
     Z.ltb (Snowflake._last_point st) p = true ->
     let '(v, st') := Snowflake.flake m p st in
     Snowflake._last_sequence st' = 0%Z
     /\ Snowflake._last_point st' = p
     /\ (Snowflake._last_point st < Snowflake._last_point st')%Z
     /\ v = Snowflake.pack m p 0)
  /\ (forall ticks : list Z,
     Snowflake.nondecreasing ticks = true ->
     NoDup (filter SnowflakeFacts.nonzero (fst (Snowflake.run m Snowflake.init ticks)))
     /\ StronglySorted Z.lt
          (filter SnowflakeFacts.nonzero (fst (Snowflake.run m Snowflake.init ticks)))).
Proof.
  intro m. split; [|split].
  - intros [lp ls] p Hp Hn. simpl in *. apply Z.eqb_eq in Hp. subst p.
    apply Z.leb_le in Hn. unfold Snowflake.flake, Snowflake._sequence_length; simpl.
    rewrite Z.eqb_refl.
    destruct (Z.ltb_spec 1024 (ls + 1)); [lia|]. simpl. repeat split; lia.
  - intros [lp ls] p Hp. simpl in *. apply Z.ltb_lt in Hp.
    unfold Snowflake.flake; simpl.
    destruct (Z.eqb_spec lp p); [lia|]. simpl. repeat split; lia.
  - intros ticks Hnd.
    assert (Hs : StronglySorted Z.lt
                   (filter SnowflakeFacts.nonzero (fst (Snowflake.run m Snowflake.init ticks)))).
    { destruct ticks as [|p ps]; [constructor|].
      destruct (SnowflakeFacts.nondecreasing_cons p ps Hnd) as [Hnd' Hge'].
      simpl.
      destruct (Snowflake.flake m p Snowflake.init) as [v st1] eqn:Hf.
      assert (Hst1 : SnowflakeFacts.seq_ok st1 /\ Snowflake._last_point st1 = p
                     /\ v = Snowflake.pack m p (Snowflake._last_sequence st1)).
      { unfold Snowflake.flake in Hf.
        cbn [Snowflake._last_point Snowflake._last_sequence Snowflake.init] in Hf.
        destruct (Z.eqb_spec 0 p) as [<- | Hne].
        - simpl in Hf. inversion Hf; subst. unfold SnowflakeFacts.seq_ok; simpl.
          repeat split; try reflexivity; lia.
        - inversion Hf; subst. unfold SnowflakeFacts.seq_ok; simpl.
          repeat split; try reflexivity; lia. }
      destruct Hst1 as [Hok1 [Hlp1 Hv]].
      assert (Hge1 : Forall (fun q => Snowflake._last_point st1 <= q)%Z ps)
        by (rewrite Hlp1; exact Hge').
      destruct (SnowflakeFacts.run_increasing m ps st1 Hok1 Hnd' Hge1) as [Hall Hsorted].
      destruct (Snowflake.run m st1 ps) as [vs st2] eqn:Hr. simpl in *.
      unfold SnowflakeFacts.nonzero at 1.
      destruct (Z.eqb_spec v 0) as [Hz | Hz]; simpl; [exact Hsorted|].
      constructor; [exact Hsorted|].
      apply Forall_forall. intros x Hx. apply filter_In in Hx as [Hx Hnz].
      rewrite Forall_forall in Hall. destruct (Hall x Hx) as [H0 | H0].
      - subst x. discriminate Hnz.
      - rewrite Hv, <- Hlp1. exact H0. }
    split; [apply SnowflakeFacts.StronglySorted_lt_NoDup|]; exact Hs.
Qed.

(** Three calls in tick 5, then one in tick 6, on machine 7. *)
Lemma flake_sequence_and_uniqueness_witness :
  NoDup (filter SnowflakeFacts.nonzero (fst (Snowflake.run 7 Snowflake.init [5; 5; 5; 6]%Z))).
Proof.
  apply (proj2 (proj2 (flake_sequence_and_uniqueness 7%Z)) [5; 5; 5; 6]%Z).
  reflexivity.
Defined.

(** ** Synchronous driver: context and transaction stack *)

Module DriverFacts.
Import Driver.

(** [m] leaves the store's [config] attribute as it found it. *)
Definition keeps {A} (m : M A) : Prop :=
  forall s, st_config (d_ctx (snd (m s))) = st_config (d_ctx s).

Create HintDb keeps.

Lemma keeps_ret : forall A (a : A), keeps (ret a).
Proof. intros A a s; reflexivity. Qed.

Lemma keeps_throw : forall A e, keeps (@throw A e).
Proof. intros A e s; reflexivity. Qed.

Lemma keeps_lift : forall A (r : Result A), keeps (lift r).
Proof. intros A r s; reflexivity. Qed.

Lemma keeps_get : keeps get.
Proof. intros s; reflexivity. Qed.

Lemma keeps_bind : forall A B (m : M A) (k : A -> M B),
  keeps m -> (forall a, keeps (k a)) -> keeps (bind m k).
Proof.
  intros A B m k Hm Hk s. unfold bind.
  specialize (Hm s). destruct (m s) as [[a|e] s'] eqn:E; simpl in *.
  - rewrite Hk; exact Hm.
  - exact Hm.
Qed.

Lemma keeps_catch : forall A (m : M A) (h : Exn -> M A),
  keeps m -> (forall e, keeps (h e)) -> keeps (catch m h).
Proof.
  intros A m h Hm Hh s. unfold catch.
  specialize (Hm s). destruct (m s) as [[a|e] s'] eqn:E; simpl in *.
  - exact Hm.
  - rewrite Hh; exact Hm.
Qed.

Lemma keeps_emit : forall ev, keeps (emit ev).
Proof. intros ev s; reflexivity. Qed.

Lemma keeps_set_cursor : forall c, keeps (set_cursor c).
Proof. intros c s; reflexivity. Qed.

Lemma keeps_set_transactions : forall t, keeps (set_transactions t).
Proof. intros t s; reflexivity. Qed.

Lemma keeps_unload : keeps _unload_context.
Proof. intros s. unfold _unload_context, read_db, bind, get. destruct (st_db (d_ctx s)) eqn:E; simpl; congruence. Qed.

Lemma keeps_load : keeps _load_context.
Proof. intros [st cur [|] ign nx [|i idle] log]; reflexivity. Qed.

Lemma keeps_read_db : keeps read_db.
Proof. intros s. unfold read_db, bind, get. destruct (st_db (d_ctx s)) eqn:E; simpl; congruence. Qed.

Lemma keeps_read_transactions : keeps read_transactions.
Proof. intros s. unfold read_transactions, bind, get. destruct (st_transactions (d_ctx s)) eqn:E; simpl; congruence. Qed.

Lemma keeps_read_config : keeps read_config.
Proof. intros s. unfold read_config, bind, get. destruct (st_config (d_ctx s)) eqn:E; simpl; congruence. Qed.

#[local] Hint Resolve keeps_ret keeps_throw keeps_lift keeps_get keeps_emit keeps_set_cursor
  keeps_set_transactions keeps_unload keeps_load keeps_read_db keeps_read_transactions
  keeps_read_config : keeps.

Ltac keeps_tac :=
  repeat (match goal with
          | |- keeps (bind _ _) => apply keeps_bind; [|intro]
          | |- keeps (catch _ _) => apply keeps_catch; [|intro]
          | |- keeps (match ?x with _ => _ end) => destruct x
          | |- _ => progress cbv zeta
          | |- _ => solve [eauto with keeps]
          end).

Lemma keeps_get_ctx : keeps _get_ctx.
Proof. unfold _get_ctx. keeps_tac. Qed.

Lemma keeps_ctx_commit : forall u, keeps (ctx_commit u).
Proof. intro u. unfold ctx_commit. keeps_tac. Qed.

Lemma keeps_ctx_rollback : keeps ctx_rollback.
Proof. unfold ctx_rollback. keeps_tac. Qed.

#[local] Hint Resolve keeps_get_ctx keeps_ctx_commit keeps_ctx_rollback : keeps.

Section WithBackend.
Variable backend : string -> Outcome.

Lemma keeps_cursor : keeps cursor.
Proof. unfold cursor. keeps_tac. Qed.
#[local] Hint Resolve keeps_cursor : keeps.

Lemma keeps__execute : forall sql, keeps (_execute backend sql).
Proof. intro sql. unfold _execute. keeps_tac. Qed.
#[local] Hint Resolve keeps__execute : keeps.

Lemma keeps_execute : forall sql params tr, keeps (execute backend sql params tr).
Proof. intros sql params tr. unfold execute. keeps_tac. Qed.
#[local] Hint Resolve keeps_execute : keeps.

Lemma keeps_engine_query : forall n q, keeps (engine_query backend n q).
Proof. intros n q. unfold engine_query. keeps_tac. Qed.
#[local] Hint Resolve keeps_engine_query : keeps.

Lemma keeps_run_op : forall o, keeps (run_op backend o).
Proof.
  intros [sql params tr | | t | t]; unfold run_op, transaction, Transaction_init, commit, rollback,
    engine_transact, engine_commit, engine_rollback; keeps_tac.
Qed.

(** No client call ever gives the store a [config] attribute. *)
Lemma run_ops_keeps_config : forall os s,
  st_config (d_ctx (run_ops backend os s)) = st_config (d_ctx s).
Proof.
  induction os as [|o os IH]; intro s; simpl; [reflexivity|].
  rewrite IH. apply keeps_run_op.
Qed.

(** Had the store carried [config] with [ignore_nested_transactions] set,
    a nested [Transaction] would have used the dummy engine: constructing
    it and committing it would leave the state exactly as it was. *)
Lemma dummy_engine_begin_commit_noop : forall s t ts,
  st_config (d_ctx s) = Some true ->
  st_transactions (d_ctx s) = Some (t :: ts) ->
  exists self s1,
    Transaction_init backend s = (Ok self, s1)
    /\ engine self = dummy_engine
    /\ commit backend self s1 = (Ok tt, s).
Proof.
  intros [[db trs cfg] cur pool ign nx idle log] t ts Hc Ht; simpl in *; subst.
  eexists; eexists; split.
  { unfold Transaction_init, read_transactions, read_config, set_transactions,
      engine_transact, bind, get, ret, set_store, modify; cbn. reflexivity. }
  split; [reflexivity|].
  unfold commit, read_transactions, set_transactions, engine_commit, bind, get, ret,
    set_store, modify; cbn.
  rewrite length_app; simpl.
  rewrite Nat.add_1_r, Nat.leb_refl. cbn.
  rewrite firstn_app. simpl. rewrite firstn_all, Nat.sub_diag. simpl.
  rewrite app_nil_r. reflexivity.
Qed.

End WithBackend.

Definition is_connect (ev : Event) : bool :=
  match ev with EvConnect _ => true | _ => false end.

End DriverFacts.

(** C1 (code_bug): the nested-transaction path reads
    [self.ctx.config['ignore_nested_transactions']] from the thread-local
    store, but the flag lives in the driver's [self.config] and no code sets
    [config] on the store. So in every state a client can reach from a
    fresh driver, with the flag at its default [True], constructing a
    [Transaction] while the stack is non-empty raises [AttributeError]
    (before any engine runs and without touching the state) instead of being
    a no-op. *)
Theorem nested_transaction_raises_attribute_error :
  forall (backend : string -> Driver.Outcome) (has_pooling : bool) (ops : list Driver.Op)
         (t : Driver.Transaction) (ts : list Driver.Transaction),
    let s := Driver.run_ops backend ops (Driver.init_state has_pooling true) in
    Driver.st_transactions (Driver.d_ctx s) = Some (t :: ts) ->
    Driver.Transaction_init backend s = (Exc AttributeError, s).
Proof.
  intros backend has_pooling ops t ts s Ht.
  pose proof (DriverFacts.run_ops_keeps_config backend ops (Driver.init_state has_pooling true)) as Hc.
  fold s in Hc. simpl in Hc.
  unfold Driver.Transaction_init, Driver.read_transactions, Driver.read_config,
    Driver.bind, Driver.get.
  rewrite Ht. simpl. rewrite Hc. reflexivity.
Qed.

(** One top-level [Transaction] opened on a fresh pooled driver, then a
    nested one. *)
Lemma nested_transaction_raises_attribute_error_witness :
  let s := Driver.run_ops (fun _ => Driver.Rows 0) [Driver.OTransaction] (Driver.init_state true true) in
  Driver.st_transactions (Driver.d_ctx s)
    = Some [Driver.mkTransaction 0 Driver.base_engine]
  /\ Driver.Transaction_init (fun _ => Driver.Rows 0) s = (Exc AttributeError, s).
Proof.
  split; [reflexivity|].
  apply (nested_transaction_raises_attribute_error (fun _ => Driver.Rows 0) true
           [Driver.OTransaction] (Driver.mkTransaction 0 Driver.base_engine) []).
  reflexivity.
Defined.

(** ** Statement errors *)

(** C2 (counterexample): with a transaction argument, a failing statement
    is logged and re-raised, but [Driver.execute] itself issues no rollback. *)
Lemma execute_in_transaction_no_rollback :
  let r := Driver.execute backend_fail "select 1" [] true
             (Driver.init_state true true) in
  fst r = Exc (DriverError "syntax error")
  /\ In (Driver.EvLogError "ERR: select 1") (Driver.d_log (snd r))
  /\ ~ (exists c, In (Driver.EvRollback c) (Driver.d_log (snd r))).
Proof.
  vm_compute. split; [reflexivity|]. split; [right; right; left; reflexivity|].
  intros [c Hc]. simpl in Hc. intuition discriminate.
Qed.

Ltac close_log2 :=
  first [ exists []%list; eexists; split; [rewrite <- ?app_assoc; reflexivity | reflexivity]
        | match goal with
          | |- context [Driver.EvConnect ?x] =>
              exists [Driver.EvConnect x]; eexists; split; [rewrite <- ?app_assoc; reflexivity | reflexivity]
          end ].

Ltac close_log4 :=
  first [ exists []%list; eexists; exists []%list; eexists; split; [rewrite <- ?app_assoc; reflexivity | reflexivity]
        | match goal with
          | |- context [Driver.EvConnect ?x] =>
              first [ exists []%list; eexists; exists [Driver.EvConnect x]; eexists; split;
                        [rewrite <- ?app_assoc; reflexivity | reflexivity]
                    | exists [Driver.EvConnect x]; eexists; exists []%list; eexists; split;
                        [rewrite <- ?app_assoc; reflexivity | reflexivity] ]
          end ].

(** C2 (amended): when the underlying cursor raises on the substituted SQL
    [sql'], [Driver._execute] logs [ERR: <sql'>]; with a transaction
    argument [Driver.execute] re-raises the error and issues no rollback or
    commit itself (the enclosing transaction scope rolls back); without one
    it rolls the context back after the log line. Only connections opened
    on the way may come between these events. *)
Theorem execute_error_logged_rollback_by_scope :
  forall (backend : string -> Driver.Outcome) (s : Driver.DState)
         (sql : string) (params : list Value) (sql' msg : string),
    sql_params sql params = Ok sql' ->
    backend sql' = Driver.Raises msg ->
    (fst (Driver.execute backend sql params true s) = Exc (DriverError msg)
     /\ exists pre c,
          Driver.d_log (snd (Driver.execute backend sql params true s))
          = (Driver.d_log s ++ pre
             ++ [Driver.EvExecute c sql'; Driver.EvLogError ("ERR: " ++ sql')%string])%list
          /\ forallb DriverFacts.is_connect pre = true)
    /\ (exists pre c mid c',
          Driver.d_log (snd (Driver.execute backend sql params false s))
          = (Driver.d_log s ++ pre
             ++ [Driver.EvExecute c sql'; Driver.EvLogError ("ERR: " ++ sql')%string]
             ++ mid ++ [Driver.EvRollback c'])%list
          /\ forallb DriverFacts.is_connect (pre ++ mid)%list = true).
Proof.
  intros backend [[db trs cfg] cur pool ign nx idle log] sql params sql' msg Hsql Hb.
  unfold Driver.execute, Driver.lift, Driver.bind at 1. rewrite Hsql.
  destruct cur as [c|], db as [d|], pool, idle as [|i idle];
    unfold Driver._execute, Driver.cursor, Driver._get_ctx, Driver._load_context,
      Driver.catch, Driver.ctx_rollback, Driver._unload_context, Driver.read_db, Driver.emit,
      Driver.set_cursor, Driver.set_store, Driver.bind, Driver.get, Driver.modify, Driver.ret,
      Driver.throw; cbn; rewrite Hb; cbn;
    (split; [split; [reflexivity | close_log2] | close_log4]).
Qed.

(** A failing statement on a fresh pooled driver. *)
Lemma execute_error_logged_rollback_by_scope_witness :
  sql_params "select 1" [] = Ok "select 1"
  /\ backend_fail "select 1" = Driver.Raises "syntax error"
  /\ fst (Driver.execute backend_fail "select 1" [] true (Driver.init_state true true))
     = Exc (DriverError "syntax error").
Proof.
  split; [reflexivity|]. split; [reflexivity|].
  exact (proj1 (proj1 (execute_error_logged_rollback_by_scope backend_fail
                         (Driver.init_state true true) "select 1" [] "select 1" "syntax error"
                         eq_refl eq_refl))).
Defined.

(** ** Repository factory: [save] *)

(** C3 (code_bug): with Snowflake ids ([auto_increment=False]), [save] of
    a record whose key is unset calls [obj.next_val()], whose absolute
    import [from sequence import flake] raises [ModuleNotFoundError] inside
    the package: no id is assigned, no INSERT is issued, and the error
    reaches the caller. *)
Theorem save_snowflake_module_not_found :
  forall now mid fs ticks (obj : Factory.Model) params,
    Factory.check obj = Ok tt ->
    Factory.to_table obj = Ok params ->
    truthy (Factory.getattr obj (match Factory.primary obj with Some p => p | None => "id" end))
      = false ->
    Factory.save false now mid fs ticks obj = Some (Exc ModuleNotFoundError).
Proof.
  intros now mid fs ticks obj params Hc Ht Hk.
  unfold Factory.save. rewrite Hc, Ht, Hk. reflexivity.
Qed.

(** The new record [fresh_user] of table [user], id [None]. *)
Lemma save_snowflake_module_not_found_witness :
  Factory.save false now0 5 Snowflake.init [200000000%Z] fresh_user = Some (Exc ModuleNotFoundError).
Proof.
  refine (save_snowflake_module_not_found now0 5 Snowflake.init [200000000%Z] fresh_user
            [("id", VNone); ("version", VInt 0); ("deleted", VInt 0);
             ("create_time", VNone); ("modify_time", VNone)] _ _ _);
    vm_compute; reflexivity.
Defined.

(** The UPDATE branch on the stored record: the guard uses the stored
    version 3, and the assignments set [version = 4] and [modify_time] to
    [now]. *)
Example save_update_guard :
  Factory.save true now0 5 Snowflake.init [] stored_user
  = Some (Ok (["update user set version = 4,deleted = 0,create_time = NULL,modify_time = '2026-10-14 12:00:00' where id = 42 and deleted = 0 and version = 3"],
              stored_user, Snowflake.init)).
Proof. vm_compute. reflexivity. Qed.

(** * Further properties of the code *)

Module StringFacts.

Lemma str_app_assoc : forall a b c : string, (a ++ b) ++ c = a ++ (b ++ c).
Proof. induction a as [|x a IH]; intros b c; simpl; [reflexivity | now rewrite IH]. Qed.

Lemma str_app_nil_r : forall s : string, s ++ EmptyString = s.
Proof. induction s as [|x s IH]; simpl; [reflexivity | now rewrite IH]. Qed.

Lemma str_length_app : forall a b : string,
  String.length (a ++ b) = String.length a + String.length b.
Proof. induction a as [|x a IH]; intros b; simpl; [reflexivity | now rewrite IH]. Qed.

Lemma cnt_app : forall c a b, cnt c (a ++ b) = cnt c a + cnt c b.
Proof. induction a as [|x a IH]; intros b; simpl; [reflexivity | rewrite IH; lia]. Qed.

Lemma replace_char_app : forall c r a b,
  replace_char c r (a ++ b) = replace_char c r a ++ replace_char c r b.
Proof.
  induction a as [|x a IH]; intros b; simpl; [reflexivity|].
  destruct (Ascii.eqb x c); rewrite IH; [now rewrite str_app_assoc | reflexivity].
Qed.

Lemma cnt_replace_char : forall c d r s,
  cnt c (replace_char d r s)
  = (if Ascii.eqb c d then 0 else cnt c s) + cnt d s * cnt c r.
Proof.
  induction s as [|x s IH]; simpl; [destruct (Ascii.eqb c d); reflexivity|].
  destruct (Ascii.eqb_spec x d) as [Hxd|Hxd]; simpl; rewrite ?cnt_app, IH;
    destruct (Ascii.eqb_spec c d) as [Hcd|Hcd];
    destruct (Ascii.eqb_spec x c) as [Hxc|Hxc]; subst; try congruence; lia.
Qed.

(** What the server reads back is shorter than the body by one character
    for each quote (and, in backslash mode, each backslash) it contains. *)
Lemma unquote_length : forall bs s t,
  unquote bs s = Some t ->
  String.length s = String.length t + cnt "'" t + (if bs then cnt "\" t else 0).
Proof.
  intros bs s. remember (String.length s) as n eqn:Hn.
  revert s Hn. induction n as [n IHn] using lt_wf_ind. intros s Hn t Hu.
  destruct s as [|c s']; simpl in Hu.
  - inversion Hu; subst; simpl. destruct bs; reflexivity.
  - destruct (Ascii.eqb_spec c "'") as [->|Hq].
    + destruct s' as [|c' s'']; [discriminate|].
      destruct (Ascii.eqb_spec c' "'") as [->|]; [|discriminate].
      destruct (unquote bs s'') as [t'|] eqn:E; simpl in Hu; [|discriminate].
      inversion Hu; subst. simpl in *.
      rewrite (IHn (String.length s'') ltac:(lia) s'' eq_refl t' E). simpl.
      destruct bs; lia.
    + destruct bs; simpl in Hu.
      * destruct (Ascii.eqb_spec c "\") as [->|Hb].
        -- destruct s' as [|c' s'']; [discriminate|].
           destruct (Ascii.eqb_spec c' "\") as [->|]; [|discriminate].
           destruct (unquote true s'') as [t'|] eqn:E; simpl in Hu; [|discriminate].
           inversion Hu; subst. simpl in *.
           rewrite (IHn (String.length s'') ltac:(lia) s'' eq_refl t' E). simpl. lia.
        -- destruct (unquote true s') as [t'|] eqn:E; simpl in Hu; [|discriminate].
           inversion Hu; subst. simpl in *.
           rewrite (IHn (String.length s') ltac:(lia) s' eq_refl t' E). simpl.
           destruct (Ascii.eqb_spec c "'"); [congruence|].
           destruct (Ascii.eqb_spec c "\"); [congruence|]. lia.
      * destruct (unquote false s') as [t'|] eqn:E; simpl in Hu; [|discriminate].
        inversion Hu; subst. simpl in *.
        rewrite (IHn (String.length s') ltac:(lia) s' eq_refl t' E). simpl.
        destruct (Ascii.eqb_spec c "'"); [congruence|]. lia.
Qed.

Lemma unquote_escaped : forall s,
  unquote true (replace_char "\" "\\" (replace_char "'" "''" s)) = Some s.
Proof.
  induction s as [|c s IH]; [reflexivity|]. simpl.
  destruct (Ascii.eqb_spec c "'") as [->|Hq]; simpl.
  - rewrite IH. reflexivity.
  - destruct (Ascii.eqb_spec c "\") as [->|Hb]; simpl.
    + rewrite IH. reflexivity.
    + destruct (Ascii.eqb_spec c "'"); [congruence|].
      destruct (Ascii.eqb_spec c "\"); [congruence|]. simpl. now rewrite IH.
Qed.

Lemma unquote_quotes_doubled : forall s,
  unquote false (replace_char "'" "''" s) = Some s.
Proof.
  induction s as [|c s IH]; [reflexivity|]. simpl.
  destruct (Ascii.eqb_spec c "'") as [->|Hq]; simpl.
  - rewrite IH. reflexivity.
  - destruct (Ascii.eqb_spec c "'"); [congruence|]. simpl. now rewrite IH.
Qed.

Lemma length_replace_char : forall c r s,
  String.length (replace_char c r s) + cnt c s
  = String.length s + cnt c s * String.length r.
Proof.
  induction s as [|x s IH]; simpl; [reflexivity|].
  destruct (Ascii.eqb_spec x c) as [->|Hx]; simpl.
  - rewrite str_length_app. lia.
  - lia.
Qed.

Lemma brace_free_app : forall a b, brace_free (a ++ b) = brace_free a && brace_free b.
Proof. induction a as [|x a IH]; intros b; simpl; [reflexivity | rewrite IH; apply andb_assoc]. Qed.

Lemma brace_free_replace_char : forall c r s,
  brace_free r = true -> brace_free s = true -> brace_free (replace_char c r s) = true.
Proof.
  induction s as [|x s IH]; intros Hr Hs; simpl; [reflexivity|].
  simpl in Hs. apply andb_prop in Hs as [Hx Hs].
  destruct (Ascii.eqb x c); [rewrite brace_free_app, Hr, IH; auto | simpl; rewrite Hx, IH; auto].
Qed.

End StringFacts.

Module FormatFacts.
Import StringFacts.

(** Literal text without braces is copied verbatim by [str.format]. *)
Lemma fmt_lit : forall l rest k md args,
  brace_free l = true ->
  fmt_go (l ++ rest) LNormal k md args = (r <-? fmt_go rest LNormal k md args ;; Ok (l ++ r)).
Proof.
  induction l as [|c l IH]; intros rest k md args Hl; simpl.
  - destruct (fmt_go rest LNormal k md args); reflexivity.
  - simpl in Hl. apply andb_prop in Hl as [Hc Hl]. unfold is_brace in Hc.
    destruct (Ascii.eqb c "{"); [discriminate|]. destruct (Ascii.eqb c "}"); [discriminate|].
    rewrite IH by exact Hl. destruct (fmt_go rest LNormal k md args); reflexivity.
Qed.

Lemma fmt_holes : forall ls l0 k md args,
  md <> FManual -> forallb brace_free (l0 :: ls) = true ->
  fmt_go (holes l0 ls) LNormal k md args
  = if Nat.leb (List.length ls) (List.length args - k)
    then Ok (fill l0 ls (skipn k args)) else Exc IndexError.
Proof.
  induction ls as [|l ls IH]; intros l0 k md args Hmd Hb; simpl in Hb;
    cbn [holes List.length].
  - rewrite andb_true_r in Hb.
    rewrite <- (str_app_nil_r l0) at 1. rewrite fmt_lit by exact Hb. simpl.
    rewrite str_app_nil_r. destruct (skipn k args); reflexivity.
  - apply andb_prop in Hb as [Hl0 Hb].
    rewrite fmt_lit by exact Hl0.
    change (fmt_go ("{}" ++ holes l ls) LNormal k md args) with
      (x <-? resolve_field EmptyString k md ;;
       let '(i, auto', md') := x in
       match nth_error args i with
       | None => Exc IndexError
       | Some a => r <-? fmt_go (holes l ls) LNormal auto' md' args ;; Ok (a ++ r)
       end).
    assert (Hr : resolve_field EmptyString k md = Ok (k, S k, FAuto))
      by (destruct md; [reflexivity | reflexivity | congruence]).
    rewrite Hr. cbn [rbind].
    destruct (nth_error args k) as [a|] eqn:Hn.
    + rewrite (IH l (S k) FAuto args) by (congruence || exact Hb).
      assert (Hk : k < List.length args) by (apply nth_error_Some; congruence).
      assert (Hs : skipn k args = a :: skipn (S k) args).
      { clear -Hn. revert args Hn. induction k as [|k IHk]; intros [|x args] Hn;
          simpl in *; try discriminate; [now inversion Hn | now apply IHk]. }
      rewrite Hs. simpl.
      replace (List.length args - k) with (S (List.length args - S k)) by lia.
      simpl. destruct (Nat.leb (List.length ls) (List.length args - S k)); reflexivity.
    + apply nth_error_None in Hn.
      replace (List.length args - k) with 0 by lia. reflexivity.
Qed.

End FormatFacts.

(** ** Quoting of values *)

Import StringFacts.

(** X1: [QueryWrapper._format_value] renders a [str] as a quoted literal
    whose body the server reads back as exactly that string, quotes and
    backslashes included (both are doubled). *)
Theorem format_value_str_reads_back :
  forall s : string, exists body : string,
    QueryWrapper._format_value (VStr s) = "'" ++ body ++ "'"
    /\ unquote true body = Some s.
Proof.
  intro s. eexists. split; [reflexivity | apply unquote_escaped].
Qed.

(** X2: an [Enum] member is rendered by [_format_value] as
    ['str(member.value)'] with no escaping: when that string contains a
    quote, the literal does not read back as the value. *)
Theorem format_value_enum_unescaped :
  forall (cls name s : string),
    0 < cnt "'" s ->
    QueryWrapper._format_value (VEnum cls name (VStr s)) = "'" ++ s ++ "'"
    /\ unquote true s <> Some s.
Proof.
  intros cls name s Hq. split; [reflexivity|].
  intro Hu. apply unquote_length in Hu. lia.
Qed.

Lemma format_value_enum_unescaped_witness :
  (0 < cnt "'" "it's")%nat /\
  QueryWrapper._format_value (VEnum "Color" "RED" (VStr "it's")) = "'it's'"
  /\ unquote true "it's" <> Some "it's".
Proof.
  split; [vm_compute; lia|].
  exact (format_value_enum_unescaped "Color" "RED" "it's" ltac:(vm_compute; lia)).
Defined.

(** X3: [sql_params] renders a [str] argument as a quoted literal with its
    quotes doubled, which reads back as the string when the server takes
    backslashes literally; the backslashes are not doubled, so with
    backslash escapes on (MySQL's default) a string containing a backslash
    does not read back as itself. *)
Theorem sql_param_str_quotes_only :
  forall s : string, exists body : string,
    sql_param (VStr s) = "'" ++ body ++ "'"
    /\ unquote false body = Some s
    /\ (0 < cnt "\" s -> unquote true body <> Some s).
Proof.
  intro s. exists (replace_char "'" "''" s). split; [reflexivity|].
  split; [apply unquote_quotes_doubled|].
  intros Hb Hu. apply unquote_length in Hu.
  pose proof (length_replace_char "'" "''" s) as Hl. simpl in Hl. lia.
Qed.

(** X4: [like(column, s)] searches for the pattern [%<s>%] with the
    wildcards of [s] escaped, but the quotes of [s] reach the server doubled:
    the pattern the server reads is [%] + [s] with every quote doubled and
    [%], [_] escaped + [%], which differs from the escaped [s] whenever [s]
    contains a quote. *)
Theorem like_pattern_keeps_quotes_doubled :
  forall (q : QueryWrapper) (column_name s alias : string),
    exists body : string,
      QueryWrapper.like q column_name (VStr s) alias
      = QueryWrapper.append_condition q
          (QueryWrapper.qualify column_name alias ++ " like '" ++ body ++ "'")
      /\ unquote true body
         = Some ("%" ++ QueryWrapper.escape_wildcards (replace_char "'" "''" s) ++ "%")
      /\ (0 < cnt "'" s ->
          QueryWrapper.escape_wildcards (replace_char "'" "''" s)
          <> QueryWrapper.escape_wildcards s).
Proof.
  intros q column_name s alias. eexists. split; [reflexivity|].
  split; [apply unquote_escaped|].
  intros Hq He. apply (f_equal (cnt "'")) in He.
  unfold QueryWrapper.escape_wildcards in He.
  rewrite !cnt_replace_char in He. simpl in He. lia.
Qed.

(** ** [str.format] in [sql_params] *)

(** X5: for a template made of brace-free literal pieces and [n] fields
    [{}], [sql_params] with no argument returns the template unchanged (its
    [{}] included); with arguments it fills the fields in order with the
    rendered arguments, ignoring extra ones, and raises [IndexError] when
    there are fewer arguments than fields. *)
Theorem sql_params_fills_fields :
  forall (l0 : string) (ls : list string) (args : list Value),
    forallb brace_free (l0 :: ls) = true ->
    sql_params (holes l0 ls) args
    = match args with
      | [] => Ok (holes l0 ls)
      | _ => if Nat.leb (List.length ls) (List.length args)
             then Ok (fill l0 ls (map sql_param args)) else Exc IndexError
      end.
Proof.
  intros l0 ls args Hb. unfold sql_params.
  destruct args as [|a args]; [reflexivity|]. simpl.
  unfold py_format. rewrite FormatFacts.fmt_holes by (congruence || exact Hb).
  simpl. rewrite length_map. reflexivity.
Qed.

Lemma sql_params_fills_fields_witness :
  sql_params (holes "select * from t where a = " [" and b = "; EmptyString]) [VInt 1; VStr "x"]
  = Ok "select * from t where a = 1 and b = 'x'".
Proof.
  rewrite (sql_params_fills_fields "select * from t where a = " [" and b = "; EmptyString]
             [VInt 1; VStr "x"] ltac:(reflexivity)).
  reflexivity.
Defined.

(** ** [AsyncDriver.update] and [AsyncDriver.insert] *)

Module TemplateFacts.
Import StringFacts.

Lemma assign_holes : forall ks post pre k1,
  holes (pre ++ k1 ++ " = ") (assign_pieces ks post)
  = pre ++ (join "," (map (fun k => k ++ " = {}") (k1 :: ks)) ++ post).
Proof.
  induction ks as [|k2 ks IH]; intros post pre k1; cbn [assign_pieces holes map].
  - unfold join; simpl String.concat. rewrite ?str_app_assoc. reflexivity.
  - rewrite IH. unfold join. cbn [String.concat map].
    rewrite ?str_app_assoc. reflexivity.
Qed.

Lemma assign_fill : forall (vs : list (string * Value)) post pre kv1,
  fill (pre ++ fst kv1 ++ " = ") (assign_pieces (map fst vs) post)
       (map sql_param (map snd (kv1 :: vs)))
  = pre ++ (join "," (map (fun kv => fst kv ++ " = " ++ sql_param (snd kv)) (kv1 :: vs))
            ++ post).
Proof.
  induction vs as [|kv2 vs IH]; intros post pre kv1; cbn [assign_pieces fill map].
  - unfold join; simpl String.concat. rewrite ?str_app_assoc. reflexivity.
  - change (sql_param (snd kv2) :: map sql_param (map snd vs))
      with (map sql_param (map snd (kv2 :: vs))).
    rewrite IH. unfold join. cbn [String.concat map].
    rewrite ?str_app_assoc. reflexivity.
Qed.

Lemma value_holes : forall cs post pre (c1 : string),
  holes pre (value_pieces cs post)
  = pre ++ (join "," (map (fun _ => "{}") (c1 :: cs)) ++ post).
Proof.
  induction cs as [|c2 cs IH]; intros post pre c1; cbn [value_pieces holes map].
  - unfold join; simpl String.concat. rewrite ?str_app_assoc. reflexivity.
  - rewrite (IH post "," c2). unfold join. cbn [String.concat map].
    rewrite ?str_app_assoc. reflexivity.
Qed.

Lemma value_fill : forall (cs : list string) post pre a1 args,
  List.length args = List.length cs ->
  fill pre (value_pieces cs post) (a1 :: args) = pre ++ (join "," (a1 :: args) ++ post).
Proof.
  induction cs as [|c2 cs IH]; intros post pre a1 args Hl; cbn [value_pieces fill].
  - destruct args; [|discriminate]. simpl. reflexivity.
  - destruct args as [|a2 args]; [discriminate|]. simpl in Hl.
    cbn [fill]. rewrite IH by lia. unfold join. cbn [String.concat].
    rewrite ?str_app_assoc. reflexivity.
Qed.

Lemma length_assign_pieces : forall ks post,
  List.length (assign_pieces ks post) = S (List.length ks).
Proof. induction ks; simpl; congruence. Qed.

Lemma length_value_pieces : forall cs post,
  List.length (value_pieces cs post) = S (List.length cs).
Proof. induction cs; simpl; congruence. Qed.

Lemma forallb_assign_pieces : forall ks post,
  forallb brace_free ks = true -> brace_free post = true ->
  forallb brace_free (assign_pieces ks post) = true.
Proof.
  induction ks as [|k ks IH]; intros post Hk Hp; simpl in *; [now rewrite Hp|].
  apply andb_prop in Hk as [Hk Hks].
  rewrite brace_free_app, Hk, IH by assumption. reflexivity.
Qed.

Lemma forallb_value_pieces : forall cs post,
  brace_free post = true -> forallb brace_free (value_pieces cs post) = true.
Proof. induction cs as [|c cs IH]; intros post Hp; simpl; [now rewrite Hp | auto]. Qed.

Lemma brace_free_join : forall sep xs,
  brace_free sep = true -> forallb brace_free xs = true -> brace_free (join sep xs) = true.
Proof.
  intros sep xs Hs. unfold join. induction xs as [|x xs IH]; intros Hx; [reflexivity|].
  simpl in Hx. apply andb_prop in Hx as [Hx Hxs].
  destruct xs as [|y ys]; [exact Hx|].
  replace (String.concat sep (x :: y :: ys)) with (x ++ sep ++ String.concat sep (y :: ys))
    by reflexivity.
  rewrite !brace_free_app, Hx, Hs, IH by exact Hxs. reflexivity.
Qed.

End TemplateFacts.

Import TemplateFacts.

Module DbFacts.
Import StringFacts TemplateFacts.

Lemma db_update_ok :
  forall (table where_ : string) (values : Factory.Dict),
    values <> [] ->
    Factory.kwargs_ok ["table"; "where"; "cursor"; "_test"] values = Ok tt ->
    forallb brace_free (table :: where_ :: map fst values) = true ->
    Factory.db_update table where_ values
    = Ok ["update " ++ table ++ " set "
          ++ join "," (map (fun kv => fst kv ++ " = " ++ sql_param (snd kv)) values)
          ++ " where " ++ (if String.eqb where_ EmptyString then "1=1" else where_)].
Proof.
  intros table where_ values Hne Hk Hb. unfold Factory.db_update. rewrite Hk. cbn [rbind].
  destruct values as [|kv1 vs]; [congruence|].
  simpl in Hb. apply andb_prop in Hb as [Ht Hb]. apply andb_prop in Hb as [Hw Hb].
  apply andb_prop in Hb as [Hk1 Hks].
  set (W := if String.eqb where_ EmptyString then "1=1" else where_).
  assert (HW : brace_free W = true) by (unfold W; destruct (String.eqb where_ EmptyString); auto).
  assert (E : "update " ++ table ++ " set "
              ++ join "," (map (fun kv => fst kv ++ " = {}") (kv1 :: vs)) ++ " where " ++ W
              = holes (("update " ++ table ++ " set ") ++ fst kv1 ++ " = ")
                      (assign_pieces (map fst vs) (" where " ++ W))).
  { rewrite assign_holes. cbn [map]. rewrite map_map. rewrite ?str_app_assoc. reflexivity. }
  rewrite E. unfold sql_params. simpl List.length. simpl Nat.ltb. cbv iota beta.
  unfold py_format. rewrite FormatFacts.fmt_holes.
  - rewrite length_assign_pieces, !length_map. cbn [skipn List.length]. rewrite ?Nat.sub_0_r, Nat.leb_refl.
    change (sql_param (snd kv1) :: map sql_param (map snd vs))
      with (map sql_param (map snd (kv1 :: vs))).
    rewrite assign_fill. rewrite ?str_app_assoc. reflexivity.
  - congruence.
  - simpl. rewrite !brace_free_app, Ht, Hk1. simpl.
    apply forallb_assign_pieces; [exact Hks | exact HW].
Qed.

Lemma db_insert_ok :
  forall (table : string) (seq : option string) (values : Factory.Dict),
    values <> [] ->
    Factory.kwargs_ok ["table"; "cursor"; "_last"; "_seq"; "_test"] values = Ok tt ->
    forallb brace_free (table :: map fst values) = true ->
    brace_free (match seq with Some s => s | None => EmptyString end) = true ->
    Factory.db_insert table seq values
    = Ok ["insert into " ++ table ++ " ("
          ++ join "," (map Factory.column_format (map fst values))
          ++ ") values (" ++ join "," (map sql_param (map snd values)) ++ ") "
          ++ match seq with
             | Some s => ";SELECT MAX(" ++ table ++ ") FROM " ++ s
             | None => EmptyString
             end].
Proof.
  intros table seq values Hne Hk Hb Hs. unfold Factory.db_insert. rewrite Hk. cbn [rbind].
  destruct values as [|kv1 vs]; [congruence|].
  simpl in Hb. apply andb_prop in Hb as [Ht Hb]. apply andb_prop in Hb as [Hk1 Hks].
  set (tail := match seq with
               | Some s => ";SELECT MAX(" ++ table ++ ") FROM " ++ s
               | None => EmptyString
               end).
  set (pre := "insert into " ++ table ++ " ("
              ++ join "," (map Factory.column_format (map fst (kv1 :: vs))) ++ ") values (").
  assert (Hcols : forallb brace_free (map Factory.column_format (map fst (kv1 :: vs))) = true).
  { apply forallb_forall. intros k' Hin'. apply in_map_iff in Hin' as [k [<- Hin]].
    assert (Hall : forallb brace_free (map fst (kv1 :: vs)) = true)
      by (simpl; rewrite Hk1, Hks; reflexivity).
    rewrite forallb_forall in Hall.
    unfold Factory.column_format. rewrite !brace_free_app, (Hall k Hin). reflexivity. }
  assert (Hpre : brace_free pre = true).
  { unfold pre. rewrite !brace_free_app, Ht, (brace_free_join "," _ eq_refl Hcols).
    reflexivity. }
  assert (Htail : brace_free (") " ++ tail) = true).
  { unfold tail. destruct seq as [s|]; [|reflexivity].
    simpl in Hs. rewrite !brace_free_app, Ht, Hs. reflexivity. }
  assert (E : match seq with
              | Some seq0 =>
                  Factory._process_insert_query
                    ("insert into " ++ table ++ " ("
                     ++ join "," (map Factory.column_format (map fst (kv1 :: vs)))
                     ++ ") values (" ++ join "," (map (fun _ => "{}") (map fst (kv1 :: vs)))
                     ++ ") ") table seq0
              | None =>
                  "insert into " ++ table ++ " ("
                  ++ join "," (map Factory.column_format (map fst (kv1 :: vs)))
                  ++ ") values (" ++ join "," (map (fun _ => "{}") (map fst (kv1 :: vs)))
                  ++ ") "
              end
              = holes pre (value_pieces (map fst vs) (") " ++ tail))).
  { rewrite (value_holes _ _ _ (fst kv1)). unfold pre, tail.
    destruct seq as [s|]; unfold Factory._process_insert_query; cbn [map];
      rewrite ?str_app_assoc; [reflexivity|].
    rewrite str_app_nil_r. reflexivity. }
  rewrite E. unfold sql_params. cbn [map List.length Nat.ltb Nat.leb]. cbv iota beta.
  unfold py_format. rewrite FormatFacts.fmt_holes.
  - rewrite length_value_pieces. cbn [skipn List.length].
    rewrite ?Nat.sub_0_r, ?length_map, Nat.leb_refl.
    rewrite value_fill by (rewrite !length_map; reflexivity).
    unfold pre. rewrite ?str_app_assoc. reflexivity.
  - congruence.
  - apply andb_true_intro. split; [exact Hpre | apply forallb_value_pieces; exact Htail].
Qed.

End DbFacts.

(** X6: [AsyncDriver.update(table, where, **values)] with at least one
    keyword, none of them a parameter name of [update], and brace-free
    table, where clause and column names, sends one statement
    [update <table> set k1 = v1,k2 = v2,... where <where>] with the keywords
    in their order and each value rendered as [sql_params] does; an empty
    where clause becomes [1=1]. *)
Theorem db_update_statement :
  forall (table where_ : string) (values : Factory.Dict),
    values <> [] ->
    Factory.kwargs_ok ["table"; "where"; "cursor"; "_test"] values = Ok tt ->
    forallb brace_free (table :: where_ :: map fst values) = true ->
    Factory.db_update table where_ values
    = Ok ["update " ++ table ++ " set "
          ++ join "," (map (fun kv => fst kv ++ " = " ++ sql_param (snd kv)) values)
          ++ " where " ++ (if String.eqb where_ EmptyString then "1=1" else where_)].
Proof. exact DbFacts.db_update_ok. Qed.

(** X7: [AsyncDriver.insert(table, _seq=seq, **values)] with at least one
    keyword, none of them a parameter name of [insert], and brace-free names
    sends [insert into <table> (`k1`,...) values (v1,...) ] with the values
    rendered as [sql_params] does. With [_seq] given, the base class appends
    [;SELECT MAX(<table>) FROM <seq>]: [_process_insert_query(sql, seq_name,
    table_name)] is called as [(sql, table, _seq)], so the table name lands in
    [MAX(...)] and the sequence column after [FROM]. *)
Theorem db_insert_statement :
  forall (table : string) (seq : option string) (values : Factory.Dict),
    values <> [] ->
    Factory.kwargs_ok ["table"; "cursor"; "_last"; "_seq"; "_test"] values = Ok tt ->
    forallb brace_free (table :: map fst values) = true ->
    brace_free (match seq with Some s => s | None => EmptyString end) = true ->
    Factory.db_insert table seq values
    = Ok ["insert into " ++ table ++ " ("
          ++ join "," (map Factory.column_format (map fst values))
          ++ ") values (" ++ join "," (map sql_param (map snd values)) ++ ") "
          ++ match seq with
             | Some s => ";SELECT MAX(" ++ table ++ ") FROM " ++ s
             | None => EmptyString
             end].
Proof. exact DbFacts.db_insert_ok. Qed.

Module TableFacts.
Import Factory.

Lemma dict_set_fresh : forall k v d,
  dict_get k d = None -> dict_set k v d = (d ++ [(k, v)])%list.
Proof.
  intros k v d. induction d as [|[k' v'] d IH]; simpl; intros H; [reflexivity|].
  destruct (String.eqb k k'); [discriminate|]. rewrite IH by exact H. reflexivity.
Qed.

Lemma dict_get_snoc : forall k k' v d,
  dict_get k (d ++ [(k', v)])%list
  = match dict_get k d with Some x => Some x | None => if String.eqb k k' then Some v else None end.
Proof.
  intros k k' v d. induction d as [|[k1 v1] d IH]; simpl; [reflexivity|].
  destruct (String.eqb k k1); [reflexivity | exact IH].
Qed.

Lemma to_table_exc : forall fs e,
  fold_left (fun r f =>
    data <-? r ;;
    if negb (f_exists f) then Ok data
    else let data := dict_set (f_name f) (f_value f) data in
         if f_required f && match f_value f with VNone => true | _ => false end
         then Exc ValueError else Ok data) fs (Exc e) = Exc e.
Proof. induction fs; simpl; auto. Qed.

Lemma to_table_go : forall fs d,
  NoDup (map f_name fs) ->
  (forall f, In f fs -> dict_get (f_name f) d = None) ->
  fold_left (fun r f =>
    data <-? r ;;
    if negb (f_exists f) then Ok data
    else let data := dict_set (f_name f) (f_value f) data in
         if f_required f && match f_value f with VNone => true | _ => false end
         then Exc ValueError else Ok data) fs (Ok d)
  = if existsb (fun f => f_exists f && f_required f && is_none (f_value f)) fs
    then Exc ValueError
    else Ok (d ++ map (fun f => (f_name f, f_value f)) (filter f_exists fs))%list.
Proof.
  induction fs as [|f fs IH]; intros d Hnd Hfresh.
  - simpl. rewrite app_nil_r. reflexivity.
  - inversion Hnd as [|? ? Hnotin Hnd']; subst.
    assert (Hfresh' : forall g, In g fs -> dict_get (f_name g) d = None)
      by (intros g Hg; apply Hfresh; right; exact Hg).
    cbn [fold_left rbind existsb filter].
    replace (match f_value f with VNone => true | _ => false end) with (is_none (f_value f))
      by reflexivity.
    destruct (f_exists f) eqn:He; cbn [negb andb orb].
    + rewrite dict_set_fresh by (apply Hfresh; left; reflexivity).
      destruct (f_required f && is_none (f_value f)) eqn:Hb; cbn [orb].
      * apply to_table_exc.
      * rewrite IH.
        -- rewrite <- app_assoc. reflexivity.
        -- exact Hnd'.
        -- intros g Hg. rewrite dict_get_snoc, (Hfresh' g Hg).
           destruct (String.eqb_spec (f_name g) (f_name f)) as [E|]; [|reflexivity].
           exfalso. apply Hnotin. rewrite <- E. apply in_map. exact Hg.
    + apply IH; assumption.
Qed.

Lemma to_table_ok : forall obj : Model,
  NoDup (map f_name (fields obj)) ->
  to_table obj
  = if existsb (fun f => f_exists f && f_required f && is_none (f_value f)) (fields obj)
    then Exc ValueError
    else Ok (map (fun f => (f_name f, f_value f)) (filter f_exists (fields obj))).
Proof.
  intros obj Hnd. unfold to_table. rewrite to_table_go; [reflexivity | exact Hnd |].
  intros f _. reflexivity.
Qed.

End TableFacts.

(** X8: [BaseModel.to_table] on a record whose fields have distinct names
    raises [ValueError] exactly when some existing required field holds
    [None]; otherwise it maps every field with [exists=True], in declaration
    order, to its value and leaves out the others. *)
Theorem to_table_spec : forall obj : Factory.Model,
  NoDup (map Factory.f_name (Factory.fields obj)) ->
  Factory.to_table obj
  = if existsb (fun f => Factory.f_exists f && Factory.f_required f && is_none (Factory.f_value f))
               (Factory.fields obj)
    then Exc ValueError
    else Ok (map (fun f => (Factory.f_name f, Factory.f_value f))
                 (filter Factory.f_exists (Factory.fields obj))).
Proof. exact TableFacts.to_table_ok. Qed.

Lemma to_table_spec_witness :
  Factory.to_table
    (Factory.mkModel (Some "user") None
       [Factory.mkField "id" Factory.TInt (VInt 7) false 20 true;
        Factory.mkField "note" Factory.TStr (VStr "n") false 64 false])
  = Ok [("id", VInt 7)].
Proof.
  rewrite (to_table_spec (Factory.mkModel (Some "user") None
       [Factory.mkField "id" Factory.TInt (VInt 7) false 20 true;
        Factory.mkField "note" Factory.TStr (VStr "n") false 64 false])).
  - reflexivity.
  - repeat constructor; cbn; intuition discriminate.
Defined.

Module RenderFacts.
Import StringFacts.

Lemma brace_free_z_str : forall z, brace_free (z_str z) = true.
Proof.
  assert (U : forall u, brace_free (NilEmpty.string_of_uint u) = true) by (induction u; simpl; auto).
  intros z. unfold z_str. destruct (Z.to_int z); simpl; apply U.
Qed.

Lemma sql_params_nil : forall s, sql_params s [] = Ok s.
Proof. reflexivity. Qed.

(** [sql_params(l + '{}', v)] for brace-free [l]. *)
Lemma one_hole : forall l v, brace_free l = true ->
  sql_params (l ++ "{}") [v] = Ok (l ++ sql_param v).
Proof.
  intros l v Hl. unfold sql_params. cbn [map List.length Nat.ltb Nat.leb].
  unfold py_format. change (l ++ "{}") with (holes l [EmptyString]).
  rewrite FormatFacts.fmt_holes.
  - cbn. rewrite str_app_nil_r. reflexivity.
  - discriminate.
  - simpl. rewrite Hl. reflexivity.
Qed.

Lemma one_hole_eq : forall seq v, brace_free seq = true ->
  sql_params (seq ++ " = {}") [v] = Ok (seq ++ " = " ++ sql_param v).
Proof.
  intros seq v Hs. replace (seq ++ " = {}") with ((seq ++ " = ") ++ "{}")
    by (rewrite str_app_assoc; reflexivity).
  rewrite one_hole by (rewrite brace_free_app, Hs; reflexivity).
  rewrite str_app_assoc. reflexivity.
Qed.

Lemma eqb_app_eq_nonempty : forall s x, String.eqb (s ++ " = " ++ x) EmptyString = false.
Proof. intros [|c s] x; reflexivity. Qed.

End RenderFacts.

Ltac str_norm := repeat (cbn [String.append]; rewrite StringFacts.str_app_assoc); cbn [String.append].

Module SaveFacts.
Import Factory StringFacts.

Lemma dict_set_keys : forall k v d x,
  In x (map fst (dict_set k v d)) -> x = k \/ In x (map fst d).
Proof.
  intros k v d x. induction d as [|[k' v'] d IH]; simpl.
  - intuition.
  - destruct (String.eqb_spec k k') as [E|E]; simpl.
    + subst. intuition.
    + intros [H|H]; [right; left; exact H|]. destruct (IH H); intuition.
Qed.

Lemma dict_set_nonnil : forall k v d, dict_set k v d <> [].
Proof. intros k v [|[k' v'] d]; simpl; [discriminate|]. destruct (String.eqb k k'); discriminate. Qed.

Lemma filter_keys : forall (f : string * Value -> bool) d x,
  In x (map fst (filter f d)) -> In x (map fst d).
Proof.
  intros f d x. induction d as [|kv d IH]; simpl; [tauto|].
  destruct (f kv); simpl; intuition.
Qed.

Lemma dict_get_filter_other : forall k seq d, k <> seq ->
  dict_get k (filter (fun kv => negb (String.eqb (fst kv) seq)) d) = dict_get k d.
Proof.
  intros k seq d Hne. induction d as [|[k' v'] d IH]; simpl; [reflexivity|].
  destruct (String.eqb_spec k' seq) as [E|E]; simpl.
  - subst. destruct (String.eqb_spec k seq); [contradiction|]. exact IH.
  - rewrite IH. reflexivity.
Qed.

Lemma kwargs_ok_iff : forall r d,
  kwargs_ok r d = Ok tt <-> (forall x, In x (map fst d) -> ~ In x r).
Proof.
  intros r d. unfold kwargs_ok. split.
  - destruct (existsb _ d) eqn:E; [discriminate|]. intros _ x Hx Hr.
    apply in_map_iff in Hx as [[k v] [<- Hin]].
    assert (existsb (fun kv => existsb (String.eqb (fst kv)) r) d = true); [|congruence].
    apply existsb_exists. exists (k, v). split; [exact Hin|].
    apply existsb_exists. exists k. split; [exact Hr | apply String.eqb_refl].
  - intros H. destruct (existsb _ d) eqn:E; [|reflexivity].
    apply existsb_exists in E as [[k v] [Hin Hk]]. apply existsb_exists in Hk as [y [Hy Hky]].
    apply String.eqb_eq in Hky. cbn in Hky. subst y.
    exfalso. apply (H k); [apply in_map_iff; exists (k, v); split; [reflexivity | exact Hin] | exact Hy].
Qed.

End SaveFacts.

(** X9: [RepositoryFactory.save] on a record that passes [check], whose
    key column [seq] (its [primary], else [id]) holds a truthy value, and
    whose [to_table()] dict has the key [pk] at [seq] and an [int] version
    [v] (with [seq] other than [version]), issues one [UPDATE] when no column
    is named [table], [where], [cursor] or [_test] and the table name, the
    column names, [seq] and [str(pk)] have no braces. It sets every column
    of [to_table()] but the key, in that order, with [version] [v + 1] and
    [modify_time] the current time (appended when it is not a column),
    guarded by [<seq> = <str(pk)> and deleted = 0 and version = <v>]; the
    record and the Snowflake state are unchanged. *)
Theorem save_update_statement :
  forall auto now mid fs ticks (obj : Factory.Model) t params pk v,
  let seq := match Factory.primary obj with Some p => p | None => "id" end in
  let updates := Factory.dict_set "modify_time" (VDateTime now)
                   (Factory.dict_set "version" (VInt (v + 1))
                      (filter (fun kv => negb (String.eqb (fst kv) seq)) params)) in
  Factory.check obj = Ok tt ->
  Factory.table obj = Some t ->
  Factory.to_table obj = Ok params ->
  truthy (Factory.getattr obj seq) = true ->
  Factory.dict_get seq params = Some pk ->
  Factory.dict_get "version" params = Some (VInt v) ->
  seq <> "version" ->
  Factory.kwargs_ok ["table"; "where"; "cursor"; "_test"] params = Ok tt ->
  forallb brace_free (t :: seq :: py_str pk :: map fst params) = true ->
  Factory.save auto now mid fs ticks obj
  = Some (Ok (["update " ++ t ++ " set "
               ++ join "," (map (fun kv => fst kv ++ " = " ++ sql_param (snd kv)) updates)
               ++ " where " ++ seq ++ " = " ++ py_str pk
               ++ " and deleted = 0 and version = " ++ z_str v], obj, fs)).
Proof.
  intros auto now mid fs ticks obj t params pk v seq updates Hc Ht Htt Hk Hpk Hv Hsv Hkw Hb.
  unfold Factory.save. rewrite Hc, Htt. fold seq. rewrite Hk, Ht.
  unfold Factory.dict_index.
  rewrite (SaveFacts.dict_get_filter_other "version" seq params (fun E => Hsv (eq_sym E))), Hv.
  cbn [rbind Factory.incr]. rewrite Hpk. cbn [rbind].
  change (py_str (VInt v)) with (z_str v). subst updates.
  simpl in Hb. apply andb_prop in Hb as [Hbt Hb]. apply andb_prop in Hb as [Hbs Hb].
  apply andb_prop in Hb as [Hbp Hbk].
  rewrite DbFacts.db_update_ok.
  - cbn [rbind]. rewrite RenderFacts.eqb_app_eq_nonempty. reflexivity.
  - apply SaveFacts.dict_set_nonnil.
  - apply SaveFacts.kwargs_ok_iff. rewrite SaveFacts.kwargs_ok_iff in Hkw.
    intros x Hx. apply SaveFacts.dict_set_keys in Hx as [->|Hx]; [cbn; intuition discriminate|].
    apply SaveFacts.dict_set_keys in Hx as [->|Hx]; [cbn; intuition discriminate|].
    apply Hkw. eapply SaveFacts.filter_keys; exact Hx.
  - cbn [forallb]. rewrite Hbt. cbn [andb].
    rewrite !StringFacts.brace_free_app, Hbs, Hbp, RenderFacts.brace_free_z_str. cbn [andb].
    apply forallb_forall. rewrite forallb_forall in Hbk.
    intros x Hx. apply SaveFacts.dict_set_keys in Hx as [->|Hx]; [reflexivity|].
    apply SaveFacts.dict_set_keys in Hx as [->|Hx]; [reflexivity|].
    apply Hbk. eapply SaveFacts.filter_keys; exact Hx.
Qed.

(** A stored record of a model with an extra [name] column. *)
Lemma save_update_statement_witness :
  Factory.save false now0 5 Snowflake.init []
    (Factory.mkModel (Some "user") None
       (Factory.base_fields (VInt 42) (VInt 3) (VInt 0) VNone VNone
        ++ [Factory.mkField "name" Factory.TStr (VStr "bob") false 64 true])%list)
  = Some (Ok (["update user set version = 4,deleted = 0,create_time = NULL,modify_time = '2026-10-14 12:00:00',name = 'bob' where id = 42 and deleted = 0 and version = 3"],
              Factory.mkModel (Some "user") None
                (Factory.base_fields (VInt 42) (VInt 3) (VInt 0) VNone VNone
                 ++ [Factory.mkField "name" Factory.TStr (VStr "bob") false 64 true])%list,
              Snowflake.init)).
Proof.
  rewrite (save_update_statement false now0 5 Snowflake.init []
             (Factory.mkModel (Some "user") None
                (Factory.base_fields (VInt 42) (VInt 3) (VInt 0) VNone VNone
                 ++ [Factory.mkField "name" Factory.TStr (VStr "bob") false 64 true])%list)
             "user"
             [("id", VInt 42); ("version", VInt 3); ("deleted", VInt 0);
              ("create_time", VNone); ("modify_time", VNone); ("name", VStr "bob")]
             (VInt 42) 3).
  all: try (vm_compute; reflexivity).
  discriminate.
Defined.

(** X10: [RepositoryFactory.save] with [auto_increment=True] on a record
    that passes [check] and whose key column [seq] holds a falsy value
    issues one [INSERT] of every column of [to_table()], in that order, with
    [create_time] set to the current time (appended when it is not a
    column), followed by [;SELECT MAX(<table>) FROM <seq>]: the table name
    and the key column are swapped. This holds when no column is named
    [table], [cursor], [_last], [_seq] or [_test] and the table name, [seq]
    and the column names have no braces. The record and the Snowflake state
    are unchanged. *)
Theorem save_auto_increment_insert :
  forall now mid fs ticks (obj : Factory.Model) t params,
  let seq := match Factory.primary obj with Some p => p | None => "id" end in
  let P := Factory.dict_set "create_time" (VDateTime now) params in
  Factory.check obj = Ok tt ->
  Factory.table obj = Some t ->
  Factory.to_table obj = Ok params ->
  truthy (Factory.getattr obj seq) = false ->
  Factory.kwargs_ok ["table"; "cursor"; "_last"; "_seq"; "_test"] params = Ok tt ->
  forallb brace_free (t :: seq :: map fst params) = true ->
  Factory.save true now mid fs ticks obj
  = Some (Ok (["insert into " ++ t ++ " (" ++ join "," (map Factory.column_format (map fst P))
               ++ ") values (" ++ join "," (map sql_param (map snd P)) ++ ") ;SELECT MAX("
               ++ t ++ ") FROM " ++ seq], obj, fs)).
Proof.
  intros now mid fs ticks obj t params seq P Hc Ht Htt Hk Hkw Hb.
  unfold Factory.save. rewrite Hc, Htt. fold seq. rewrite Hk, Ht.
  simpl in Hb. apply andb_prop in Hb as [Hbt Hb]. apply andb_prop in Hb as [Hbs Hbk].
  rewrite DbFacts.db_insert_ok.
  - reflexivity.
  - apply SaveFacts.dict_set_nonnil.
  - apply SaveFacts.kwargs_ok_iff. rewrite SaveFacts.kwargs_ok_iff in Hkw.
    intros x Hx. apply SaveFacts.dict_set_keys in Hx as [->|Hx]; [cbn; intuition discriminate|].
    apply Hkw. exact Hx.
  - cbn [forallb]. rewrite Hbt. cbn [andb].
    apply forallb_forall. rewrite forallb_forall in Hbk.
    intros x Hx. apply SaveFacts.dict_set_keys in Hx as [->|Hx]; [reflexivity|].
    apply Hbk. exact Hx.
  - exact Hbs.
Qed.

Lemma save_auto_increment_insert_witness :
  Factory.save true now0 5 Snowflake.init []
    (Factory.mkModel (Some "user") None
       (Factory.base_fields VNone (VInt 0) (VInt 0) VNone VNone
        ++ [Factory.mkField "name" Factory.TStr (VStr "bob") false 64 true])%list)
  = Some (Ok (["insert into user (`id`,`version`,`deleted`,`create_time`,`modify_time`,`name`) values (NULL,0,0,'2026-10-14 12:00:00',NULL,'bob') ;SELECT MAX(user) FROM id"],
              Factory.mkModel (Some "user") None
                (Factory.base_fields VNone (VInt 0) (VInt 0) VNone VNone
                 ++ [Factory.mkField "name" Factory.TStr (VStr "bob") false 64 true])%list,
              Snowflake.init)).
Proof.
  rewrite (save_auto_increment_insert now0 5 Snowflake.init []
             (Factory.mkModel (Some "user") None
                (Factory.base_fields VNone (VInt 0) (VInt 0) VNone VNone
                 ++ [Factory.mkField "name" Factory.TStr (VStr "bob") false 64 true])%list)
             "user"
             [("id", VNone); ("version", VInt 0); ("deleted", VInt 0);
              ("create_time", VNone); ("modify_time", VNone); ("name", VStr "bob")]).
  all: vm_compute; reflexivity.
Defined.

Lemma db_update_statement_witness :
  Factory.db_update "user" "id = 1" [("version", VInt 4); ("note", VStr "it's")]
  = Ok ["update user set version = 4,note = 'it''s' where id = 1"].
Proof.
  rewrite (db_update_statement "user" "id = 1" [("version", VInt 4); ("note", VStr "it's")]).
  - reflexivity.
  - discriminate.
  - reflexivity.
  - reflexivity.
Defined.

Lemma db_insert_statement_witness :
  Factory.db_insert "user" (Some "id") [("name", VStr "a"); ("age", VInt 3)]
  = Ok ["insert into user (`name`,`age`) values ('a',3) ;SELECT MAX(user) FROM id"].
Proof.
  rewrite (db_insert_statement "user" (Some "id") [("name", VStr "a"); ("age", VInt 3)]).
  - reflexivity.
  - discriminate.
  - reflexivity.
  - reflexivity.
  - reflexivity.
Defined.

Module RepoFacts.
Import StringFacts RenderFacts.

Lemma destroy_ok : forall obj t,
  Factory.check obj = Ok tt -> Factory.table obj = Some t ->
  brace_free (Repository.seq_of obj) = true ->
  Repository.destroy obj
  = if truthy (Factory.getattr obj (Repository.seq_of obj))
    then Ok (Some ("delete from " ++ t ++ " where " ++ Repository.seq_of obj ++ " = "
                   ++ sql_param (Factory.getattr obj (Repository.seq_of obj))))
    else Ok None.
Proof.
  intros obj t Hc Ht Hs. unfold Repository.destroy. rewrite Hc. cbn [rbind].
  unfold Repository.table_of. rewrite Ht.
  destruct (truthy (Factory.getattr obj (Repository.seq_of obj))); [|reflexivity].
  rewrite one_hole_eq by exact Hs. cbn [rbind]. unfold Repository.db_delete.
  rewrite eqb_app_eq_nonempty, sql_params_nil. reflexivity.
Qed.

End RepoFacts.

(** X11: [RepositoryFactory.destroy] on a checked record whose key column
    name has no braces issues [delete from <table> where <seq> = <key>] with
    the key rendered as [sql_params] does when the key is truthy, and issues
    nothing (returns [0]) otherwise. *)
Theorem destroy_statement : forall obj t,
  Factory.check obj = Ok tt -> Factory.table obj = Some t ->
  brace_free (Repository.seq_of obj) = true ->
  Repository.destroy obj
  = if truthy (Factory.getattr obj (Repository.seq_of obj))
    then Ok (Some ("delete from " ++ t ++ " where " ++ Repository.seq_of obj ++ " = "
                   ++ sql_param (Factory.getattr obj (Repository.seq_of obj))))
    else Ok None.
Proof. exact RepoFacts.destroy_ok. Qed.

Lemma destroy_statement_witness :
  Repository.destroy stored_user = Ok (Some "delete from user where id = 42").
Proof.
  rewrite (destroy_statement stored_user "user").
  - reflexivity.
  - vm_compute. reflexivity.
  - reflexivity.
  - reflexivity.
Defined.

(** X12: [RepositoryFactory.delete] (the soft delete) on a checked record
    with a truthy key issues [update <table> set deleted = 1 where <seq> =
    <key>] when the table name, the key column name and the rendered key
    have no braces; with a falsy key it issues nothing. *)
Theorem delete_statement : forall obj t,
  Factory.check obj = Ok tt -> Factory.table obj = Some t -> brace_free t = true ->
  brace_free (Repository.seq_of obj) = true ->
  brace_free (sql_param (Factory.getattr obj (Repository.seq_of obj))) = true ->
  Repository.delete obj
  = if truthy (Factory.getattr obj (Repository.seq_of obj))
    then Ok (Some ["update " ++ t ++ " set deleted = 1 where " ++ Repository.seq_of obj
                   ++ " = " ++ sql_param (Factory.getattr obj (Repository.seq_of obj))])
    else Ok None.
Proof.
  intros obj t Hc Ht Htb Hs Hk. unfold Repository.delete. rewrite Hc. cbn [rbind].
  unfold Repository.table_of. rewrite Ht.
  destruct (truthy (Factory.getattr obj (Repository.seq_of obj))); [|reflexivity].
  rewrite RenderFacts.one_hole_eq by exact Hs. cbn [rbind].
  rewrite DbFacts.db_update_ok.
  - rewrite RenderFacts.eqb_app_eq_nonempty. reflexivity.
  - discriminate.
  - reflexivity.
  - cbn [forallb map fst]. rewrite Htb, !StringFacts.brace_free_app, Hs, Hk. reflexivity.
Qed.

Lemma delete_statement_witness :
  Repository.delete stored_user = Ok (Some ["update user set deleted = 1 where id = 42"]).
Proof.
  rewrite (delete_statement stored_user "user").
  - reflexivity.
  - vm_compute. reflexivity.
  - reflexivity.
  - reflexivity.
  - reflexivity.
  - reflexivity.
Defined.

(** X13: a string key containing [{}] between brace-free parts breaks the
    soft delete: [RepositoryFactory.delete] formats the where clause into a
    [{}] template and [AsyncDriver.update] formats the whole statement again,
    so the key's [{}] becomes a second field for a single argument and the
    call raises [IndexError]. [destroy] on the same record deletes the row,
    the key's braces kept verbatim. *)
Theorem delete_braced_key_index_error : forall obj t a b,
  Factory.check obj = Ok tt -> Factory.table obj = Some t -> brace_free t = true ->
  brace_free (Repository.seq_of obj) = true ->
  Factory.getattr obj (Repository.seq_of obj) = VStr (a ++ "{}" ++ b) ->
  brace_free a = true -> brace_free b = true ->
  Repository.delete obj = Exc IndexError
  /\ Repository.destroy obj
     = Ok (Some ("delete from " ++ t ++ " where " ++ Repository.seq_of obj ++ " = '"
                 ++ replace_char "'" "''" a ++ "{}" ++ replace_char "'" "''" b ++ "'")).
Proof.
  intros obj t a b Hc Ht Htb Hs Hkey Ha Hb.
  assert (Htr : truthy (VStr (a ++ "{}" ++ b)) = true) by (destruct a; reflexivity).
  assert (Hsq : sql_param (VStr (a ++ "{}" ++ b))
                = "'" ++ replace_char "'" "''" a ++ "{}" ++ replace_char "'" "''" b ++ "'").
  { change (sql_param (VStr (a ++ "{}" ++ b)))
      with ("'" ++ replace_char "'" "''" (a ++ "{}" ++ b) ++ "'").
    rewrite !StringFacts.replace_char_app. rewrite ?StringFacts.str_app_assoc. reflexivity. }
  set (seq := Repository.seq_of obj) in *.
  set (ra := replace_char "'" "''" a) in *. set (rb := replace_char "'" "''" b) in *.
  assert (Hra : brace_free ra = true)
    by (apply StringFacts.brace_free_replace_char; [reflexivity | exact Ha]).
  assert (Hrb : brace_free rb = true)
    by (apply StringFacts.brace_free_replace_char; [reflexivity | exact Hb]).
  split.
  - unfold Repository.delete. rewrite Hc. cbn [rbind]. fold seq.
    unfold Repository.table_of. rewrite Ht, Hkey, Htr.
    rewrite RenderFacts.one_hole_eq by exact Hs. cbn [rbind]. rewrite Hsq.
    unfold Factory.db_update. cbn [rbind Factory.kwargs_ok existsb].
    rewrite RenderFacts.eqb_app_eq_nonempty.
    replace ("update " ++ t ++ " set "
             ++ join "," (map (fun kv => fst kv ++ " = {}") [("deleted", VInt 1)])
             ++ " where " ++ seq ++ " = " ++ "'" ++ ra ++ "{}" ++ rb ++ "'")
      with (holes ("update " ++ t ++ " set deleted = ")
                  [" where " ++ seq ++ " = '" ++ ra; rb ++ "'"]).
    + unfold sql_params. cbn [map List.length Nat.ltb Nat.leb]. unfold py_format.
      rewrite FormatFacts.fmt_holes.
      * reflexivity.
      * discriminate.
      * cbn [forallb]. rewrite !StringFacts.brace_free_app, Htb, Hs, Hra, Hrb. reflexivity.
    + unfold holes, join. cbn [map fst String.concat]. str_norm. reflexivity.
  - rewrite (RepoFacts.destroy_ok obj t Hc Ht Hs). fold seq. rewrite Hkey, Htr, Hsq.
    rewrite ?StringFacts.str_app_assoc. reflexivity.
Qed.

Lemma delete_braced_key_index_error_witness :
  Repository.delete
    (Factory.mkModel (Some "tag") (Some "code")
       [Factory.mkField "code" Factory.TStr (VStr "a{}b") false 64 true])
  = Exc IndexError
  /\ Repository.destroy
       (Factory.mkModel (Some "tag") (Some "code")
          [Factory.mkField "code" Factory.TStr (VStr "a{}b") false 64 true])
     = Ok (Some "delete from tag where code = 'a{}b'").
Proof.
  apply (delete_braced_key_index_error
           (Factory.mkModel (Some "tag") (Some "code")
              [Factory.mkField "code" Factory.TStr (VStr "a{}b") false 64 true])
           "tag" "a" "b"); reflexivity.
Defined.

(** X14: [RepositoryFactory.get] on a checked record whose key column name
    has no braces queries [select <f1>,...,<fn> from <table> where <seq> =
    <key>] over every declared field, those with [exists=False] included,
    when the key is truthy; with a falsy key it raises [ValueError]. *)
Theorem get_statement : forall obj t,
  Factory.check obj = Ok tt -> Factory.table obj = Some t ->
  brace_free (Repository.seq_of obj) = true ->
  Repository.get obj
  = if truthy (Factory.getattr obj (Repository.seq_of obj))
    then Ok ("select " ++ join "," (map Factory.f_name (Factory.fields obj)) ++ " from " ++ t
             ++ " where " ++ Repository.seq_of obj ++ " = "
             ++ sql_param (Factory.getattr obj (Repository.seq_of obj)))
    else Exc ValueError.
Proof.
  intros obj t Hc Ht Hs. unfold Repository.get. rewrite Hc. cbn [rbind].
  unfold Repository.table_of. rewrite Ht.
  destruct (truthy (Factory.getattr obj (Repository.seq_of obj))); [|reflexivity].
  rewrite RenderFacts.one_hole_eq by exact Hs. cbn [rbind]. apply RenderFacts.sql_params_nil.
Qed.

Lemma get_statement_witness :
  Repository.get
    (Factory.mkModel (Some "user") None
       [Factory.mkField "id" Factory.TInt (VInt 7) false 20 true;
        Factory.mkField "nick" Factory.TStr VNone false 64 false])
  = Ok "select id,nick from user where id = 7".
Proof.
  rewrite (get_statement
             (Factory.mkModel (Some "user") None
                [Factory.mkField "id" Factory.TInt (VInt 7) false 20 true;
                 Factory.mkField "nick" Factory.TStr VNone false 64 false]) "user").
  - reflexivity.
  - reflexivity.
  - reflexivity.
  - reflexivity.
Defined.

Module FlakeLayout.
Import Snowflake.
Local Open Scope Z_scope.

Lemma machine_id_range : forall octet pid,
  0 <= octet < 256 -> 0 <= _machine_id octet pid < 4096.
Proof.
  intros octet pid H. unfold _machine_id. rewrite Z.shiftl_mul_pow2 by lia.
  pose proof (Z.mod_pos_bound pid 16 eq_refl). change (2 ^ 4) with 16. lia.
Qed.

(** Calls in one tick from sequence number [c]: the ids [c+1], ...,
    [c+k] of that tick, as long as [c + k] does not pass [1024]. *)
Lemma run_same_tick : forall k m p c,
  0 <= c -> c + Z.of_nat k <= 1024 ->
  run m (mkFlake p c) (repeat p k)
  = (map (fun j => pack m p (c + 1 + Z.of_nat j)) (seq 0 k), mkFlake p (c + Z.of_nat k)).
Proof.
  induction k as [|k IH]; intros m p c Hc Hk.
  - simpl. rewrite Z.add_0_r. reflexivity.
  - cbn [repeat run]. unfold flake at 1. cbn [_last_point _last_sequence].
    rewrite Z.eqb_refl.
    replace (Z.shiftl 1 _sequence_length <? c + 1) with false
      by (symmetry; apply Z.ltb_ge; change (Z.shiftl 1 _sequence_length) with 1024; lia).
    rewrite IH by lia. cbn [seq map]. rewrite <- seq_shift, map_map.
    f_equal; [f_equal; [f_equal; lia|] | f_equal; lia].
    apply map_ext. intro j. f_equal. lia.
Qed.

End FlakeLayout.

(** X16: a Snowflake id [pack m lp c] with a machine id built by
    [_machine_id] from a host octet below 256, a non-negative tick and a
    sequence number below 1024 decodes back: the bits from 22 up are the
    tick, bits 10 to 21 the machine id and bits 0 to 9 the sequence
    number. *)
Theorem flake_id_decodes : forall octet pid lp c,
  (0 <= octet < 256)%Z -> (0 <= lp)%Z -> (0 <= c < 1024)%Z ->
  let id := Snowflake.pack (Snowflake._machine_id octet pid) lp c in
  Z.shiftr id 22 = lp
  /\ Z.land (Z.shiftr id 10) 4095 = Snowflake._machine_id octet pid
  /\ Z.land id 1023 = c.
Proof.
  intros octet pid lp c Ho Hl Hc id.
  pose proof (FlakeLayout.machine_id_range octet pid Ho) as Hm.
  set (m := Snowflake._machine_id octet pid) in *.
  assert (Hid : id = (lp * 4194304 + m * 1024 + c)%Z) by apply SnowflakeFacts.pack_spec.
  change 4095%Z with (Z.ones 12). change 1023%Z with (Z.ones 10).
  rewrite !Z.shiftr_div_pow2, !Z.land_ones by lia. rewrite Hid.
  change (2 ^ 22)%Z with 4194304%Z. change (2 ^ 10)%Z with 1024%Z. change (2 ^ 12)%Z with 4096%Z.
  repeat split.
  - symmetry. apply (Z.div_unique_pos _ _ _ (m * 1024 + c)%Z); lia.
  - replace ((lp * 4194304 + m * 1024 + c) / 1024)%Z with (lp * 4096 + m)%Z
      by (apply (Z.div_unique_pos _ _ _ c); lia).
    symmetry. apply (Z.mod_unique_pos _ _ lp); lia.
  - symmetry. apply (Z.mod_unique_pos _ _ (lp * 4096 + m)%Z); lia.
Qed.

Lemma flake_id_decodes_witness :
  (0 <= 10 < 256)%Z /\ (0 <= 200000000)%Z /\ (0 <= 3 < 1024)%Z
  /\ Z.shiftr (Snowflake.pack (Snowflake._machine_id 10 4242) 200000000 3) 22 = 200000000%Z.
Proof.
  split; [lia|]. split; [lia|]. split; [lia|].
  exact (proj1 (flake_id_decodes 10 4242 200000000 3 ltac:(lia) ltac:(lia) ltac:(lia))).
Defined.

(** X17: [flake] accepts a 1025th call in one tick (it rejects only a
    sequence number above [1 << 10]), and that id overflows into the machine
    bits: on machine [m] it equals the id machine [m + 1] draws at its first
    call in the same tick. *)
Theorem flake_overflow_collides : forall m p,
  (0 <= m)%Z -> (0 < p)%Z ->
  nth 1024 (fst (Snowflake.run m Snowflake.init (repeat p 1025))) 0%Z
  = nth 0 (fst (Snowflake.run (m + 1) Snowflake.init [p])) 0%Z
  /\ nth 1024 (fst (Snowflake.run m Snowflake.init (repeat p 1025))) 0%Z <> 0%Z.
Proof.
  intros m p Hm Hp.
  assert (E : fst (Snowflake.run m Snowflake.init (repeat p 1025))
              = Snowflake.pack m p 0
                :: map (fun j => Snowflake.pack m p (0 + 1 + Z.of_nat j)) (seq 0 1024)).
  { change (repeat p 1025) with (p :: repeat p 1024). cbn [Snowflake.run].
    unfold Snowflake.flake at 1. cbn [Snowflake._last_point Snowflake.init].
    replace (0 =? p)%Z with false by (symmetry; apply Z.eqb_neq; lia).
    rewrite FlakeLayout.run_same_tick by lia. reflexivity. }
  assert (F : fst (Snowflake.run (m + 1) Snowflake.init [p]) = [Snowflake.pack (m + 1) p 0]).
  { cbn [Snowflake.run]. unfold Snowflake.flake at 1. cbn [Snowflake._last_point Snowflake.init].
    replace (0 =? p)%Z with false by (symmetry; apply Z.eqb_neq; lia). reflexivity. }
  rewrite E, F. cbn [nth].
  set (f := fun j : nat => Snowflake.pack m p (0 + 1 + Z.of_nat j)).
  rewrite (nth_indep (map f (seq 0 1024)) 0%Z (f 0%nat)) by (rewrite length_map, length_seq; lia).
  rewrite map_nth, seq_nth by lia. unfold f.
  rewrite !SnowflakeFacts.pack_spec. split; [|]; nia.
Qed.

Lemma flake_overflow_collides_witness :
  nth 1024 (fst (Snowflake.run 5 Snowflake.init (repeat 200000000%Z 1025))) 0%Z
  = nth 0 (fst (Snowflake.run (5 + 1) Snowflake.init [200000000%Z])) 0%Z.
Proof. exact (proj1 (flake_overflow_collides 5 200000000 ltac:(lia) ltac:(lia))). Defined.

(** X18: [Page.prev] undoes a [Page.next] that advanced: from a page with
    a non-negative offset and [offset + size <= total], [prev(next(page))]
    is back at the same offset, size and total, with the records cleared,
    the wrapper's conditions and ordering kept and its trailing clause
    [LIMIT <size> OFFSET <offset>]. *)
Theorem page_prev_next : forall p,
  (0 <= Page.offset p)%Z -> (Page.offset p + Page.size p <= Page.total p)%Z ->
  let p' := Page.prev (Page.next p) in
  Page.offset p' = Page.offset p /\ Page.size p' = Page.size p
  /\ Page.total p' = Page.total p /\ Page.record p' = []
  /\ QueryWrapper._condition (Page.wrapper p') = QueryWrapper._condition (Page.wrapper p)
  /\ QueryWrapper._order (Page.wrapper p') = QueryWrapper._order (Page.wrapper p)
  /\ QueryWrapper._last (Page.wrapper p')
     = "LIMIT " ++ z_str (Page.size p) ++ " OFFSET " ++ z_str (Page.offset p).
Proof.
  intros [o s t r w] Ho Hn p'. subst p'. cbn in Ho, Hn.
  unfold Page.next. cbn. rewrite (proj2 (Z.leb_le _ _) Hn). cbn.
  replace (Z.max 0 (o + s - s)) with o by lia.
  repeat split; reflexivity.
Qed.

Lemma page_prev_next_witness :
  Page.offset (Page.prev (Page.next (Page.set_total (Page.Page_new QueryWrapper.QueryWrapper_new 10 10) 25)))
  = 10%Z.
Proof.
  exact (proj1 (page_prev_next (Page.set_total (Page.Page_new QueryWrapper.QueryWrapper_new 10 10) 25)
                  ltac:(cbn; lia) ltac:(cbn; lia))).
Defined.

(** X19: with a positive page size, [next], [prev] and setting the total
    keep the offset a non-negative multiple of the size and keep the size.
    [prev] always clears the records and rebuilds the trailing clause from
    the new offset; [next] does so, moving the offset by one page, when
    [total >= offset + size], and otherwise leaves the page exactly as it
    was, records included. *)
Theorem page_offset_aligned : forall p,
  (0 < Page.size p)%Z -> (0 <= Page.offset p)%Z -> (Page.offset p mod Page.size p = 0)%Z ->
  let ok q := Page.size q = Page.size p /\ (0 <= Page.offset q)%Z
              /\ (Page.offset q mod Page.size q = 0)%Z in
  ok (Page.next p) /\ ok (Page.prev p) /\ (forall t, ok (Page.set_total p t))
  /\ (if (Page.offset p + Page.size p <=? Page.total p)%Z
      then Page.offset (Page.next p) = (Page.offset p + Page.size p)%Z
           /\ Page.record (Page.next p) = []
           /\ QueryWrapper._last (Page.wrapper (Page.next p))
              = "LIMIT " ++ z_str (Page.size p) ++ " OFFSET " ++ z_str (Page.offset (Page.next p))
      else Page.next p = p)
  /\ Page.record (Page.prev p) = []
  /\ QueryWrapper._last (Page.wrapper (Page.prev p))
     = "LIMIT " ++ z_str (Page.size p) ++ " OFFSET " ++ z_str (Page.offset (Page.prev p)).
Proof.
  intros [o s t r w] Hs Ho Hm ok. subst ok. cbn in Hs, Ho, Hm |- *.
  unfold Page.next, Page.prev. cbn.
  destruct (Z.leb_spec (o + s) t) as [Hn | Hn]; cbn.
  - repeat split; try reflexivity; try lia.
    + rewrite Z.add_mod, Hm, Z.mod_same by lia. reflexivity.
    + destruct (Z.max_spec 0 (o - s)) as [[_ E] | [_ E]]; rewrite E; [|reflexivity].
      rewrite Zminus_mod, Hm, Z.mod_same by lia. reflexivity.
  - repeat split; try reflexivity; try lia.
    + destruct (Z.max_spec 0 (o - s)) as [[_ E] | [_ E]]; rewrite E; [|reflexivity].
      rewrite Zminus_mod, Hm, Z.mod_same by lia. reflexivity.
Qed.

Lemma page_offset_aligned_witness :
  Page.offset (Page.next (Page.set_total (Page.Page_new QueryWrapper.QueryWrapper_new 0 10) 25)) = 10%Z
  /\ (Page.offset (Page.next (Page.set_total (Page.Page_new QueryWrapper.QueryWrapper_new 0 10) 25))
        mod 10 = 0)%Z.
Proof.
  split; [reflexivity|].
  exact (proj2 (proj2 (proj1 (page_offset_aligned
           (Page.set_total (Page.Page_new QueryWrapper.QueryWrapper_new 0 10) 25)
           ltac:(cbn; lia) ltac:(cbn; lia) ltac:(reflexivity))))).
Defined.

Module DriverRun.
Import Driver.

Lemma finish_shape : forall (m : M unit) cnt s s',
  (t <- read_transactions ;;
   if Nat.ltb cnt (List.length t) then
     m ;;; t <- read_transactions ;; set_transactions (firstn cnt t)
   else ret tt) s = (Ok tt, s') ->
  exists l, st_transactions (d_ctx s') = Some l /\ List.length l <= cnt.
Proof.
  intros m cnt s s' H. cbv beta iota zeta delta [bind read_transactions get throw ret] in H.
  destruct (st_transactions (d_ctx s)) as [l|] eqn:Hl; [|discriminate].
  destruct (Nat.ltb_spec cnt (List.length l)) as [Hlt | Hge].
  - destruct (m s) as [[u|e] s1]; [|discriminate].
    destruct (st_transactions (d_ctx s1)) as [l1|] eqn:Hl1; [|discriminate].
    cbv beta iota zeta delta [set_transactions set_store modify bind get] in H.
    inversion H; subst.
    exists (firstn cnt l1). split; [reflexivity | apply firstn_le_length].
  - inversion H; subst. exists l. split; [exact Hl | exact Hge].
Qed.

Lemma finish_noop : forall (m : M unit) cnt s l,
  st_transactions (d_ctx s) = Some l -> List.length l <= cnt ->
  (t <- read_transactions ;;
   if Nat.ltb cnt (List.length t) then
     m ;;; t <- read_transactions ;; set_transactions (firstn cnt t)
   else ret tt) s = (Ok tt, s).
Proof.
  intros m cnt s l Hl Hle. cbv beta iota zeta delta [bind read_transactions get throw ret].
  rewrite Hl.
  destruct (Nat.ltb_spec cnt (List.length l)); [lia | reflexivity].
Qed.

End DriverRun.

(** X20: once [Transaction.commit] or [Transaction.rollback] has returned
    normally, the stack is no deeper than the transaction's recorded depth,
    so committing or rolling the same transaction back again does nothing:
    no statement, no commit, no state change. *)
Theorem finish_transaction_once : forall backend self s s',
  (Driver.commit backend self s = (Ok tt, s') \/ Driver.rollback backend self s = (Ok tt, s')) ->
  Driver.commit backend self s' = (Ok tt, s') /\ Driver.rollback backend self s' = (Ok tt, s').
Proof.
  intros backend self s s' H.
  assert (Hs : exists l, Driver.st_transactions (Driver.d_ctx s') = Some l
                         /\ List.length l <= Driver.transaction_count self).
  { destruct H as [H|H]; eapply DriverRun.finish_shape; exact H. }
  destruct Hs as [l [Hl Hle]]. split.
  - exact (DriverRun.finish_noop _ _ s' l Hl Hle).
  - exact (DriverRun.finish_noop _ _ s' l Hl Hle).
Qed.

Lemma finish_transaction_once_witness :
  let s1 := snd (Driver.transaction (fun _ => Driver.Rows 1) (Driver.init_state false true)) in
  let self := Driver.mkTransaction 0 Driver.base_engine in
  let s2 := snd (Driver.commit (fun _ => Driver.Rows 1) self s1) in
  Driver.commit (fun _ => Driver.Rows 1) self s1 = (Ok tt, s2)
  /\ Driver.commit (fun _ => Driver.Rows 1) self s2 = (Ok tt, s2).
Proof.
  intros s1 self s2.
  assert (H : Driver.commit (fun _ => Driver.Rows 1) self s1 = (Ok tt, s2)) by (vm_compute; reflexivity).
  split; [exact H|].
  exact (proj1 (finish_transaction_once (fun _ => Driver.Rows 1) self s1 s2 (or_introl H))).
Defined.

(** X21: without pooling, [Driver.execute(sql)] without [transaction] on a
    loaded driver sends the statement to the driver's cursor, commits that
    connection and returns the row count; the connection stays loaded and
    nothing else changes. *)
Theorem execute_unpooled_commits : forall backend s c q n,
  Driver.st_db (Driver.d_ctx s) = Some c -> Driver.d_cursor s = Some c ->
  Driver.d_has_pooling s = false -> backend q = Driver.Rows n ->
  Driver.execute backend q [] false s
  = (Ok (Some n), Driver.mkDState (Driver.d_ctx s) (Some c) false (Driver.d_config_ignore s)
                    (Driver.d_next_conn s) (Driver.d_idle s)
                    (Driver.d_log s ++ [Driver.EvExecute c q; Driver.EvCommit c])%list).
Proof.
  intros backend [[db tr cfg] cur pool ign nx idle log] c q n Hdb Hcur Hpool Hq.
  cbn in Hdb, Hcur, Hpool. subst db cur pool.
  unfold Driver.execute, Driver._execute, Driver.cursor, Driver._get_ctx, Driver.ctx_commit,
    Driver.read_db, Driver.emit, Driver.catch, Driver.lift, Driver.bind, Driver.get,
    Driver.ret, Driver.modify.
  cbn. rewrite Hq. cbn. rewrite <- app_assoc. reflexivity.
Qed.

Lemma execute_unpooled_commits_witness :
  Driver.execute (fun _ => Driver.Rows 1) "delete from t" [] false
    (Driver.mkDState (Driver.mkStore (Some 0) (Some []) None) (Some 0) false true 1 [] [Driver.EvConnect 0])
  = (Ok (Some 1%Z), Driver.mkDState (Driver.mkStore (Some 0) (Some []) None) (Some 0) false true 1 []
                      [Driver.EvConnect 0; Driver.EvExecute 0 "delete from t"; Driver.EvCommit 0]).
Proof.
  exact (execute_unpooled_commits (fun _ => Driver.Rows 1)
           (Driver.mkDState (Driver.mkStore (Some 0) (Some []) None) (Some 0) false true 1 []
              [Driver.EvConnect 0]) 0 "delete from t" 1%Z eq_refl eq_refl eq_refl eq_refl).
Defined.

(** X22: with pooling, [ctx.commit()] hands the connection back to the
    pool while [self._cursor] keeps a cursor on it. The first
    [Driver.execute(sql)] without [transaction] on a fresh driver opens
    connection 0, runs the statement on it, commits it and leaves it idle
    in the pool. Every later one runs its statement through the kept cursor
    on connection [c] while [c] sits idle in the pool (the statement is sent
    before the store takes [c] back), then takes [c] from the pool, commits
    it and returns it; no connection is opened. *)
Theorem execute_pooled_stale_cursor : forall backend ign q n,
  backend q = Driver.Rows n ->
  Driver.execute backend q [] false (Driver.init_state true ign)
  = (Ok (Some n), Driver.mkDState (Driver.mkStore None (Some []) None) (Some 0) true ign 1 [0]
                    [Driver.EvConnect 0; Driver.EvExecute 0 q; Driver.EvCommit 0])
  /\ forall s c rest q' n',
     Driver.st_db (Driver.d_ctx s) = None -> Driver.d_cursor s = Some c ->
     Driver.d_has_pooling s = true -> Driver.d_idle s = c :: rest ->
     backend q' = Driver.Rows n' ->
     Driver.execute backend q' [] false s
     = (Ok (Some n'),
        Driver.mkDState (Driver.mkStore None (Some []) (Driver.st_config (Driver.d_ctx s)))
          (Some c) true (Driver.d_config_ignore s) (Driver.d_next_conn s) (rest ++ [c])%list
          (Driver.d_log s ++ [Driver.EvExecute c q'; Driver.EvConnect c; Driver.EvCommit c])%list).
Proof.
  intros backend ign q n Hq. split.
  - unfold Driver.execute, Driver._execute, Driver.cursor, Driver._get_ctx, Driver._load_context,
      Driver.ctx_commit, Driver._unload_context, Driver.set_store, Driver.set_cursor,
      Driver.read_db, Driver.emit, Driver.catch, Driver.lift, Driver.bind, Driver.get,
      Driver.ret, Driver.modify, Driver.init_state.
    cbn. rewrite Hq. reflexivity.
  - intros [[db tr cfg] cur pool ign' nx idle log] c rest q' n' Hdb Hcur Hpool Hidle Hq'.
    cbn in Hdb, Hcur, Hpool, Hidle. subst db cur pool idle.
    unfold Driver.execute, Driver._execute, Driver.cursor, Driver._get_ctx, Driver._load_context,
      Driver.ctx_commit, Driver._unload_context, Driver.set_store, Driver.set_cursor,
      Driver.read_db, Driver.emit, Driver.catch, Driver.lift, Driver.bind, Driver.get,
      Driver.ret, Driver.modify.
    cbn. rewrite Hq'. cbn. rewrite <- !app_assoc. reflexivity.
Qed.

Lemma execute_pooled_stale_cursor_witness :
  Driver.execute (fun _ => Driver.Rows 1) "update t set a = 2" [] false
    (snd (Driver.execute (fun _ => Driver.Rows 1) "update t set a = 1" [] false
            (Driver.init_state true true)))
  = (Ok (Some 1%Z), Driver.mkDState (Driver.mkStore None (Some []) None) (Some 0) true true 1 [0]
       [Driver.EvConnect 0; Driver.EvExecute 0 "update t set a = 1"; Driver.EvCommit 0;
        Driver.EvExecute 0 "update t set a = 2"; Driver.EvConnect 0; Driver.EvCommit 0]).
Proof.
  rewrite (proj1 (execute_pooled_stale_cursor (fun _ => Driver.Rows 1) true "update t set a = 1" 1%Z eq_refl)).
  cbn [snd].
  exact (proj2 (execute_pooled_stale_cursor (fun _ => Driver.Rows 1) true "update t set a = 1" 1%Z eq_refl)
           (Driver.mkDState (Driver.mkStore None (Some []) None) (Some 0) true true 1 [0]
              [Driver.EvConnect 0; Driver.EvExecute 0 "update t set a = 1"; Driver.EvCommit 0])
           0 [] "update t set a = 2" 1%Z eq_refl eq_refl eq_refl eq_refl eq_refl).
Defined.

(** X23: with pooling, in any state where a top-level transaction (base
    engine) is open on the store's connection [c], a [Driver.execute(sql)]
    without [transaction] runs the statement through the driver's cursor,
    commits [c] and hands it back to the pool: the store has no [db] any
    more, so the open transaction's own [commit()] and [rollback()] then
    raise [AttributeError]. *)
Theorem pooled_execute_breaks_transaction : forall backend s c ts self q n,
  Driver.d_has_pooling s = true ->
  Driver.st_db (Driver.d_ctx s) = Some c ->
  Driver.st_transactions (Driver.d_ctx s) = Some ts ->
  Driver.engine self = Driver.base_engine ->
  Driver.transaction_count self < List.length ts ->
  backend q = Driver.Rows n ->
  exists s2,
    Driver.execute backend q [] false s = (Ok (Some n), s2)
    /\ Driver.d_log s2
       = (Driver.d_log s
          ++ [Driver.EvExecute (match Driver.d_cursor s with Some k => k | None => c end) q;
              Driver.EvCommit c])%list
    /\ Driver.st_db (Driver.d_ctx s2) = None
    /\ Driver.d_idle s2 = (Driver.d_idle s ++ [c])%list
    /\ fst (Driver.commit backend self s2) = Exc AttributeError
    /\ fst (Driver.rollback backend self s2) = Exc AttributeError.
Proof.
  intros backend [[db tr cfg] cur pool ign nx idle log] c ts [cnt e] q n
    Hpool Hdb Htr He Hlt Hq.
  cbn in Hpool, Hdb, Htr, He, Hlt. subst pool db tr e.
  assert (Hc : Nat.ltb cnt (List.length ts) = true) by (apply Nat.ltb_lt; exact Hlt).
  destruct cur as [k|]; (eexists; split; [|split; [|split; [|split; [|split]]]]).
  all: try (unfold Driver.execute, Driver._execute, Driver.cursor, Driver._get_ctx, Driver.ctx_commit,
        Driver._unload_context, Driver.set_store, Driver.set_cursor, Driver.read_db, Driver.emit,
        Driver.catch, Driver.lift, Driver.bind, Driver.get, Driver.ret, Driver.modify;
      cbn; rewrite Hq; cbn; reflexivity).
  all: try (cbn; rewrite <- !app_assoc; reflexivity).
  all: try reflexivity.
  all: try (unfold Driver.commit, Driver.engine_commit, Driver.ctx_commit, Driver.read_transactions,
      Driver.read_db, Driver.bind, Driver.get, Driver.throw; cbn -[Nat.ltb]; rewrite Hc; reflexivity).
  all: (unfold Driver.rollback, Driver.engine_rollback, Driver.ctx_rollback, Driver.read_transactions,
      Driver.read_db, Driver.bind, Driver.get, Driver.throw; cbn -[Nat.ltb]; rewrite Hc; reflexivity).
Qed.

(** A transaction opened on a fresh pooled driver. *)
Lemma pooled_execute_breaks_transaction_witness :
  let s1 := snd (Driver.transaction (fun _ => Driver.Rows 3) (Driver.init_state true true)) in
  exists s2,
    Driver.execute (fun _ => Driver.Rows 3) "insert into t values (1)" [] false s1 = (Ok (Some 3%Z), s2)
    /\ Driver.d_log s2 = [Driver.EvConnect 0; Driver.EvCommit 0;
                           Driver.EvExecute 0 "insert into t values (1)"; Driver.EvCommit 0]
    /\ Driver.st_db (Driver.d_ctx s2) = None
    /\ Driver.d_idle s2 = [0]
    /\ fst (Driver.commit (fun _ => Driver.Rows 3) (Driver.mkTransaction 0 Driver.base_engine) s2)
       = Exc AttributeError
    /\ fst (Driver.rollback (fun _ => Driver.Rows 3) (Driver.mkTransaction 0 Driver.base_engine) s2)
       = Exc AttributeError.
Proof.
  intro s1.
  exact (pooled_execute_breaks_transaction (fun _ => Driver.Rows 3) s1 0
           [Driver.mkTransaction 0 Driver.base_engine] (Driver.mkTransaction 0 Driver.base_engine)
           "insert into t values (1)" 3%Z eq_refl eq_refl eq_refl eq_refl ltac:(cbn; lia) eq_refl).
Defined.

Module AsyncFacts.
Import StringFacts TemplateFacts RenderFacts Factory AsyncRows.

Lemma value_format_ok : forall args,
  value_format args = Ok ("(" ++ join "," (map sql_param args) ++ ")").
Proof.
  intros [|a args]; [reflexivity|].
  unfold value_format, sql_params. cbn [map List.length Nat.ltb Nat.leb].
  replace (join "," ("{}" :: map (fun _ : Value => "{}") args))
    with (join "," (map (fun _ : string => "{}") (EmptyString :: map (fun _ => EmptyString) args)))
    by (cbn [map]; rewrite map_map; reflexivity).
  rewrite <- (str_app_nil_r (join "," _)).
  replace (join "," (map (fun _ : string => "{}") (EmptyString :: map (fun _ => EmptyString) args))
           ++ EmptyString)
    with (EmptyString ++ (join "," (map (fun _ : string => "{}")
                                        (EmptyString :: map (fun _ => EmptyString) args))
                          ++ EmptyString)) by reflexivity.
  rewrite <- value_holes. unfold py_format. rewrite FormatFacts.fmt_holes.
  - rewrite length_value_pieces. cbn [skipn List.length].
    rewrite !length_map, Nat.sub_0_r, Nat.leb_refl.
    rewrite value_fill by (rewrite !length_map; reflexivity).
    cbn [String.append]. rewrite str_app_nil_r. reflexivity.
  - discriminate.
  - cbn [forallb brace_free andb]. apply forallb_value_pieces. reflexivity.
Qed.

Lemma rmap_index : forall r ks,
  rmap (fun x => dict_index r x) ks
  = if forallb (fun k => match dict_get k r with Some _ => true | None => false end) ks
    then Ok (map (fun k => match dict_get k r with Some v => v | None => VNone end) ks)
    else Exc KeyError.
Proof.
  intros r ks. induction ks as [|k ks IH]; [reflexivity|].
  cbn [rmap forallb map]. unfold dict_index at 1.
  destruct (dict_get k r); cbn [rbind andb]; [|reflexivity].
  rewrite IH. destruct (forallb _ ks); reflexivity.
Qed.

Lemma rmap_rows : forall ks rows,
  rmap (fun r => args <-? rmap (fun x => dict_index r x) ks ;; value_format args) rows
  = if forallb (fun r => forallb (fun k => match dict_get k r with Some _ => true | None => false end) ks) rows
    then Ok (map (fun r => "(" ++ join "," (map (fun k => sql_param (match dict_get k r with Some v => v | None => VNone end)) ks) ++ ")") rows)
    else Exc KeyError.
Proof.
  intros ks rows. induction rows as [|r rows IH]; [reflexivity|].
  cbn [rmap forallb map]. rewrite rmap_index.
  destruct (forallb _ ks); cbn [rbind andb]; [|reflexivity].
  rewrite value_format_ok, map_map. cbn [rbind]. rewrite IH.
  destruct (forallb _ rows); reflexivity.
Qed.

Lemma json_row_go : forall cols row d,
  NoDup cols -> (forall k, In k cols -> dict_get k d = None) ->
  fold_left (fun obj pv => dict_set (fst pv) (snd pv) obj) (combine cols row) d
  = (d ++ combine cols row)%list.
Proof.
  induction cols as [|c cols IH]; intros row d Hnd Hfresh.
  - simpl. rewrite app_nil_r. reflexivity.
  - destruct row as [|v row]; [simpl; rewrite app_nil_r; reflexivity|].
    inversion Hnd as [|? ? Hnotin Hnd']; subst. cbn [combine fold_left fst snd].
    rewrite TableFacts.dict_set_fresh by (apply Hfresh; left; reflexivity).
    rewrite IH.
    + rewrite <- app_assoc. reflexivity.
    + exact Hnd'.
    + intros k Hk. rewrite TableFacts.dict_get_snoc, Hfresh by (right; exact Hk).
      destruct (String.eqb_spec k c) as [E|]; [subst; contradiction | reflexivity].
Qed.

End AsyncFacts.

(** X24: [AsyncDriver.insert_many(table, _last, rows=rows)] takes its
    columns from the first row and renders every row as [(v1,...,vn)] with
    [sql_params], one [{}] per column, so braces inside values are kept
    verbatim. It returns [insert into <table> (`c1`,...) values (...),(...)
    <_last>] when every row has every column; extra keys of later rows are
    dropped, and a row missing a column raises [KeyError]. *)
Theorem insert_many_statement : forall table last r0 rs,
  AsyncRows.insert_many table last (r0 :: rs)
  = if forallb (fun r => forallb (fun k => match Factory.dict_get k r with Some _ => true | None => false end)
                                 (map fst r0)) (r0 :: rs)
    then Ok (Some ("insert into " ++ table ++ " (" ++ join "," (map Factory.column_format (map fst r0))
                   ++ ") values "
                   ++ join "," (map (fun r => "(" ++ join "," (map (fun k => sql_param
                                  (match Factory.dict_get k r with Some v => v | None => VNone end))
                                  (map fst r0)) ++ ")") (r0 :: rs))
                   ++ " " ++ last))
    else Exc KeyError.
Proof.
  intros table last r0 rs. unfold AsyncRows.insert_many. cbv zeta.
  rewrite AsyncFacts.rmap_rows.
  destruct (forallb _ (r0 :: rs)); [|reflexivity].
  cbn [rbind]. rewrite RenderFacts.sql_params_nil. reflexivity.
Qed.

Lemma insert_many_statement_witness :
  AsyncRows.insert_many "tag" EmptyString
    [[("code", VStr "a{}b"); ("n", VInt 1)]; [("n", VInt 2); ("code", VStr "c"); ("x", VInt 9)]]
  = Ok (Some "insert into tag (`code`,`n`) values ('a{}b',1),('c',2) ").
Proof.
  exact (eq_trans (insert_many_statement "tag" EmptyString [("code", VStr "a{}b"); ("n", VInt 1)]
                     [[("n", VInt 2); ("code", VStr "c"); ("x", VInt 9)]]) eq_refl).
Defined.

(** X25: when the cursor has a description with distinct column names,
    the rows [AsyncDriver.query] builds are the rows zipped with the column
    names in order ([zip] stops at the shorter one); no rows give an empty
    list. *)
Theorem json_rows_zip : forall cols rows,
  NoDup cols -> AsyncRows.json_rows cols rows = map (combine cols) rows.
Proof.
  intros cols rows Hnd. destruct rows as [|row rows]; [reflexivity|].
  unfold AsyncRows.json_rows. apply map_ext. intro r. unfold AsyncRows.json_row.
  apply (AsyncFacts.json_row_go cols r [] Hnd). intros k _. reflexivity.
Qed.

Lemma json_rows_zip_witness :
  AsyncRows.json_rows ["id"; "name"] [[VInt 1; VStr "a"]; [VInt 2]]
  = [[("id", VInt 1); ("name", VStr "a")]; [("id", VInt 2)]].
Proof.
  rewrite (json_rows_zip ["id"; "name"] [[VInt 1; VStr "a"]; [VInt 2]]).
  - reflexivity.
  - repeat constructor; cbn; intuition discriminate.
Defined.

(** X26: the wrapper of [Page(w, offset, size)] shares [w]'s condition and
    order lists. A condition or an ordering added to [w] afterwards shows up
    in the page's query. After [w.clear()], the page keeps [w]'s old
    conditions, because [clear] gives [w] a new condition list, but loses its
    ordering, emptied in place; conditions added to the cleared [w] no
    longer reach the page, and [w] reads as a fresh builder. *)
Theorem page_wrapper_shares_lists : forall m w offset size,
  QWAlias.cond_ref w <> QWAlias.order_ref w ->
  QWAlias.cond_ref w < QWAlias.next_ref m -> QWAlias.order_ref w < QWAlias.next_ref m ->
  let pw := QWAlias.page_wrapper w offset size in
  let w' := fst (QWAlias.clear m w) in
  let m' := snd (QWAlias.clear m w) in
  (forall c v op alias,
     QueryWrapper._condition (QWAlias.view (QWAlias._base_op m w c v op alias) pw)
     = QueryWrapper._condition (QWAlias.view (QWAlias._base_op m w c v op alias) w))
  /\ (forall o asc,
        QueryWrapper._order (QWAlias.view (QWAlias.add_order m w o asc) pw)
        = QueryWrapper._order (QWAlias.view (QWAlias.add_order m w o asc) w))
  /\ QWAlias.view m' pw
     = QueryWrapper.mkQW (QWAlias.read m (QWAlias.cond_ref w)) []
         ("LIMIT " ++ z_str size ++ " OFFSET " ++ z_str offset)
  /\ QWAlias.view m' w' = QueryWrapper.QueryWrapper_new
  /\ (forall c v op alias, QWAlias.view (QWAlias._base_op m' w' c v op alias) pw = QWAlias.view m' pw).
Proof.
  intros [ls nx] [cr orr lst] offset size Hd Hc Ho pw w' m'. cbn in Hd, Hc, Ho.
  subst pw w' m'.
  assert (Ec : Nat.eqb cr nx = false) by (apply Nat.eqb_neq; lia).
  assert (Eo : Nat.eqb orr nx = false) by (apply Nat.eqb_neq; lia).
  assert (Eco : Nat.eqb cr orr = false) by (apply Nat.eqb_neq; exact Hd).
  assert (Eoc : Nat.eqb nx orr = false) by (apply Nat.eqb_neq; lia).
  unfold QWAlias.clear, QWAlias.alloc, QWAlias.page_wrapper, QWAlias.last, QWAlias.copy.
  cbn [fst snd QWAlias.next_ref QWAlias.cond_ref QWAlias.order_ref QWAlias.last_s].
  unfold QWAlias._base_op, QWAlias.add_order, QWAlias.view, QWAlias.write, QWAlias.read.
  cbn [QWAlias.lists QWAlias.next_ref QWAlias.cond_ref QWAlias.order_ref QWAlias.last_s].
  repeat split; intros;
    repeat first [rewrite Nat.eqb_refl | rewrite Ec | rewrite Eo | rewrite Eco | rewrite Eoc];
    reflexivity.
Qed.

Lemma page_wrapper_shares_lists_witness :
  let '(w, m) := QWAlias.QueryWrapper_init (QWAlias.mkMem (fun _ => []) 0) in
  QWAlias.view (snd (QWAlias.clear (QWAlias.add_order m w "id" false) w)) (QWAlias.page_wrapper w 0 10)
  = QueryWrapper.mkQW ["1=1"] [] "LIMIT 10 OFFSET 0".
Proof.
  cbn [QWAlias.QueryWrapper_init QWAlias.alloc QWAlias.next_ref].
  refine (proj1 (proj2 (proj2 (page_wrapper_shares_lists _ _ 0 10 _ _ _)))); cbn; lia.
Defined.

Module CheckFacts.
Import Factory.

Lemma fold_exc (fs : list Field) (e : Exn) :
  fold_left (fun r f =>
    r <-? r ;;
    let data := f_value f in
    if truthy data && length_checked (f_type f)
       && Z.ltb (f_length f) (Z.of_nat (String.length (py_str data)))
    then Exc ValueError else Ok tt) fs (Exc e) = Exc e.
Proof. induction fs as [|f fs IH]; [reflexivity | exact IH]. Qed.

Lemma check_data_go (fs : list Field) :
  fold_left (fun r f =>
    r <-? r ;;
    let data := f_value f in
    if truthy data && length_checked (f_type f)
       && Z.ltb (f_length f) (Z.of_nat (String.length (py_str data)))
    then Exc ValueError else Ok tt) fs (Ok tt)
  = if existsb (fun f => truthy (f_value f) && length_checked (f_type f)
                                && Z.ltb (f_length f) (Z.of_nat (String.length (py_str (f_value f))))) fs then Exc ValueError else Ok tt.
Proof.
  induction fs as [|f fs IH]; [reflexivity|].
  cbn [fold_left existsb rbind].
  destruct (truthy (f_value f) && length_checked (f_type f)
            && Z.ltb (f_length f) (Z.of_nat (String.length (py_str (f_value f))))).
  - cbn [orb]. apply fold_exc.
  - exact IH.
Qed.

End CheckFacts.

(** X27: [RepositoryFactory.check(obj)] fails with TypeError when the
    record has no table or an empty one; otherwise it fails with ValueError
    exactly when some field holds a truthy value of type str, bool, int or
    float whose [str()] is longer than the field's declared length, and
    succeeds otherwise. *)
Theorem check_spec (obj : Factory.Model) :
  Factory.check obj =
  match Factory.table obj with
  | None => Exc TypeError
  | Some t =>
      if String.eqb t EmptyString then Exc TypeError
      else if existsb (fun f => truthy (Factory.f_value f)
                                && Factory.length_checked (Factory.f_type f)
                                && Z.ltb (Factory.f_length f)
                                     (Z.of_nat (String.length (py_str (Factory.f_value f)))))
                      (Factory.fields obj)
           then Exc ValueError else Ok tt
  end.
Proof.
  unfold Factory.check, Factory.check_data.
  destruct (Factory.table obj) as [t|]; [|reflexivity].
  destruct (String.eqb t EmptyString); [reflexivity|].
  exact (CheckFacts.check_data_go (Factory.fields obj)).
Qed.

(** X28: comparing a column with a datetime renders the bound to the second
    and widens it: [gt] and [ge] append [col > 'YYYY-MM-DD HH:MM:SS.000000']
    and [col >= ...], [lt] and [le] the same with [.999999], [eq] the bare
    [col = 'YYYY-MM-DD HH:MM:SS']; the microseconds of the datetime are
    dropped. A date becomes [' 00:00:00.000000'] for [gt]/[ge] and
    [' 23:59:59.999999'] for [lt]/[le]. Each call appends one condition and
    leaves the ordering and the trailing clause alone. *)
Theorem base_op_time_bounds : forall (q : QueryWrapper) (c alias : string) (d : DateTime) (dd : Date),
  let col := QueryWrapper.qualify c alias in
  let ap := QueryWrapper.append_condition q in
  QueryWrapper.gt q c (VDateTime d) alias = ap (col ++ " > '" ++ strftime_ymdhms d ++ ".000000'")
  /\ QueryWrapper.ge q c (VDateTime d) alias = ap (col ++ " >= '" ++ strftime_ymdhms d ++ ".000000'")
  /\ QueryWrapper.lt q c (VDateTime d) alias = ap (col ++ " < '" ++ strftime_ymdhms d ++ ".999999'")
  /\ QueryWrapper.le q c (VDateTime d) alias = ap (col ++ " <= '" ++ strftime_ymdhms d ++ ".999999'")
  /\ QueryWrapper.eq q c (VDateTime d) alias = ap (col ++ " = '" ++ strftime_ymdhms d ++ "'")
  /\ QueryWrapper.gt q c (VDateTime d) alias
     = QueryWrapper.gt q c (VDateTime (mkDateTime (dt_year d) (dt_month d) (dt_day d)
                                         (dt_hour d) (dt_minute d) (dt_second d) 0)) alias
  /\ QueryWrapper.gt q c (VDate dd) alias = ap (col ++ " > '" ++ date_str dd ++ " 00:00:00.000000'")
  /\ QueryWrapper.ge q c (VDate dd) alias = ap (col ++ " >= '" ++ date_str dd ++ " 00:00:00.000000'")
  /\ QueryWrapper.lt q c (VDate dd) alias = ap (col ++ " < '" ++ date_str dd ++ " 23:59:59.999999'")
  /\ QueryWrapper.le q c (VDate dd) alias = ap (col ++ " <= '" ++ date_str dd ++ " 23:59:59.999999'").
Proof.
  intros q c alias [y mo da h mi se us] dd col ap. subst col ap.
  unfold QueryWrapper.gt, QueryWrapper.ge, QueryWrapper.lt, QueryWrapper.le, QueryWrapper.eq,
    QueryWrapper._base_op, QueryWrapper._like_filter.
  cbn -[strftime_ymdhms date_str QueryWrapper.qualify QueryWrapper.append_condition].
  repeat split; str_norm; reflexivity.
Qed.

Module FmtFacts.
Import StringFacts FmtStream.

Lemma rbind_assoc {A B C} (m : Result A) (f : A -> Result B) (g : B -> Result C) :
  rbind (rbind m f) g = rbind m (fun a => rbind (f a) g).
Proof. destruct m; reflexivity. Qed.

Lemma Fmt_lit : forall l, brace_free l = true -> Fmt l [] l.
Proof.
  intros l Hl pre post r md _. rewrite FormatFacts.fmt_lit by exact Hl.
  cbn [md_after List.length]. rewrite Nat.add_0_r. reflexivity.
Qed.

Lemma Fmt_app : forall T1 B1 E1 T2 B2 E2,
  Fmt T1 B1 E1 -> Fmt T2 B2 E2 -> Fmt (T1 ++ T2) (List.app B1 B2) (E1 ++ E2).
Proof.
  intros T1 B1 E1 T2 B2 E2 H1 H2 pre post r md Hmd.
  rewrite str_app_assoc, <- app_assoc. rewrite (H1 pre (List.app B2 post) (T2 ++ r) md Hmd).
  assert (Ea : List.app pre (List.app B1 (List.app B2 post))
               = List.app (List.app pre B1) (List.app B2 post)) by apply app_assoc.
  rewrite Ea.
  assert (Hmd' : md_after md B1 <> FManual) by (destruct B1; [exact Hmd | discriminate]).
  replace (List.length pre + List.length B1) with (List.length (List.app pre B1))
    by apply length_app.
  rewrite (H2 (List.app pre B1) post r (md_after md B1) Hmd').
  rewrite rbind_assoc. rewrite length_app, length_app, Nat.add_assoc.
  replace (md_after (md_after md B1) B2) with (md_after md (List.app B1 B2))
    by (destruct B1, B2; reflexivity).
  destruct (fmt_go r LNormal _ _ _); cbn [rbind]; [now rewrite str_app_assoc | reflexivity].
Qed.

Lemma Fmt_hole_app : forall a T B E, Fmt T B E -> Fmt ("{}" ++ T) (a :: B) (a ++ E).
Proof.
  intros a T B E H pre post r md Hmd.
  assert (Hr : resolve_field EmptyString (List.length pre) md
               = Ok (List.length pre, S (List.length pre), FAuto))
    by (destruct md; [reflexivity | reflexivity | congruence]).
  assert (Hn : nth_error (List.app pre (List.app (a :: B) post)) (List.length pre) = Some a).
  { rewrite nth_error_app2, Nat.sub_diag by lia. reflexivity. }
  cbn [String.append fmt_go Ascii.eqb Bool.eqb]. rewrite Hr. cbn [rbind]. rewrite Hn.
  replace (List.app pre (List.app (a :: B) post)) with (List.app (List.app pre [a]) (List.app B post))
    by (rewrite <- app_assoc; reflexivity).
  replace (S (List.length pre)) with (List.length (List.app pre [a]))
    by (rewrite length_app; cbn; lia).
  rewrite (H (List.app pre [a]) post r FAuto ltac:(discriminate)).
  rewrite rbind_assoc. rewrite length_app. cbn [List.length].
  replace (List.length pre + 1 + List.length B) with (List.length pre + S (List.length B)) by lia.
  replace (md_after FAuto B) with (md_after md (a :: B)) by (destruct B; reflexivity).
  destruct (fmt_go r LNormal _ _ _); cbn [rbind]; [now rewrite str_app_assoc | reflexivity].
Qed.

Lemma Fmt_lit_app : forall l T B E, brace_free l = true -> Fmt T B E -> Fmt (l ++ T) B (l ++ E).
Proof. intros l T B E Hl H. exact (Fmt_app l [] l T B E (Fmt_lit l Hl) H). Qed.

Lemma Fmt_eqB : forall T B B' E, B = B' -> Fmt T B E -> Fmt T B' E.
Proof. intros T B B' E -> H. exact H. Qed.

Lemma Fmt_join {A} : forall sep (l : list A) fT fB fE, brace_free sep = true ->
  (forall a, In a l -> Fmt (fT a) (fB a) (fE a)) ->
  Fmt (join sep (map fT l)) (List.concat (map fB l)) (join sep (map fE l)).
Proof.
  intros sep l fT fB fE Hs. unfold join. induction l as [|a l IH]; intros H.
  - exact (Fmt_lit EmptyString eq_refl).
  - destruct l as [|b l].
    + cbn [map String.concat List.concat]. rewrite app_nil_r. apply H. left; reflexivity.
    + change (Fmt (fT a ++ sep ++ String.concat sep (map fT (b :: l)))
                  (List.app (fB a) (List.concat (map fB (b :: l))))
                  (fE a ++ sep ++ String.concat sep (map fE (b :: l)))).
      apply Fmt_app; [apply H; left; reflexivity|].
      apply Fmt_lit_app; [exact Hs|]. apply IH. intros x Hx. apply H. right; exact Hx.
Qed.

Lemma Fmt_py_format : forall T B E, Fmt T B E -> py_format T B = Ok E.
Proof.
  intros T B E H. unfold py_format.
  pose proof (H [] [] EmptyString FNone ltac:(discriminate)) as H'.
  rewrite str_app_nil_r, app_nil_r in H'. cbn [List.app List.length] in H'.
  rewrite H'. destruct B; cbn; now rewrite str_app_nil_r.
Qed.

End FmtFacts.

Module BatchFacts.
Import Factory StringFacts.

Lemma dict_keys_go_nodup : forall names ks, NoDup ks ->
  NoDup (fold_left (fun ks n => if existsb (String.eqb n) ks then ks else List.app ks [n]) names ks).
Proof.
  induction names as [|n names IH]; intros ks Hks; [exact Hks|]. cbn [fold_left]. apply IH.
  destruct (existsb (String.eqb n) ks) eqn:E; [exact Hks|].
  apply NoDup_app; [exact Hks | repeat constructor; intros [] |].
  intros a Ha [<-|[]]. assert (existsb (String.eqb n) ks = true) by
    (apply existsb_exists; exists n; split; [exact Ha | apply String.eqb_refl]). congruence.
Qed.

Lemma update_columns_nodup : forall obj seq, NoDup (Batch.update_columns obj seq).
Proof. intros. apply dict_keys_go_nodup. constructor. Qed.

Lemma ld_append_map {A} : forall keys (F : string -> list A) k x, NoDup keys ->
  Batch.ld_append k x (map (fun k' => (k', F k')) keys)
  = map (fun k' => (k', if String.eqb k k' then List.app (F k') [x] else F k')) keys.
Proof.
  induction keys as [|a keys IH]; intros F k x Hnd; [reflexivity|].
  inversion Hnd as [|? ? Ha Hnd']; subst. cbn [map Batch.ld_append].
  destruct (String.eqb_spec k a) as [->|Hka].
  - f_equal. apply map_ext_in. intros k' Hk'.
    destruct (String.eqb_spec a k'); [subst; contradiction | reflexivity].
  - f_equal. apply IH. exact Hnd'.
Qed.

Lemma key_loop_go : forall ks keys when params (F : string -> list string) (G : string -> list Value),
  NoDup keys -> NoDup ks -> (forall k, In k ks -> dict_get k params <> None) ->
  Batch.key_loop ks when params (map (fun k => (k, F k)) keys) (map (fun k => (k, G k)) keys)
  = Ok (map (fun k => (k, if existsb (String.eqb k) ks then List.app (F k) [when] else F k)) keys,
        map (fun k => (k, if existsb (String.eqb k) ks
                          then List.app (G k) [match dict_get k params with Some v => v | None => VNone end]
                          else G k)) keys).
Proof.
  induction ks as [|k0 ks IH]; intros keys when params F G Hnd Hks Hin; [reflexivity|].
  inversion Hks as [|? ? Hk0 Hks']; subst.
  cbn [Batch.key_loop]. unfold dict_index.
  destruct (dict_get k0 params) as [v|] eqn:Ev; [|exfalso; apply (Hin k0); [left; reflexivity | exact Ev]].
  cbn [rbind]. rewrite !ld_append_map by exact Hnd.
  rewrite (IH keys when params (fun k' => if String.eqb k0 k' then List.app (F k') [when] else F k')
                               (fun k' => if String.eqb k0 k' then List.app (G k') [v] else G k'))
    by (exact Hnd || exact Hks' || (intros k Hk; apply Hin; right; exact Hk)).
  assert (Hno : existsb (String.eqb k0) ks = false).
  { destruct (existsb (String.eqb k0) ks) eqn:E; [|reflexivity].
    apply existsb_exists in E as [x [Hx Ex]]. apply String.eqb_eq in Ex. subst. contradiction. }
  f_equal; f_equal; apply map_ext; intro k; cbn [existsb];
    destruct (String.eqb_spec k k0) as [->|Hk]; cbn [orb];
    rewrite ?Hno, ?String.eqb_refl, ?Ev; try reflexivity;
    replace (String.eqb k0 k) with false by (symmetry; apply String.eqb_neq; congruence);
    reflexivity.
Qed.

Lemma key_loop_all : forall keys when params (F : string -> list string) (G : string -> list Value),
  NoDup keys -> (forall k, In k keys -> dict_get k params <> None) ->
  Batch.key_loop keys when params (map (fun k => (k, F k)) keys) (map (fun k => (k, G k)) keys)
  = Ok (map (fun k => (k, List.app (F k) [when])) keys,
        map (fun k => (k, List.app (G k) [match dict_get k params with Some v => v | None => VNone end])) keys).
Proof.
  intros keys when params F G Hnd Hin. rewrite key_loop_go by assumption.
  assert (He : forall k, In k keys -> existsb (String.eqb k) keys = true)
    by (intros k Hk; apply existsb_exists; exists k; split; [exact Hk | apply String.eqb_refl]).
  f_equal; f_equal; apply map_ext_in; intros k Hk; now rewrite (He k Hk).
Qed.

End BatchFacts.

Module BatchLoop.
Import Factory StringFacts BatchSpec.

Lemma item_loop_ok : forall now seq keys items F G ids vers its,
  NoDup keys -> Forall (item_ok now keys) items ->
  Batch.item_loop now seq keys items
    (Batch.mkB (map (fun k => (k, F k)) keys) (map (fun k => (k, G k)) keys) ids vers its)
  = Ok (Batch.mkB
          (map (fun k => (k, List.app (F k)
             (map (fun it => when_prefix now seq it ++ "{}" ++ "
") items))) keys)
          (map (fun k => (k, List.app (G k) (map (fun it => cell now it k) items))) keys)
          (List.app ids (map (fun it => py_str (getattr (stamp now it) seq)) items))
          (List.app vers (map (fun it => when_prefix now seq it ++ next_version now it ++ "
") items))
          (List.app its (map (stamp now) items))).
Proof.
  intros now seq keys items. induction items as [|it items IH];
    intros F G ids vers its Hnd Hok.
  - cbn [map Batch.item_loop]. rewrite !app_nil_r.
    f_equal. f_equal; apply map_ext; intro k; now rewrite app_nil_r.
  - inversion Hok as [|? ? [Hc [[d [Hd Hkeys]] [z Hz]]] Hok']; subst.
    cbn [Batch.item_loop Batch.b_updates Batch.b_values Batch.b_ids Batch.b_versions Batch.b_items]. rewrite Hc. cbn [rbind].
    unfold stamp in Hd. rewrite Hd. cbn [rbind].
    rewrite BatchFacts.key_loop_all
      by (exact Hnd || (intros k Hk; rewrite Forall_forall in Hkeys; exact (Hkeys k Hk))).
    cbn [rbind fst snd]. unfold stamp in Hz. rewrite Hz. cbn [incr rbind].
    erewrite IH by assumption.
    assert (Hw : forall x, "WHEN " ++ seq ++ " = " ++ py_str (getattr (setattr it "modify_time" (VDateTime now)) "id")
                 ++ " AND version = " ++ py_str (VInt z) ++ " THEN " ++ x
                 = when_prefix now seq it ++ x)
      by (intro x; unfold when_prefix, stamp; rewrite Hz; now rewrite !str_app_assoc).
    assert (Hv : next_version now it = z_str (z + 1)) by (unfold next_version, stamp; now rewrite Hz).
    cbn [map]. change (py_str (VInt (z + 1))) with (z_str (z + 1)). rewrite <- Hv.
    f_equal. f_equal.
    + apply map_ext; intro k. rewrite <- app_assoc. cbn [List.app]. rewrite Hw. reflexivity.
    + apply map_ext; intro k. rewrite <- app_assoc. cbn [List.app].
      unfold cell, stamp. rewrite Hd. reflexivity.
    + rewrite <- app_assoc; cbn [List.app]; rewrite ?Hw; reflexivity.
    + rewrite <- app_assoc; cbn [List.app]; rewrite ?Hw; reflexivity.
    + rewrite <- app_assoc; cbn [List.app]; rewrite ?Hw; reflexivity.
Qed.

End BatchLoop.

Module BatchRender.
Import Factory StringFacts FmtStream FmtFacts BatchSpec.

Lemma Fmt_conv : forall T B B' E, Fmt T B E -> B = B' -> Fmt T B' E.
Proof. intros T B B' E H <-. exact H. Qed.

Lemma when_prefix_bf : forall now seq it,
  brace_free seq = true -> brace_free (py_str (getattr (stamp now it) "id")) = true ->
  (exists z, getattr (stamp now it) "version" = VInt z) ->
  brace_free (when_prefix now seq it) = true.
Proof.
  intros now seq it Hs Hi [z Hz]. unfold when_prefix. rewrite Hz.
  rewrite !brace_free_app, Hs, Hi. cbn [py_str]. rewrite RenderFacts.brace_free_z_str. reflexivity.
Qed.

Lemma next_version_bf : forall now it, brace_free (next_version now it) = true.
Proof.
  intros now it. unfold next_version.
  destruct (getattr (stamp now it) "version"); try reflexivity. apply RenderFacts.brace_free_z_str.
Qed.

Lemma forallb_map_bf {A} (f : A -> string) l :
  (forall a, In a l -> brace_free (f a) = true) -> forallb brace_free (map f l) = true.
Proof.
  intros H. apply forallb_forall. intros x Hx. apply in_map_iff in Hx as [a [<- Ha]]. exact (H a Ha).
Qed.

Lemma Fmt_join_snoc {A B : Type} : forall sep (l : list A) (g : A -> B) fT fB fE t b e,
  brace_free sep = true ->
  (forall a, In a l -> Fmt (fT (g a)) (fB a) (fE a)) -> Fmt t b e ->
  Fmt (join sep (List.app (map fT (map g l)) [t])) (List.app (List.concat (map fB l)) b)
      (join sep (List.app (map fE l) [e])).
Proof.
  intros sep l g fT fB fE t b e Hs H Ht.
  pose proof (Fmt_join sep (List.app (map Some l) [None])
                (fun o => match o with Some a => fT (g a) | None => t end)
                (fun o => match o with Some a => fB a | None => b end)
                (fun o => match o with Some a => fE a | None => e end) Hs) as HJ.
  rewrite !map_app, !map_map in HJ. cbn [map List.concat] in HJ.
  rewrite concat_app in HJ. cbn [List.concat] in HJ. rewrite app_nil_r in HJ.
  rewrite map_map. apply HJ. intros [a|] Ha.
  - apply H. apply in_app_or in Ha as [Ha|[Ha|[]]]; [|discriminate].
    apply in_map_iff in Ha as [x [Ex Hx]]. injection Ex as ->. exact Hx.
  - exact Ht.
Qed.

Lemma concat_singletons {A B} (f : A -> B) l : List.concat (map (fun x => [f x]) l) = map f l.
Proof. induction l as [|x l IH]; [reflexivity | cbn; now rewrite IH]. Qed.

End BatchRender.

(** X29: [RepositoryFactory.update_batch] on records that pass [check],
    whose stamped [to_table()] has every column of the first record's
    update columns, and whose versions are ints, with brace-free table name,
    key column, column names, ids and key values, sends one statement: for
    each column [k] a [CASE] with one branch [WHEN <seq> = <id> AND version =
    <v> THEN <value>] per record, where [<value>] is that record's own value
    of [k] rendered as [sql_params] does; a [version] [CASE] with [<v + 1>];
    and [WHERE id IN (...)] over the key column's values. Every record has
    its [modify_time] set to the current time. *)
Theorem update_batch_statement : forall now a0 rest,
  let args := a0 :: rest in
  let seq := Repository.seq_of a0 in
  let keys := Batch.update_columns a0 seq in
  Forall (BatchSpec.item_ok now keys) args ->
  Forall (fun it => brace_free (py_str (Factory.getattr (BatchSpec.stamp now it) "id")) = true
                    /\ brace_free (py_str (Factory.getattr (BatchSpec.stamp now it) seq)) = true) args ->
  brace_free (Repository.table_of a0) = true -> brace_free seq = true ->
  forallb brace_free keys = true ->
  Batch.update_batch now args
  = Ok (BatchSpec.update_batch_sql now a0 args, map (BatchSpec.stamp now) args).
Proof.
  intros now a0 rest. cbv zeta. intros Hok Hbf Ht Hs Hk.
  assert (Hc0 : Factory.check a0 = Ok tt) by (inversion Hok as [|? ? [Hc _] _]; exact Hc).
  unfold Batch.update_batch, BatchSpec.update_batch_sql. rewrite Hc0. cbv zeta. cbn [rbind].
  pose proof (BatchFacts.update_columns_nodup a0 (Repository.seq_of a0)) as Hnd.
  set (seq := Repository.seq_of a0) in *. set (keys := Batch.update_columns a0 seq) in *.
  pose proof (BatchLoop.item_loop_ok now seq keys (a0 :: rest) (fun _ => []) (fun _ => []) [] [] []
                Hnd Hok) as HL.
  cbn beta in HL. rewrite HL. cbn [rbind Batch.b_updates Batch.b_values Batch.b_ids Batch.b_versions
                                  Batch.b_items List.app].
  assert (Hkb : forall k, In k keys -> brace_free k = true)
    by (intros k Hkin; exact (proj1 (forallb_forall _ _) Hk k Hkin)).
  rewrite Forall_forall in Hok, Hbf.
  assert (Hw : forall it, In it (a0 :: rest) -> brace_free (BatchSpec.when_prefix now seq it) = true).
  { intros it Hit. destruct (Hok it Hit) as [_ [_ Hz]]. destruct (Hbf it Hit) as [Hi _].
    exact (BatchRender.when_prefix_bf now seq it Hs Hi Hz). }
  match goal with |- rbind (sql_params ?S ?P) _ = Ok (?E, _) =>
    assert (HF : sql_params S P = Ok E) end.
  2: { rewrite HF. reflexivity. }
  unfold sql_params.
  match goal with |- (if Nat.ltb 0 (List.length ?P) then _ else _) = _ =>
    destruct (Nat.ltb 0 (List.length P)) eqn:Hlen end.
  2: { clearbody keys. destruct keys; [reflexivity | cbn in Hlen; discriminate]. }
  apply FmtFacts.Fmt_py_format.
  apply FmtFacts.Fmt_lit_app; [reflexivity|]. apply FmtFacts.Fmt_lit_app; [exact Ht|].
  apply FmtFacts.Fmt_lit_app; [reflexivity|].
  eapply BatchRender.Fmt_conv;
    [apply FmtFacts.Fmt_app;
       [apply (BatchRender.Fmt_join_snoc ", " keys _ _
                 (fun k => map (fun it => sql_param (BatchSpec.cell now it k)) (a0 :: rest))
                 _ _ [] _ eq_refl)
       | apply FmtFacts.Fmt_lit] |].
  - intros k Hkin. cbn [fst snd].
    apply FmtFacts.Fmt_lit_app; [reflexivity|]. apply FmtFacts.Fmt_lit_app; [exact (Hkb k Hkin)|].
    apply FmtFacts.Fmt_lit_app; [reflexivity|].
    eapply BatchRender.Fmt_conv;
      [apply FmtFacts.Fmt_app;
         [apply (FmtFacts.Fmt_join EmptyString (a0 :: rest) _
                   (fun it => [sql_param (BatchSpec.cell now it k)])); [reflexivity|]
         | apply FmtFacts.Fmt_lit] |].
    + intros it Hit. apply FmtFacts.Fmt_lit_app; [exact (Hw it Hit)|].
      apply FmtFacts.Fmt_hole_app. apply FmtFacts.Fmt_lit. reflexivity.
    + rewrite !StringFacts.brace_free_app, (Hkb k Hkin). reflexivity.
    + rewrite app_nil_r. apply BatchRender.concat_singletons.
  - apply FmtFacts.Fmt_lit. rewrite !StringFacts.brace_free_app.
    rewrite (TemplateFacts.brace_free_join EmptyString _ eq_refl); [reflexivity|].
    apply BatchRender.forallb_map_bf. intros it Hit.
    rewrite !StringFacts.brace_free_app, (Hw it Hit), BatchRender.next_version_bf. reflexivity.
  - rewrite !StringFacts.brace_free_app.
    rewrite (TemplateFacts.brace_free_join "," _ eq_refl); [reflexivity|].
    apply BatchRender.forallb_map_bf. intros it Hit. exact (proj2 (Hbf it Hit)).
  - rewrite !app_nil_r, map_map. rewrite concat_map, map_map. f_equal.
    apply map_ext. intro k. cbn [snd]. rewrite map_map. reflexivity.
Qed.

Lemma update_batch_statement_witness :
  Batch.update_batch now0
    [Factory.mkModel (Some "user") None
       (List.app (Factory.base_fields (VInt 1) (VInt 3) (VInt 0) VNone VNone)
                 [Factory.mkField "name" Factory.TStr (VStr "a'b") false 64 true]);
     Factory.mkModel (Some "user") None
       (List.app (Factory.base_fields (VInt 2) (VInt 5) (VInt 0) VNone VNone)
                 [Factory.mkField "name" Factory.TStr (VStr "c") false 64 true])]
  = Ok ("UPDATE user SET 
deleted = CASE
WHEN id = 1 AND version = 3 THEN 0
WHEN id = 2 AND version = 5 THEN 0
 ELSE deleted END, 
create_time = CASE
WHEN id = 1 AND version = 3 THEN NULL
WHEN id = 2 AND version = 5 THEN NULL
 ELSE create_time END, 
modify_time = CASE
WHEN id = 1 AND version = 3 THEN '2026-10-14 12:00:00'
WHEN id = 2 AND version = 5 THEN '2026-10-14 12:00:00'
 ELSE modify_time END, 
name = CASE
WHEN id = 1 AND version = 3 THEN 'a''b'
WHEN id = 2 AND version = 5 THEN 'c'
 ELSE name END, 
version = CASE
WHEN id = 1 AND version = 3 THEN 4
WHEN id = 2 AND version = 5 THEN 6
 ELSE version END WHERE id IN (1,2)",
        [Factory.mkModel (Some "user") None
           (List.app (Factory.base_fields (VInt 1) (VInt 3) (VInt 0) VNone (VDateTime now0))
                     [Factory.mkField "name" Factory.TStr (VStr "a'b") false 64 true]);
         Factory.mkModel (Some "user") None
           (List.app (Factory.base_fields (VInt 2) (VInt 5) (VInt 0) VNone (VDateTime now0))
                     [Factory.mkField "name" Factory.TStr (VStr "c") false 64 true])]).
Proof.
  match goal with |- Batch.update_batch ?n (?a :: ?r) = _ =>
    refine (eq_trans (update_batch_statement n a r _ _ _ _ _) eq_refl) end;
    [| | reflexivity | reflexivity | reflexivity];
    repeat constructor; try (eexists; split; [reflexivity | repeat constructor; discriminate]);
    eexists; reflexivity.
Defined.

Module BatchInsertFacts.

Lemma rmap_forall2 {A B} (f : A -> Result B) : forall xs ys,
  Forall2 (fun x y => f x = Ok y) xs ys -> AsyncRows.rmap f xs = Ok ys.
Proof. intros xs ys H. induction H as [|x y xs ys Hx _ IH]; [reflexivity|]. cbn. now rewrite Hx, IH. Qed.

Lemma insert_rows_ok : forall table last args d0 ds,
  Forall2 (fun a d => Factory.to_table a = Ok d) args (d0 :: ds) ->
  Forall (fun r => forallb (fun k => match Factory.dict_get k r with Some _ => true | None => false end)
                           (map fst d0) = true) (d0 :: ds) ->
  BatchInsert.insert_rows table last args
  = Ok ["insert into " ++ table ++ " (" ++ join "," (map Factory.column_format (map fst d0))
        ++ ") values "
        ++ join "," (map (fun r => "(" ++ join "," (map (fun k => sql_param
                            (match Factory.dict_get k r with Some v => v | None => VNone end))
                            (map fst d0)) ++ ")") (d0 :: ds))
        ++ " " ++ last].
Proof.
  intros table last args d0 ds H2 Hall. unfold BatchInsert.insert_rows.
  rewrite (rmap_forall2 _ _ _ H2). cbn [rbind]. unfold AsyncRows.insert_many. cbv zeta.
  rewrite AsyncFacts.rmap_rows.
  replace (forallb _ (d0 :: ds)) with true
    by (symmetry; apply forallb_forall; intros r Hr; rewrite Forall_forall in Hall; exact (Hall r Hr)).
  cbn [rbind]. rewrite RenderFacts.sql_params_nil. reflexivity.
Qed.

End BatchInsertFacts.

(** X30: [create_batch] and [save_batch] with two or more records run
    [check] on the first record only and insert the records' [to_table()]
    rows as they are, in one [insert_many]: no id is drawn and
    [create_time] is not set, unlike [save]. The columns are those of the
    first row. [save_batch] appends [ON DUPLICATE KEY UPDATE c=values(c),...]
    over every existing column of the first record other than the key
    column, [version] and [create_time] included. *)
Theorem batch_insert_statements : forall auto now mid fs ticks a0 a1 rest d0 ds,
  Factory.check a0 = Ok tt ->
  Forall2 (fun a d => Factory.to_table a = Ok d) (a0 :: a1 :: rest) (d0 :: ds) ->
  Forall (fun r => forallb (fun k => match Factory.dict_get k r with Some _ => true | None => false end)
                           (map fst d0) = true) (d0 :: ds) ->
  let ins := "insert into " ++ Repository.table_of a0 ++ " ("
             ++ join "," (map Factory.column_format (map fst d0)) ++ ") values "
             ++ join "," (map (fun r => "(" ++ join "," (map (fun k => sql_param
                            (match Factory.dict_get k r with Some v => v | None => VNone end))
                            (map fst d0)) ++ ")") (d0 :: ds)) in
  BatchInsert.create_batch auto now mid fs ticks (a0 :: a1 :: rest) = Some (Ok [ins ++ " "])
  /\ BatchInsert.save_batch auto now mid fs ticks (a0 :: a1 :: rest)
     = Some (Ok [ins ++ " ON DUPLICATE KEY UPDATE "
                 ++ join "," (BatchInsert.upsert_updates a0 (Repository.seq_of a0))]).
Proof.
  intros auto now mid fs ticks a0 a1 rest d0 ds Hc H2 Hall ins.
  unfold BatchInsert.create_batch, BatchInsert.save_batch. rewrite Hc. cbv zeta.
  rewrite !(BatchInsertFacts.insert_rows_ok _ _ _ d0 ds H2 Hall).
  subst ins. split; f_equal; f_equal; f_equal; str_norm; reflexivity.
Qed.

Lemma batch_insert_statements_witness :
  let w0 := Factory.mkModel (Some "user") None
              (List.app (Factory.base_fields VNone (VInt 0) (VInt 0) VNone VNone)
                        [Factory.mkField "name" Factory.TStr (VStr "ab") false 3 true]) in
  let w1 := Factory.mkModel (Some "user") None
              (List.app (Factory.base_fields VNone (VInt 0) (VInt 0) VNone VNone)
                        [Factory.mkField "name" Factory.TStr (VStr "abcd") false 3 true]) in
  Factory.check w1 = Exc ValueError
  /\ BatchInsert.create_batch false now0 1 Snowflake.init [] [w0; w1]
     = Some (Ok ["insert into user (`id`,`version`,`deleted`,`create_time`,`modify_time`,`name`) values (NULL,0,0,NULL,NULL,'ab'),(NULL,0,0,NULL,NULL,'abcd') "])
  /\ BatchInsert.save_batch false now0 1 Snowflake.init [] [w0; w1]
     = Some (Ok ["insert into user (`id`,`version`,`deleted`,`create_time`,`modify_time`,`name`) values (NULL,0,0,NULL,NULL,'ab'),(NULL,0,0,NULL,NULL,'abcd') ON DUPLICATE KEY UPDATE version=values(version),deleted=values(deleted),create_time=values(create_time),modify_time=values(modify_time),name=values(name)"]).
Proof.
  intros w0 w1.
  pose proof (batch_insert_statements false now0 1 Snowflake.init [] w0 w1 []
    [("id", VNone); ("version", VInt 0); ("deleted", VInt 0); ("create_time", VNone);
     ("modify_time", VNone); ("name", VStr "ab")]
    [[("id", VNone); ("version", VInt 0); ("deleted", VInt 0); ("create_time", VNone);
      ("modify_time", VNone); ("name", VStr "abcd")]]
    eq_refl
    ltac:(repeat constructor)
    ltac:(repeat constructor)) as [H1 H2].
  split; [reflexivity|]. split; [exact (eq_trans H1 eq_refl) | exact (eq_trans H2 eq_refl)].
Defined.

Lemma sql_param_str_quotes_only_witness :
  exists body : string,
    sql_param (VStr "C:\tmp") = "'" ++ body ++ "'" /\ unquote true body <> Some "C:\tmp".
Proof.
  destruct (sql_param_str_quotes_only "C:\tmp") as [body [H1 [_ H3]]].
  exists body. split; [exact H1 | apply H3; cbn; lia].
Defined.

Lemma like_pattern_keeps_quotes_doubled_witness :
  exists body : string,
    QueryWrapper.like QueryWrapper.QueryWrapper_new "name" (VStr "O'Brien") EmptyString
    = QueryWrapper.append_condition QueryWrapper.QueryWrapper_new ("name like '" ++ body ++ "'")
    /\ unquote true body = Some "%O''Brien%"
    /\ "O''Brien" <> "O'Brien".
Proof.
  destruct (like_pattern_keeps_quotes_doubled QueryWrapper.QueryWrapper_new "name" "O'Brien" EmptyString)
    as [body [H1 [H2 H3]]].
  exists body. split; [exact H1|]. split; [exact H2|].
  exact (H3 ltac:(cbn; lia)).
Defined.
